(** * Hybrid retrieval and citation-constrained answering

    A shallow embedding of the retrieval and answering core of the
    Slack knowledge API:

    - [src/lib/ai/answering.ts]       ([cleanInvalidCitations],
                                       [generateAnswerWithCitations]),
    - [src/lib/ai/embeddings.ts]      ([generateEmbedding]),
    - [src/lib/retrieval/search.ts]   ([searchKnowledge]),
    - [src/lib/retrieval/hybridSearch.ts]
                                      ([reciprocalRankFusion], [hybridSearch]),
    - [src/routes/knowledge-routes.ts] (the POST /ask and POST /search
                                       handlers),
    - [src/lib/processors/chunker.ts] ([chunkMessages]),
    - [src/lib/processors/classifier.ts]
                                      ([classifyMessage]),
    - [src/lib/processors/customerSafeDetector.ts]
                                      ([isCustomerSafe]).

    Modelling conventions.

    - A JavaScript string is modelled as the [string] of the bytes of
      its UTF-8 encoding.  An ASCII character is one byte below 128, and
      every byte of any other character is 128 or more, so the tests of
      the code against ASCII text (digits, brackets, line breaks,
      [includes] and [startsWith] with ASCII needles, the regular
      expressions) read the bytes as they are.  [trim] knows the white
      space of Unicode in its encoded form, and [utf16Length] counts the
      code units that [.length] counts.  [toUpperCase] is modelled on the
      letters a-z only; what is proved of a comparison of its result says
      where the text has to be ASCII.
    - JavaScript numbers that are scores are modelled as exact rationals
      [Q], where the runtime computes in binary64; numbers that are array
      lengths, indices or parsed citation numbers are modelled as [nat],
      [N] or [Z].
    - An [async] function is a finite tree of awaited calls ([Async]); the
      external services (generation, embedding, the SQL pool) answer
      through a [Handler], and every call is recorded in a trace. *)

From Stdlib Require Import List ZArith QArith Qround Lia Bool Ascii String Arith.
From Stdlib Require Import Permutation Sorted DecimalString DecimalNat Lqa.
From Equations Require Import Equations.
Import ListNotations.

Set Implicit Arguments.
Local Open Scope string_scope.

(* ===================================================================== *)
(** ** JavaScript string primitives                                       *)
(* ===================================================================== *)

Module Text.

(** [\d] of a regular expression without the unicode flag: 0-9. *)
Definition isDigit (c : ascii) : bool :=
  let n := nat_of_ascii c in (48 <=? n)%nat && (n <=? 57)%nat.

(** The white space and the line terminators that
    [String.prototype.trim] removes, by the length of their encoding.
    One byte: TAB, LF, VT, FF, CR and SPACE. *)
Definition isSpace (c : ascii) : bool :=
  let n := nat_of_ascii c in ((9 <=? n)%nat && (n <=? 13)%nat) || (n =? 32)%nat.

(** Two bytes: U+00A0 (no-break space). *)
Definition isSpace2 (c d : ascii) : bool :=
  (nat_of_ascii c =? 194)%nat && (nat_of_ascii d =? 160)%nat.

(** Three bytes: U+1680, U+2000 to U+200A, U+2028, U+2029, U+202F,
    U+205F, U+3000 and U+FEFF. *)
Definition isSpace3 (c d e : ascii) : bool :=
  let a := nat_of_ascii c in
  let b := nat_of_ascii d in
  let x := nat_of_ascii e in
  ((a =? 225)%nat && (b =? 154)%nat && (x =? 128)%nat)
  || ((a =? 226)%nat && (b =? 128)%nat
      && (((128 <=? x)%nat && (x <=? 138)%nat)
          || (x =? 168)%nat || (x =? 169)%nat || (x =? 175)%nat))
  || ((a =? 226)%nat && (b =? 129)%nat && (x =? 159)%nat)
  || ((a =? 227)%nat && (b =? 128)%nat && (x =? 128)%nat)
  || ((a =? 239)%nat && (b =? 187)%nat && (x =? 191)%nat).

(** [s.trimStart()]. *)
Fixpoint trimStart (s : string) : string :=
  match s with
  | EmptyString => EmptyString
  | String c t =>
      if isSpace c then trimStart t
      else
        match t with
        | EmptyString => s
        | String d t1 =>
            if isSpace2 c d then trimStart t1
            else
              match t1 with
              | EmptyString => s
              | String e t2 => if isSpace3 c d e then trimStart t2 else s
              end
        end
  end.

(** Nothing but white space. *)
Definition isBlank (s : string) : bool :=
  match trimStart s with
  | EmptyString => true
  | _ => false
  end.

(** [s.trimEnd()]: the text up to the point from which only white space
    follows. *)
Fixpoint trimEnd (s : string) : string :=
  match s with
  | EmptyString => EmptyString
  | String c t => if isBlank s then EmptyString else String c (trimEnd t)
  end.

(** [s.trim()]. *)
Definition trim (s : string) : string := trimEnd (trimStart s).

(** The UTF-16 code units that the character starting with the byte [c]
    takes: one for an ASCII byte and for the first byte of a sequence of
    two or three bytes, two for the first byte of a sequence of four
    (a character beyond the basic plane, a surrogate pair), none for a
    continuation byte. *)
Definition codeUnits (c : ascii) : nat :=
  let n := nat_of_ascii c in
  if (n <? 128)%nat then 1
  else if (n <? 192)%nat then 0
  else if (n <? 240)%nat then 1
  else 2.

(** [s.length]. *)
Fixpoint utf16Length (s : string) : nat :=
  match s with
  | EmptyString => 0
  | String c t => codeUnits c + utf16Length t
  end.

(** Text of ASCII characters only. *)
Fixpoint isAscii (s : string) : bool :=
  match s with
  | EmptyString => true
  | String c t => (nat_of_ascii c <? 128)%nat && isAscii t
  end.

Definition toUpperChar (c : ascii) : ascii :=
  let n := nat_of_ascii c in
  if (97 <=? n)%nat && (n <=? 122)%nat then ascii_of_nat (n - 32) else c.

(** [s.toUpperCase()] on ASCII text: the letters a-z become A-Z.  The
    function of the runtime maps letters outside ASCII as well, a few of
    them to ASCII letters (U+00DF to SS, U+017F to S, the ligatures
    U+FB00 to U+FB06); on text with such letters this definition does not
    follow it. *)
Fixpoint toUpperCase (s : string) : string :=
  match s with
  | EmptyString => EmptyString
  | String c t => String (toUpperChar c) (toUpperCase t)
  end.

(** [s.includes(needle)]. *)
Fixpoint includes (needle s : string) : bool :=
  prefix needle s ||
  match s with
  | EmptyString => false
  | String _ t => includes needle t
  end.

(** [xs.join(sep)]. *)
Fixpoint join (sep : string) (xs : list string) : string :=
  match xs with
  | [] => EmptyString
  | [x] => x
  | x :: rest => x ++ sep ++ join sep rest
  end.

(** Template interpolation of a non-negative integer. *)
Definition ofNat (n : nat) : string := NilEmpty.string_of_uint (Nat.to_uint n).

Definition digitValue (c : ascii) : N := N.of_nat (nat_of_ascii c - 48).

(** [parseInt(ds, 10)] on a string of decimal digits (what the capture
    group [(\d+)] holds).  The value is exact here; the code only
    compares it with an array length and subtracts one from values that
    passed the comparison, where doubles are exact too. *)
Definition parseInt (ds : string) : N :=
  fold_left (fun acc c => (acc * 10 + digitValue c)%N) (list_ascii_of_string ds) 0%N.

(** *** The regular expression [/\[(\d+)\]/g] *)

(** Longest run of digits at the head of [s], and what follows it. *)
Fixpoint spanDigits (s : string) : string * string :=
  match s with
  | String c t =>
      if isDigit c then let (ds, r) := spanDigits t in (String c ds, r)
      else (EmptyString, s)
  | EmptyString => (EmptyString, EmptyString)
  end.

(** One attempt to match [\[(\d+)\]] at the head of [s]: the capture
    group and the text after the match.  [\d+] is greedy and [\]] is no
    digit, so only the longest run of digits can be followed by it. *)
Definition matchCitation (s : string) : option (string * string) :=
  match s with
  | String "[" t =>
      match spanDigits t with
      | (String d ds, String "]" rest) => Some (String d ds, rest)
      | _ => None
      end
  | _ => None
  end.

(** What a global scan sees: a character that starts no match, or a
    match with its capture group. *)
Inductive Piece : Type :=
| Lit (c : ascii)
| Cite (digits : string).

Definition inspect {A : Type} (a : A) : { b : A | a = b } := exist _ a eq_refl.

(** The global scan of [/\[(\d+)\]/g]: at every position try a match;
    after a match go on behind it, otherwise one character further. *)
Equations scanCitations (s : string) : list Piece by wf (String.length s) lt :=
  scanCitations EmptyString := [];
  scanCitations (String c t) with inspect (matchCitation (String c t)) := {
    | exist _ (Some (ds, rest)) _ => Cite ds :: scanCitations rest
    | exist _ None _ => Lit c :: scanCitations t }.
Next Obligation.
  assert (Hspan : forall s : string,
             (String.length (fst (spanDigits s)) + String.length (snd (spanDigits s))
              = String.length s)%nat).
  { intros s. induction s as [|c0 t0 IH]; simpl; [reflexivity|].
    destruct (isDigit c0); simpl; [|reflexivity].
    destruct (spanDigits t0) as [ds0 r0]; simpl in *; lia. }
  match goal with
  | H : _ = Some (?ds, ?rest) |- (_ < S (String.length ?t))%nat =>
      specialize (Hspan t); revert H
  end.
  destruct (Ascii.eqb c "[") eqn:Hc.
  - apply Ascii.eqb_eq in Hc; subst c.
    destruct (spanDigits t) as [d r]; simpl in Hspan.
    destruct d as [|d0 d']; [discriminate|].
    destruct r as [|c' r']; [discriminate|].
    destruct (Ascii.eqb c' "]") eqn:Hc'.
    + apply Ascii.eqb_eq in Hc'; subst c'.
      intros [= <- <-]. simpl in *. lia.
    + destruct c' as [[] [] [] [] [] [] [] []]; try discriminate.
  - destruct c as [[] [] [] [] [] [] [] []]; try discriminate.
Qed.

(** The text a match stands for. *)
Definition citeToken (ds : string) : string := "[" ++ ds ++ "]".

(** [s.replace(/\[(\d+)\]/g, f)] with [f] applied to the capture group. *)
Definition replaceCitations (f : string -> string) (s : string) : string :=
  concat EmptyString
    (map (fun p => match p with
                   | Lit c => String c EmptyString
                   | Cite ds => f ds
                   end) (scanCitations s)).

(** The capture groups of the successive [exec] calls of a global
    regular expression, until [exec] returns [null]. *)
Definition citationMatches (s : string) : list string :=
  flat_map (fun p => match p with Lit _ => [] | Cite ds => [ds] end)
           (scanCitations s).

End Text.

(* ===================================================================== *)
(** ** JavaScript arrays, sets and sorting                                *)
(* ===================================================================== *)

Module Js.

Section Arrays.
Variables A B : Type.

Fixpoint mapiFrom (i : nat) (f : A -> nat -> B) (xs : list A) : list B :=
  match xs with
  | [] => []
  | x :: rest => f x i :: mapiFrom (S i) f rest
  end.

(** [xs.map((x, i) => f(x, i))]. *)
Definition mapi (f : A -> nat -> B) (xs : list A) : list B := mapiFrom 0 f xs.

(** [xs.filter((x) => x !== undefined)] on the results of indexing. *)
Definition definedOnly (xs : list (option A)) : list A :=
  flat_map (fun o => match o with Some x => [x] | None => [] end) xs.

(** [xs.slice(0, e)] for an integer [e]: a negative end counts from
    the end of the array. *)
Definition slice0 (e : Z) (xs : list A) : list A :=
  let len := Z.of_nat (List.length xs) in
  let stop := if (e <? 0)%Z then Z.max (len + e) 0 else Z.min e len in
  firstn (Z.to_nat stop) xs.

(** [Array.prototype.sort(cmp)]: a stable sort; [cmp a b <= 0] keeps
    [a] before [b]. *)
Variable cmp : A -> A -> Q.

Fixpoint sortInsert (x : A) (sorted : list A) : list A :=
  match sorted with
  | [] => [x]
  | y :: rest =>
      if Qle_bool (cmp x y) 0 then x :: y :: rest
      else y :: sortInsert x rest
  end.

Fixpoint sort (xs : list A) : list A :=
  match xs with
  | [] => []
  | x :: rest => sortInsert x (sort rest)
  end.

(** The order the comparator stands for. *)
Definition before (a b : A) : Prop := cmp a b <= 0.
End Arrays.

(** [Set<number>]: values in insertion order, without repetition. *)
Definition NumSet : Type := list nat.

Definition setHas (x : nat) (s : NumSet) : bool := existsb (Nat.eqb x) s.

Definition setAdd (x : nat) (s : NumSet) : NumSet :=
  if setHas x s then s else (s ++ [x])%list.

End Js.

(* ===================================================================== *)
(** ** Data model ([search.ts], [answering.ts])                           *)
(* ===================================================================== *)

(** A rejected promise carries an error value. *)
Definition Error : Type := string.

(** A [Date], as milliseconds since the epoch. *)
Definition Date : Type := Z.

Definition Embedding : Type := list Q.

Module SearchResult.
Record t : Type := mk {
  id : Z;
  content : string;
  source_type : string;
  source_id : string;
  channel_id : option string;
  author : option string;
  timestamp : option Date;
  permalink : option string;
  is_source_of_truth : bool;
  is_customer_safe : bool;
  metadata : option string;
  similarity : Q
}.

(** [{ ...r, similarity: s }]. *)
Definition withSimilarity (r : t) (s : Q) : t :=
  mk (id r) (content r) (source_type r) (source_id r) (channel_id r)
     (author r) (timestamp r) (permalink r) (is_source_of_truth r)
     (is_customer_safe r) (metadata r) s.
End SearchResult.

Module SearchOptions.
Record t : Type := mk {
  limit : option Z;
  customerSafeOnly : option bool;
  sourceOfTruthOnly : option bool;
  channelId : option string;
  minSimilarity : option Q
}.
Definition empty : t := mk None None None None None.
End SearchOptions.

Module Citation.
Record t : Type := mk {
  source_id : string;
  content : string;
  author : option string;
  timestamp : option Date;
  permalink : option string;
  is_customer_safe : bool
}.
End Citation.

Inductive Mode : Type := internal | customer.

Definition isCustomer (m : Mode) : bool :=
  match m with customer => true | internal => false end.

Module AnswerWithCitations.
Record t : Type := mk {
  answer : string;
  citations : list Citation.t;
  mode : Mode;
  canCiteForCustomer : bool
}.
End AnswerWithCitations.

(* ===================================================================== *)
(** ** Awaited calls                                                      *)
(* ===================================================================== *)

Module GenRequest.
(** The argument of [generateText]. *)
Record t : Type := mk {
  model : string;
  system : option string;
  prompt : string;
  temperature : option Q
}.
End GenRequest.

Inductive SqlParam : Type :=
| PText (s : string)
| PJsonVector (e : Embedding)      (* JSON.stringify(queryEmbedding) *)
| PNumber (n : Z).

Module SqlQuery.
Record t : Type := mk { sql : string; params : list SqlParam }.
End SqlQuery.

(** The calls that leave the program.  [PoolQueryAll] is
    [Promise.all([pool.query(..), pool.query(..)])]: both queries are
    issued, and the join is fulfilled with both row sets or rejected. *)
Inductive Event : Type -> Type :=
| Embed (model value : string) : Event Embedding
| GenerateText (req : GenRequest.t) : Event string
| PoolQuery (q : SqlQuery.t) : Event (list SearchResult.t)
| PoolQueryAll (qv qk : SqlQuery.t)
    : Event (list SearchResult.t * list SearchResult.t).

Inductive Settled (X : Type) : Type :=
| Fulfilled (x : X)
| Rejected (e : Error).
Arguments Rejected {X} e.

(** The body of an [async] function: it returns, throws, awaits a call
    and goes on with its settlement, or writes to [console.error]. *)
Inductive Async (R : Type) : Type :=
| Ret (r : R)
| Throw (e : Error)
| Await (X : Type) (ev : Event X) (k : Settled X -> Async R)
| ConsoleError (msg : string) (e : Error) (k : Async R).
Arguments Throw {R} e.

Module AsyncOps.

Fixpoint bind {A B : Type} (p : Async A) (f : A -> Async B) : Async B :=
  match p with
  | Ret a => f a
  | Throw e => Throw e
  | Await ev k => Await ev (fun s => bind (k s) f)
  | ConsoleError msg e k => ConsoleError msg e (bind k f)
  end.

(** [await call]: the value, or the rejection rethrown. *)
Definition await {X : Type} (ev : Event X) : Async X :=
  Await ev (fun s => match s with
                     | Fulfilled x => Ret x
                     | Rejected e => Throw e
                     end).

(** [try { p } catch (error) { h(error) }]. *)
Fixpoint tryCatch {A : Type} (p : Async A) (h : Error -> Async A) : Async A :=
  match p with
  | Ret a => Ret a
  | Throw e => h e
  | Await ev k => Await ev (fun s => tryCatch (k s) h)
  | ConsoleError msg e k => ConsoleError msg e (tryCatch k h)
  end.

End AsyncOps.

Notation "x <- p ;; q" := (AsyncOps.bind p (fun x => q))
  (at level 61, p at next level, right associativity).

(** How the outside world settles each call. *)
Definition Handler : Type := forall X : Type, Event X -> Settled X.

Inductive Call : Type :=
| Called (X : Type) (ev : Event X)
| Logged (msg : string) (e : Error).

Inductive Outcome (R : Type) : Type :=
| Returned (r : R)
| Threw (e : Error).
Arguments Threw {R} e.

(** Running an [async] body: the calls it made, in order, and how it
    ended. *)
Fixpoint run {R : Type} (h : Handler) (p : Async R) : list Call * Outcome R :=
  match p with
  | Ret r => ([], Returned r)
  | Throw e => ([], Threw e)
  | Await ev k =>
      let (calls, out) := run h (k (h _ ev)) in (Called ev :: calls, out)
  | ConsoleError msg e k =>
      let (calls, out) := run h k in (Logged msg e :: calls, out)
  end.

Definition calls {R : Type} (h : Handler) (p : Async R) : list Call := fst (run h p).
Definition outcome {R : Type} (h : Handler) (p : Async R) : Outcome R := snd (run h p).

(* ===================================================================== *)
(** ** [answering.ts]                                                     *)
(* ===================================================================== *)

Module Answering.
Import Text Js AsyncOps.

Definition dq : string := String "034"%char EmptyString.
Definition nl : string := String "010"%char EmptyString.

(** [cleanInvalidCitations(text, maxValidCitation)]. *)
Definition cleanInvalidCitations (text : string) (maxValidCitation : nat) : string :=
  if (maxValidCitation =? 0)%nat then
    replaceCitations (fun _ => "") text
  else
    replaceCitations
      (fun num =>
         let citationNum := parseInt num in
         if (N.of_nat maxValidCitation <? citationNum)%N then ""
         else citeToken num)
      text.

Definition emptyResultsMessage : string :=
  "I don't have enough information in the knowledge base to answer this question. Please try rephrasing your question or check if the information has been added to the system.".

Definition internalOnlyMessage : string :=
  "I found some information, but it's marked as internal-only and cannot be shared with customers. Please consider creating an approved knowledge article or contact the internal team for this information.".

Definition notRelevantMessage : string :=
  "I don't have enough information in the knowledge base to answer this question.".

(** The early-return objects. *)
Definition earlyReturn (msg : string) (mode : Mode) : AnswerWithCitations.t :=
  AnswerWithCitations.mk msg [] mode false.

Definition relevanceContext (relevantResults : list SearchResult.t) : string :=
  join (nl ++ nl)
    (mapi (fun r i =>
             "[" ++ ofNat (i + 1) ++ "] " ++ substring 0 500 (SearchResult.content r))
          (firstn 10 relevantResults)).

Definition relevancePrompt (query : string) (relevantResults : list SearchResult.t)
  : string :=
  "Question: " ++ query ++ "

Available context snippets:
" ++ relevanceContext relevantResults ++ "

Task: Determine if ANY of these context snippets contain information that could help answer the question.

Respond with ONLY " ++ dq ++ "YES" ++ dq ++ " or " ++ dq ++ "NO" ++ dq ++ ".

YES = At least one snippet contains relevant information to answer this specific question
NO = None of the snippets are relevant to answering this specific question

Answer:".

Definition relevanceRequest (query : string) (relevantResults : list SearchResult.t)
  : GenRequest.t :=
  GenRequest.mk "gpt-4o-mini" None (relevancePrompt query relevantResults) (Some 0).

Definition context (relevantResults : list SearchResult.t) : string :=
  join (nl ++ nl ++ "---" ++ nl ++ nl)
    (mapi (fun r i => "[Source " ++ ofNat (i + 1) ++ "]" ++ nl ++ SearchResult.content r)
          relevantResults).

Definition systemPrompt (mode : Mode) : string :=
  match mode with
  | customer =>
"You are a helpful assistant answering customer questions. 
       
CRITICAL RULES:
- Use ONLY the provided context to answer
- First determine: Does the context actually contain information relevant to this specific question?
- If the context is about completely different topics, respond with: " ++ dq ++ "I don't have enough information in the knowledge base to answer this." ++ dq ++ "
- NEVER make up information or provide answers not in the context
- NEVER answer questions about unrelated topics found in the context
- Only cite sources that directly answer the question asked
- Only cite sources that are marked as customer-safe
- Be professional and helpful
- If unsure or if context is irrelevant, say " ++ dq ++ "I don't have enough information in the knowledge base to answer this" ++ dq
  | internal =>
"You are a helpful assistant answering internal team questions.

CRITICAL RULES:
- Use ONLY the provided context to answer
- First determine: Does the context actually contain information relevant to this specific question?
- If the context is about completely different topics, respond with: " ++ dq ++ "I don't have enough information in the knowledge base to answer this." ++ dq ++ "
- NEVER make up information or provide answers not in the context
- NEVER answer questions about unrelated topics found in the context
- Only cite sources that directly answer the question asked
- You can cite any source provided
- If unsure or if context is irrelevant, say " ++ dq ++ "I don't have enough information in the knowledge base to answer this" ++ dq
  end.

Definition validCitationNumbers (n : nat) : string :=
  join ", " (map (fun i => "[" ++ ofNat (i + 1) ++ "]") (seq 0 n)).

Definition userPrompt (query : string) (relevantResults : list SearchResult.t)
  : string :=
  let n := List.length relevantResults in
  "You have access to " ++ ofNat n ++ " source(s) from the knowledge base.

Context from knowledge base:
" ++ context relevantResults ++ "

Question: " ++ query ++ "

CITATION RULES - READ CAREFULLY:
1. You have EXACTLY " ++ ofNat n ++ " source(s) available
2. Valid citation numbers are ONLY: " ++ validCitationNumbers n ++ "
3. DO NOT use citation numbers that don't exist (like [" ++ ofNat (n + 1) ++ "] or higher)
4. You MUST cite sources using [1], [2], [3], etc. when you use information from them
5. If you use information from multiple sources, cite ALL of them (e.g., " ++ dq ++ "Deployments happen during business hours [1]. We also use automated rollbacks [2]." ++ dq ++ ")
6. Place citation numbers immediately after the statements they support
7. If a statement is supported by multiple sources, list all: [1][2]
8. ONLY use citations that actually exist in the available sources

Answer Guidelines:
- Based ONLY on the context above, provide a clear answer
- If the context doesn't contain information to answer this specific question, respond with: " ++ dq ++ "I don't have enough information in the knowledge base to answer this." ++ dq ++ "
- CITE EVERY source you use
- DO NOT invent citation numbers

Remember: You can ONLY use citations [1] through [" ++ ofNat n ++ "]. Any citation number outside this range is INVALID.".

Definition answerRequest (query : string) (relevantResults : list SearchResult.t)
    (mode : Mode) : GenRequest.t :=
  GenRequest.mk "gpt-4o-mini" (Some (systemPrompt mode))
    (userPrompt query relevantResults) (Some (1 # 10)).

(** One turn of the [while ((match = citationRegex.exec(cleanedAnswer))
    !== null)] loop, on the capture group of the match. *)
Definition collectStep (n : nat) (usedCitationIndices : NumSet) (group : string)
  : NumSet :=
  let citationIndex := parseInt group in
  if (0 <? citationIndex)%N && (citationIndex <=? N.of_nat n)%N
  then setAdd (N.to_nat citationIndex - 1) usedCitationIndices
  else usedCitationIndices.

(** The loop: the set of 0-based indices of the in-range citations. *)
Definition collectCitationIndices (cleanedAnswer : string) (n : nat) : NumSet :=
  fold_left (collectStep n) (citationMatches cleanedAnswer) [].

(** A capture group names the 0-based index [i] of an evidence set of
    size [n]. *)
Definition cites (n : nat) (group : string) (i : nat) : Prop :=
  (0 < parseInt group)%N /\ (parseInt group <= N.of_nat n)%N /\
  i = (N.to_nat (parseInt group) - 1)%nat.

Definition toCitation (result : SearchResult.t) : Citation.t :=
  Citation.mk (SearchResult.source_id result) (SearchResult.content result)
    (SearchResult.author result) (SearchResult.timestamp result)
    (SearchResult.permalink result) (SearchResult.is_customer_safe result).

(** The comparator [(a, b) => a - b]. *)
Definition byIndex (a b : nat) : Q := inject_Z (Z.of_nat a - Z.of_nat b).

(** The citations array built from the cleaned answer. *)
Definition buildCitations (cleanedAnswer : string)
    (relevantResults : list SearchResult.t) : list Citation.t :=
  let usedCitationIndices :=
    collectCitationIndices cleanedAnswer (List.length relevantResults) in
  map toCitation
    (definedOnly
       (map (fun index => nth_error relevantResults index)
            (sort byIndex usedCitationIndices))).

(** The relevance verdict read off the reply of the first call. *)
Definition isRelevant (relevanceCheck : string) : bool :=
  includes "YES" (toUpperCase (trim relevanceCheck)).

(** The mode filter on the search results. *)
Definition relevantResultsOf (mode : Mode) (searchResults : list SearchResult.t)
  : list SearchResult.t :=
  if isCustomer mode
  then filter SearchResult.is_customer_safe searchResults
  else searchResults.

(** What follows the generation call: cleaning, the citations, the
    returned object. *)
Definition answerFrom (rawAnswer : string) (relevantResults : list SearchResult.t)
    (mode : Mode) (hasCustomerSafeSources : bool) : AnswerWithCitations.t :=
  let cleanedAnswer :=
    cleanInvalidCitations rawAnswer (List.length relevantResults) in
  let citations := buildCitations cleanedAnswer relevantResults in
  AnswerWithCitations.mk (trim cleanedAnswer) citations mode
    (if isCustomer mode then hasCustomerSafeSources else true).

Definition generateAnswerWithCitations (query : string)
    (searchResults : list SearchResult.t) (mode : Mode)
  : Async AnswerWithCitations.t :=
  if (List.length searchResults =? 0)%nat then
    Ret (earlyReturn emptyResultsMessage mode)
  else
    let relevantResults := relevantResultsOf mode searchResults in
    let hasCustomerSafeSources :=
      existsb SearchResult.is_customer_safe searchResults in
    if isCustomer mode && (List.length relevantResults =? 0)%nat then
      Ret (earlyReturn internalOnlyMessage mode)
    else
      relevanceCheck <- await (GenerateText (relevanceRequest query relevantResults)) ;;
      if negb (isRelevant relevanceCheck) then
        Ret (earlyReturn notRelevantMessage mode)
      else
        rawAnswer <- await (GenerateText (answerRequest query relevantResults mode)) ;;
        Ret (answerFrom rawAnswer relevantResults mode hasCustomerSafeSources).

End Answering.

(* ===================================================================== *)
(** ** [embeddings.ts]                                                    *)
(* ===================================================================== *)

Module Embeddings.
Import AsyncOps.

Definition generateEmbedding (text : string) : Async Embedding :=
  tryCatch
    (embedding <- await (Embed "text-embedding-3-small" text) ;;
     Ret embedding)
    (fun error =>
       ConsoleError "Error generating embedding:" error (Throw error)).

End Embeddings.

(* ===================================================================== *)
(** ** [search.ts] and [hybridSearch.ts]                                  *)
(* ===================================================================== *)

Module Retrieval.
Import Text Js AsyncOps Embeddings.

(** A field read by destructuring with a default: the default replaces
    [undefined] only. *)
Definition orDefault {A : Type} (d : A) (o : option A) : A :=
  match o with Some a => a | None => d end.

(** Truthiness of an optional string. *)
Definition truthy (o : option string) : bool :=
  match o with
  | Some (String _ _) => true
  | _ => false
  end.

(** [n || 0] on a number. *)
Definition orZero (n : Q) : Q := if Qeq_bool n 0 then 0 else n.

Definition customerSafeClause : string := " AND is_customer_safe = true".
Definition sourceOfTruthClause : string := " AND is_source_of_truth = true".

Definition channelClause (paramIndex : nat) : string :=
  " AND channel_id = $" ++ ofNat paramIndex.

Definition vectorSelect : string := "
    SELECT 
      id, content, source_type, source_id, channel_id, author, 
      timestamp, permalink, is_source_of_truth, is_customer_safe, metadata,
      1 - (embedding <=> $1::vector) as similarity
    FROM knowledge_chunks
    WHERE embedding IS NOT NULL
  ".

Definition vectorOrder (paramIndex : nat) : string := "
    ORDER BY embedding <=> $1::vector
    LIMIT $" ++ ofNat paramIndex ++ "
  ".

Definition keywordSelect : string := "
    SELECT 
      id, content, source_type, source_id, channel_id, author, 
      timestamp, permalink, is_source_of_truth, is_customer_safe, metadata,
      ts_rank(content_tsv, plainto_tsquery('english', $1)) as similarity
    FROM knowledge_chunks
    WHERE content_tsv @@ plainto_tsquery('english', $1)
  ".

Definition keywordOrder (paramIndex : nat) : string := "
    ORDER BY similarity DESC
    LIMIT $" ++ ofNat paramIndex ++ "
  ".

(** The filters appended to a query and the parameters pushed with
    them; [paramIndex] starts at 2. *)
Definition channelParams (channelId : option string) : list SqlParam :=
  match channelId with
  | Some c => if truthy channelId then [PText c] else []
  | None => []
  end.

Definition nextParamIndex (channelId : option string) : nat :=
  if truthy channelId then 3 else 2.

Definition vectorQuery (queryEmbedding : Embedding) (customerSafeOnly : bool)
    (channelId : option string) (limit : Z) : SqlQuery.t :=
  SqlQuery.mk
    (vectorSelect
       ++ (if customerSafeOnly then customerSafeClause else "")
       ++ (if truthy channelId then channelClause 2 else "")
       ++ vectorOrder (nextParamIndex channelId))
    ([PJsonVector queryEmbedding] ++ channelParams channelId
       ++ [PNumber (limit * 2)])%list.

Definition keywordQuery (query : string) (customerSafeOnly : bool)
    (channelId : option string) (limit : Z) : SqlQuery.t :=
  SqlQuery.mk
    (keywordSelect
       ++ (if customerSafeOnly then customerSafeClause else "")
       ++ (if truthy channelId then channelClause 2 else "")
       ++ keywordOrder (nextParamIndex channelId))
    ([PText query] ++ channelParams channelId ++ [PNumber (limit * 2)])%list.

(** The query of [searchKnowledge], with its extra filter. *)
Definition knowledgeQuery (queryEmbedding : Embedding)
    (customerSafeOnly sourceOfTruthOnly : bool)
    (channelId : option string) (limit : Z) : SqlQuery.t :=
  SqlQuery.mk
    (vectorSelect
       ++ (if customerSafeOnly then customerSafeClause else "")
       ++ (if sourceOfTruthOnly then sourceOfTruthClause else "")
       ++ (if truthy channelId then channelClause 2 else "")
       ++ vectorOrder (nextParamIndex channelId))
    ([PJsonVector queryEmbedding] ++ channelParams channelId
       ++ [PNumber (limit * 2)])%list.

(** The threshold filter and the final [slice(0, limit)]. *)
Definition aboveThreshold (minSimilarity : Q) (result : SearchResult.t) : bool :=
  let similarity := orZero (SearchResult.similarity result) in
  Qle_bool minSimilarity similarity.

Definition searchKnowledge (query : string) (options : SearchOptions.t)
  : Async (list SearchResult.t) :=
  let limit := orDefault 5%Z (SearchOptions.limit options) in
  let customerSafeOnly := orDefault false (SearchOptions.customerSafeOnly options) in
  let sourceOfTruthOnly := orDefault false (SearchOptions.sourceOfTruthOnly options) in
  let channelId := SearchOptions.channelId options in
  let minSimilarity := orDefault (3 # 10) (SearchOptions.minSimilarity options) in
  queryEmbedding <- generateEmbedding query ;;
  tryCatch
    (rows <- await (PoolQuery (knowledgeQuery queryEmbedding customerSafeOnly
                                 sourceOfTruthOnly channelId limit)) ;;
     let filtered := filter (aboveThreshold minSimilarity) rows in
     Ret (slice0 limit filtered))
    (fun error => Throw error).

(** *** Reciprocal rank fusion *)

Module Entry.
(** The values of [scoresMap]. *)
Record t : Type := mk { result : SearchResult.t; score : Q }.
End Entry.

(** [Map<number, Entry>]: keys in insertion order. *)
Definition ScoresMap : Type := list (Z * Entry.t).

Fixpoint mapGet (key : Z) (m : ScoresMap) : option Entry.t :=
  match m with
  | [] => None
  | (k', v) :: rest => if (key =? k')%Z then Some v else mapGet key rest
  end.

(** [m.set(key, v)]: a present key keeps its place. *)
Fixpoint mapSet (key : Z) (v : Entry.t) (m : ScoresMap) : ScoresMap :=
  match m with
  | [] => [(key, v)]
  | (k', v') :: rest =>
      if (key =? k')%Z then (k', v) :: rest else (k', v') :: mapSet key v rest
  end.

Definition mapValues (m : ScoresMap) : list Entry.t := map snd m.

(** [xs.forEach((x, index) => ...)] over a state. *)
Fixpoint forEachFrom {A S : Type} (index : nat) (f : S -> A -> nat -> S)
    (xs : list A) (s : S) : S :=
  match xs with
  | [] => s
  | x :: rest => forEachFrom (Datatypes.S index) f rest (f s x index)
  end.

Definition forEach {A S : Type} (f : S -> A -> nat -> S) (xs : list A) (s : S) : S :=
  forEachFrom 0 f xs s.

Section Fusion.
Variable k : Q.

(** [1 / (k + index + 1)]. *)
Definition rrfScore (index : nat) : Q :=
  1 / (k + inject_Z (Z.of_nat index) + 1).

Definition addVector (scoresMap : ScoresMap) (result : SearchResult.t)
    (index : nat) : ScoresMap :=
  let rrf := rrfScore index in
  mapSet (SearchResult.id result)
    (Entry.mk (SearchResult.withSimilarity result rrf) rrf) scoresMap.

(** The entry found under the id is updated in place. *)
Definition addKeyword (scoresMap : ScoresMap) (result : SearchResult.t)
    (index : nat) : ScoresMap :=
  let rrf := rrfScore index in
  match mapGet (SearchResult.id result) scoresMap with
  | Some existing =>
      let combinedScore := Entry.score existing + rrf in
      mapSet (SearchResult.id result)
        (Entry.mk (SearchResult.withSimilarity (Entry.result existing) combinedScore)
                  combinedScore)
        scoresMap
  | None =>
      mapSet (SearchResult.id result)
        (Entry.mk (SearchResult.withSimilarity result rrf) rrf) scoresMap
  end.

(** [scoresMap] after both [forEach] loops. *)
Definition fuse (vectorResults keywordResults : list SearchResult.t) : ScoresMap :=
  forEach addKeyword keywordResults (forEach addVector vectorResults []).

(** The comparator [(a, b) => b.score - a.score]. *)
Definition byScoreDesc (a b : Entry.t) : Q := Entry.score b - Entry.score a.

(** [sorted]: the entries with their accumulated scores, before
    normalization. *)
Definition fusedSorted (vectorResults keywordResults : list SearchResult.t)
  : list Entry.t :=
  sort byScoreDesc (mapValues (fuse vectorResults keywordResults)).

(** [sorted[0]?.score || 1]. *)
Definition maxScoreOf (sorted : list Entry.t) : Q :=
  match sorted with
  | [] => 1
  | first :: _ => if Qeq_bool (Entry.score first) 0 then 1 else Entry.score first
  end.

Definition normalize (maxScore : Q) (item : Entry.t) : SearchResult.t :=
  SearchResult.withSimilarity (Entry.result item)
    (SearchResult.similarity (Entry.result item) / maxScore).

Definition reciprocalRankFusion (vectorResults keywordResults : list SearchResult.t)
  : list SearchResult.t :=
  let sorted := fusedSorted vectorResults keywordResults in
  let maxScore := maxScoreOf sorted in
  map (normalize maxScore) sorted.
End Fusion.

(** The ids of a ranked list, the keys of the map, the id of an entry. *)
Definition ids (results : list SearchResult.t) : list Z :=
  map SearchResult.id results.

Definition mapKeys (m : ScoresMap) : list Z := map fst m.

Definition entryId (e : Entry.t) : Z := SearchResult.id (Entry.result e).

Definition hasKey (key : Z) (keys : list Z) : bool := existsb (Z.eqb key) keys.



(** Every entry sits under the id of its result. *)
Definition keyedById (m : ScoresMap) : Prop :=
  Forall (fun p => entryId (snd p) = fst p) m.

(** Every entry has a positive score, which its result carries as
    [similarity]. *)
Definition wellScored (e : Entry.t) : Prop :=
  0 < Entry.score e /\ SearchResult.similarity (Entry.result e) = Entry.score e.





(** A loop body that only ever [set]s the id of the result at hand. *)
Definition setsOwnId (f : ScoresMap -> SearchResult.t -> nat -> ScoresMap) : Prop :=
  forall m r i, exists v, f m r i = mapSet (SearchResult.id r) v m.

(** The keys of a map after [set(key, _)]. *)
Definition addKey (keys : list Z) (key : Z) : list Z :=
  if hasKey key keys then keys else (keys ++ [key])%list.

(** The default [k = 60]. *)
Definition defaultK : Q := 60.

Definition hybridSearch (query : string) (options : SearchOptions.t)
  : Async (list SearchResult.t) :=
  let limit := orDefault 10%Z (SearchOptions.limit options) in
  let customerSafeOnly := orDefault false (SearchOptions.customerSafeOnly options) in
  let channelId := SearchOptions.channelId options in
  let minSimilarity := orDefault (3 # 10) (SearchOptions.minSimilarity options) in
  queryEmbedding <- generateEmbedding query ;;
  tryCatch
    (rows <- await (PoolQueryAll
                      (vectorQuery queryEmbedding customerSafeOnly channelId limit)
                      (keywordQuery query customerSafeOnly channelId limit)) ;;
     let merged := reciprocalRankFusion defaultK (fst rows) (snd rows) in
     let filtered := filter (aboveThreshold minSimilarity) merged in
     Ret (slice0 limit filtered))
    (fun error => Throw error).

(** *** The store, as far as the customer-safe filter goes *)

(** [needle] occurs in [s]. *)
Definition Contains (needle s : string) : Prop :=
  exists pre post, s = pre ++ needle ++ post.

Definition allCustomerSafe (rows : list SearchResult.t) : Prop :=
  Forall (fun r => SearchResult.is_customer_safe r = true) rows.

(** A store query that a call issues carries the customer-safe clause. *)
Definition carriesCustomerSafeClause (c : Call) : Prop :=
  match c with
  | Called ev =>
      match ev with
      | PoolQuery q => Contains customerSafeClause (SqlQuery.sql q)
      | PoolQueryAll qv qk =>
          Contains customerSafeClause (SqlQuery.sql qv) /\
          Contains customerSafeClause (SqlQuery.sql qk)
      | _ => True
      end
  | Logged _ _ => True
  end.

(** The store evaluates the clause: a query that carries
    [AND is_customer_safe = true] is answered with customer-safe rows
    only. *)
Definition honoursCustomerSafe (h : Handler) : Prop :=
  (forall q rows,
      h _ (PoolQuery q) = Fulfilled rows ->
      Contains customerSafeClause (SqlQuery.sql q) -> allCustomerSafe rows) /\
  (forall qv qk rows,
      h _ (PoolQueryAll qv qk) = Fulfilled rows ->
      (Contains customerSafeClause (SqlQuery.sql qv) -> allCustomerSafe (fst rows)) /\
      (Contains customerSafeClause (SqlQuery.sql qk) -> allCustomerSafe (snd rows))).

(** *** Placeholders and parameters *)

(** The text of a query ends with the [LIMIT] placeholder that [order]
    writes for the number of its parameters, its last parameter is twice
    the limit, and a non-empty channel id is the second parameter, named
    by the clause [AND channel_id = $2]. *)
Definition wellNumbered (order : nat -> string) (channelId : option string)
    (limit : Z) (q : SqlQuery.t) : Prop :=
  let n := List.length (SqlQuery.params q) in
  (exists head, SqlQuery.sql q = head ++ order n) /\
  nth_error (SqlQuery.params q) (n - 1) = Some (PNumber (limit * 2)) /\
  match channelId with
  | Some (String c rest) =>
      n = 3%nat /\
      nth_error (SqlQuery.params q) 1 = Some (PText (String c rest)) /\
      Contains (channelClause 2) (SqlQuery.sql q)
  | _ => n = 2%nat
  end.

End Retrieval.

(* ===================================================================== *)
(** ** [knowledge-routes.ts]: POST /ask                                   *)
(* ===================================================================== *)

Module Routes.
Import AsyncOps Retrieval Answering.

Module AskQuestionBody.
(** [req.body]; [mode] is whatever string the client sent. *)
Record t : Type := mk {
  question : option string;
  mode : option string;
  limit : option Z;
  useHybrid : option bool;
  minSimilarity : option Q
}.
End AskQuestionBody.

Module CitationJson.
Record t : Type := mk {
  index : nat;
  source_id : string;
  content : string;
  author : option string;
  timestamp : option Date;
  permalink : option string;
  is_customer_safe : bool
}.
End CitationJson.

Inductive Json : Type :=
| ErrorJson (error : string)
| AskJson (question answer : string) (mode : Mode) (searchMethod : string)
          (canCiteForCustomer : bool) (citations : list CitationJson.t).

Record Response : Type := mkResponse { status : nat; body : Json }.

(** The two accepted values of [mode]. *)
Definition parseMode (mode : string) : option Mode :=
  if String.eqb mode "internal" then Some internal
  else if String.eqb mode "customer" then Some customer
  else None.

(** The options object of the search call of the route. *)
Definition askOptions (mode : Mode) (limit : Z) (minSimilarity : Q) : SearchOptions.t :=
  SearchOptions.mk (Some limit) (Some (isCustomer mode)) None None (Some minSimilarity).

(** [searchFn(question, { limit, customerSafeOnly, minSimilarity })]. *)
Definition askSearch (useHybrid : bool) (question : string) (mode : Mode)
    (limit : Z) (minSimilarity : Q) : Async (list SearchResult.t) :=
  let searchFn := if useHybrid then hybridSearch else searchKnowledge in
  searchFn question (askOptions mode limit minSimilarity).

Definition citationJson (cite : Citation.t) (i : nat) : CitationJson.t :=
  CitationJson.mk (i + 1) (Citation.source_id cite) (Citation.content cite)
    (Citation.author cite) (Citation.timestamp cite) (Citation.permalink cite)
    (Citation.is_customer_safe cite).

Definition askJson (question : string) (useHybrid : bool)
    (answer : AnswerWithCitations.t) : Json :=
  AskJson question (AnswerWithCitations.answer answer)
    (AnswerWithCitations.mode answer)
    (if useHybrid then "hybrid" else "vector")
    (AnswerWithCitations.canCiteForCustomer answer)
    (Js.mapi citationJson (AnswerWithCitations.citations answer)).

Definition ask (body : AskQuestionBody.t) : Async Response :=
  tryCatch
    (let question := AskQuestionBody.question body in
     let mode := orDefault "internal" (AskQuestionBody.mode body) in
     let limit := orDefault 5%Z (AskQuestionBody.limit body) in
     let useHybrid := orDefault true (AskQuestionBody.useHybrid body) in
     let minSimilarity := orDefault (2 # 10) (AskQuestionBody.minSimilarity body) in
     match question with
     | Some (String c q) =>
         let question := String c q in
         match parseMode mode with
         | None =>
             Ret (mkResponse 400 (ErrorJson ("Mode must be " ++ dq ++ "internal" ++ dq
                                               ++ " or " ++ dq ++ "customer" ++ dq)))
         | Some mode =>
             results <- askSearch useHybrid question mode limit minSimilarity ;;
             answer <- generateAnswerWithCitations question results mode ;;
             Ret (mkResponse 200 (askJson question useHybrid answer))
         end
     | _ => Ret (mkResponse 400 (ErrorJson "Question is required"))
     end)
    (fun error => Ret (mkResponse 500 (ErrorJson "Failed to process question"))).

End Routes.

(* ===================================================================== *)
(** ** The citation order as the specification words it                   *)
(* ===================================================================== *)

Module AsDescribed.
Import Text Js Answering.

(** The in-range citation numbers of a text, in the order in which the
    text uses them. *)
Definition inRangeNumbers (text : string) (n : nat) : list nat :=
  flat_map
    (fun group =>
       let number := parseInt group in
       if (1 <=? number)%N && (number <=? N.of_nat n)%N
       then [N.to_nat number] else [])
    (citationMatches text).

(** Every value once, at the place of its first use. *)
Fixpoint firstUses (numbers : list nat) : list nat :=
  match numbers with
  | [] => []
  | x :: rest => x :: filter (fun y => negb (y =? x)%nat) (firstUses rest)
  end.

(** "Extract the set of distinct, in-range citation numbers actually
    present in the cleaned text; map each back to its Evidence Set entry
    (1-based to 0-based); build the Citation list sorted by first-use
    order." *)
Definition citationsByFirstUse (text : string) (evidence : list SearchResult.t)
  : list Citation.t :=
  map toCitation
    (definedOnly
       (map (fun number => nth_error evidence (number - 1))
            (firstUses (inRangeNumbers text (List.length evidence))))).

End AsDescribed.

(* ===================================================================== *)
(** ** Citation tokens                                                    *)
(* ===================================================================== *)

Module Tokens.
Import Text.

(** A string of decimal digits. *)
Fixpoint allDigits (s : string) : bool :=
  match s with
  | EmptyString => true
  | String c t => isDigit c && allDigits t
  end.

(** How a piece of a scan is written back. *)
Definition render (f : string -> string) (p : Piece) : string :=
  match p with
  | Lit c => String c EmptyString
  | Cite ds => f ds
  end.

(** The citation token with the number [n], as the prompt writes it. *)
Definition tokenOf (n : nat) : string := "[" ++ ofNat n ++ "]".

End Tokens.

(* ===================================================================== *)
(** ** [chunker.ts]                                                       *)
(* ===================================================================== *)

Module SlackMessage.
Record t : Type := mk {
  text : string;
  user : string;
  ts : string;
  thread_ts : option string;
  reply_count : option Z;
  permalink : option string
}.
End SlackMessage.

Module MessageChunk.
Record t : Type := mk {
  content : string;
  messages : list SlackMessage.t;
  isThread : bool;
  threadTs : option string
}.
End MessageChunk.

Module Chunker.
Import Text Retrieval.

(** [Map<string, SlackMessage[]>]: keys in insertion order. *)
Definition ThreadsMap : Type := list (string * list SlackMessage.t).

Definition threadsHas (key : string) (m : ThreadsMap) : bool :=
  existsb (fun p => String.eqb key (fst p)) m.

(** [threadsMap.get(key)!.push(msg)]: the array under the key grows in
    place. *)
Fixpoint threadsPush (key : string) (msg : SlackMessage.t) (m : ThreadsMap)
  : ThreadsMap :=
  match m with
  | [] => []
  | (k', arr) :: rest =>
      if String.eqb key k' then (k', (arr ++ [msg])%list) :: rest
      else (k', arr) :: threadsPush key msg rest
  end.

(** The state of the grouping loop: [threadsMap] and
    [standaloneMessages]. *)
Definition Groups : Type := (ThreadsMap * list SlackMessage.t)%type.

(** One turn of [for (const msg of messages)]. *)
Definition groupStep (g : Groups) (msg : SlackMessage.t) : Groups :=
  let (threadsMap, standaloneMessages) := g in
  match SlackMessage.thread_ts msg with
  | Some thread_ts =>
      if truthy (Some thread_ts) then
        let threadsMap' :=
          if negb (threadsHas thread_ts threadsMap)
          then (threadsMap ++ [(thread_ts, [])])%list
          else threadsMap in
        (threadsPush thread_ts msg threadsMap', standaloneMessages)
      else (threadsMap, (standaloneMessages ++ [msg])%list)
  | None => (threadsMap, (standaloneMessages ++ [msg])%list)
  end.

Definition groupMessages (messages : list SlackMessage.t) : Groups :=
  fold_left groupStep messages ([], []).

Definition threadSeparator : string := Answering.nl ++ "---" ++ Answering.nl.

Definition threadChunk (entry : string * list SlackMessage.t) : MessageChunk.t :=
  let (threadTs, threadMessages) := entry in
  MessageChunk.mk (join threadSeparator (map SlackMessage.text threadMessages))
    threadMessages true (Some threadTs).

Definition standaloneChunk (msg : SlackMessage.t) : MessageChunk.t :=
  MessageChunk.mk (SlackMessage.text msg) [msg] false None.

Definition chunkMessages (messages : list SlackMessage.t) : list MessageChunk.t :=
  let (threadsMap, standaloneMessages) := groupMessages messages in
  (map threadChunk threadsMap ++ map standaloneChunk standaloneMessages)%list.

(** The line written to [console.log] before returning. *)
Definition chunkLogLine (messages : list SlackMessage.t) : string :=
  let (threadsMap, standaloneMessages) := groupMessages messages in
  "Created " ++ ofNat (List.length (chunkMessages messages)) ++ " chunks ("
    ++ ofNat (List.length threadsMap) ++ " threads, "
    ++ ofNat (List.length standaloneMessages) ++ " standalone)".

(** A message carries the thread key [key]: a reply of that thread, or
    its first message when that one carries its own [ts] as [thread_ts]. *)
Definition isReplyOf (key : string) (msg : SlackMessage.t) : bool :=
  match SlackMessage.thread_ts msg with
  | Some thread_ts => truthy (Some thread_ts) && String.eqb thread_ts key
  | None => false
  end.

(** A message carries a thread key. *)
Definition isReply (msg : SlackMessage.t) : bool :=
  truthy (SlackMessage.thread_ts msg).

(** The thread keys of the messages, each at its first use. *)
Fixpoint threadKeys (messages : list SlackMessage.t) : list string :=
  match messages with
  | [] => []
  | msg :: rest =>
      match SlackMessage.thread_ts msg with
      | Some thread_ts =>
          if truthy (Some thread_ts)
          then thread_ts :: filter (fun k => negb (String.eqb k thread_ts))
                              (threadKeys rest)
          else threadKeys rest
      | None => threadKeys rest
      end
  end.

(** The messages that the grouping holds. *)
Definition groupedMessages (g : Groups) : list SlackMessage.t :=
  (flat_map snd (fst g) ++ snd g)%list.

(** The thread key of a message, if it has a non-empty [thread_ts]. *)
Definition replyKey (msg : SlackMessage.t) : option string :=
  match SlackMessage.thread_ts msg with
  | Some thread_ts => if truthy (Some thread_ts) then Some thread_ts else None
  | None => None
  end.

Definition hasString (key : string) (keys : list string) : bool :=
  existsb (String.eqb key) keys.

(** The grouping, said at once: the messages of each thread key in the
    order of the input, the thread keys in the order of their first use,
    and the other messages in the order of the input. *)
Definition groupsOf (messages : list SlackMessage.t) : Groups :=
  (map (fun key => (key, filter (isReplyOf key) messages)) (threadKeys messages),
   filter (fun msg => negb (isReply msg)) messages).

End Chunker.

(* ===================================================================== *)
(** ** [classifier.ts] and [customerSafeDetector.ts]                      *)
(* ===================================================================== *)

Module ClassificationResult.
Record t : Type := mk {
  shouldIndex : bool;
  reason : string;
  isSourceOfTruth : bool
}.
End ClassificationResult.

Module Classifier.
Import Text AsyncOps Answering.

(** [s.split('\n')]. *)
Fixpoint splitLines (s : string) : list string :=
  match s with
  | EmptyString => [EmptyString]
  | String c t =>
      if Ascii.eqb c "010" then EmptyString :: splitLines t
      else match splitLines t with
           | line :: lines => String c line :: lines
           | [] => [String c EmptyString]
           end
  end.

(** [s.replace(needle, '')] for a string [needle]: the first occurrence
    goes. *)
Fixpoint removeFirst (needle s : string) : string :=
  if prefix needle s then substring (String.length needle)
                            (String.length s - String.length needle) s
  else match s with
       | EmptyString => EmptyString
       | String c t => String c (removeFirst needle t)
       end.

(** [/pattern/i.test(s)] for a pattern of plain ASCII text.  Without
    the unicode flag a character outside ASCII is never taken for an ASCII
    one when case is ignored, so only the letters a-z and A-Z are
    folded. *)
Definition testIgnoreCase (pattern s : string) : bool :=
  includes (toUpperCase pattern) (toUpperCase s).

Definition systemPatterns : list string :=
  ["has joined the channel"; "has left the channel"; "set the channel";
   "uploaded a file"].

(** [!content || content.trim().length < 10]. *)
Definition tooShort (content : string) : bool :=
  String.eqb content "" || (utf16Length (trim content) <? 10)%nat.

Definition isSystemMessage (content : string) : bool :=
  existsb (fun p => testIgnoreCase p content) systemPatterns.

Definition classifyPrompt (content : string) : string :=
  "Analyze this Slack message and classify it for a knowledge base.

Message: " ++ dq ++ content ++ dq ++ "

Determine:
1. Should this be indexed? (YES/NO)
   - Index if: questions, answers, solutions, decisions, procedures, bug reports, documentation
   - Skip if: greetings (" ++ dq ++ "thanks" ++ dq ++ ", " ++ dq ++ "lol" ++ dq ++ ", " ++ dq ++ "ok" ++ dq ++ "), casual chat, very short messages

2. Is this a " ++ dq ++ "source of truth" ++ dq ++ "? (YES/NO)
   - Source of truth = final decisions, official answers, confirmed solutions
   - Examples: " ++ dq ++ "We decided to..." ++ dq ++ ", " ++ dq ++ "The solution is..." ++ dq ++ ", " ++ dq ++ "Official policy is..." ++ dq ++ "
   - NOT source of truth = questions, brainstorming, opinions, discussions

Reply in this exact format:
SHOULD_INDEX: YES/NO
SOURCE_OF_TRUTH: YES/NO
REASON: brief explanation

Your classification:".

Definition classifyRequest (content : string) : GenRequest.t :=
  GenRequest.mk "gpt-4o-mini" None (classifyPrompt content) None.

(** [line?.includes('YES') || false]. *)
Definition saysYes (line : option string) : bool :=
  match line with
  | Some l => includes "YES" l
  | None => false
  end.

(** [reasonLine?.replace('REASON:', '').trim() || 'AI classification']. *)
Definition reasonOf (reasonLine : option string) : string :=
  match reasonLine with
  | Some l =>
      match trim (removeFirst "REASON:" l) with
      | EmptyString => "AI classification"
      | r => r
      end
  | None => "AI classification"
  end.

(** The reading of the reply of the generation service. *)
Definition parseClassification (text : string) : ClassificationResult.t :=
  let lines := splitLines text in
  let shouldIndexLine := find (prefix "SHOULD_INDEX:") lines in
  let sourceOfTruthLine := find (prefix "SOURCE_OF_TRUTH:") lines in
  let reasonLine := find (prefix "REASON:") lines in
  ClassificationResult.mk (saysYes shouldIndexLine) (reasonOf reasonLine)
    (saysYes sourceOfTruthLine).

(** The result of the [catch] branch: [content.length >= 20]. *)
Definition fallbackClassification (content : string) : ClassificationResult.t :=
  ClassificationResult.mk (20 <=? utf16Length content)%nat
    "Fallback classification (AI error)" false.

Definition classifyMessage (content : string) : Async ClassificationResult.t :=
  if tooShort content then
    Ret (ClassificationResult.mk false "Message too short" false)
  else if isSystemMessage content then
    Ret (ClassificationResult.mk false "System message" false)
  else
    tryCatch
      (text <- await (GenerateText (classifyRequest content)) ;;
       Ret (parseClassification text))
      (fun error =>
         ConsoleError "Error classifying message, using fallback:" error
           (Ret (fallbackClassification content))).

(** The two answers the prompt asks for. *)
Definition yesNo (b : bool) : string := if b then "YES" else "NO".

Fixpoint hasNewline (s : string) : bool :=
  match s with
  | EmptyString => false
  | String c t => Ascii.eqb c "010" || hasNewline t
  end.

(** A reply in the format the prompt asks for. *)
Definition formattedReply (index truth : bool) (reasonText : string) : string :=
  ("SHOULD_INDEX: " ++ yesNo index) ++ nl
    ++ ("SOURCE_OF_TRUTH: " ++ yesNo truth) ++ nl
    ++ ("REASON: " ++ reasonText).

End Classifier.

Module CustomerSafeDetector.
Import Text AsyncOps Answering.

Definition safetyPrompt (content : string) : string :=
  "Analyze this message and determine if it's safe to show to customers (external users) or if it's internal-only discussion.

Message: " ++ dq ++ content ++ dq ++ "

Reply with ONLY " ++ dq ++ "CUSTOMER_SAFE" ++ dq ++ " or " ++ dq ++ "INTERNAL_ONLY" ++ dq ++ "

CUSTOMER_SAFE = Official documentation, public information, help articles, support contact info
INTERNAL_ONLY = Team discussions, internal decisions, debugging notes, planning, casual chat

Your answer:".

Definition safetyRequest (content : string) : GenRequest.t :=
  GenRequest.mk "gpt-4o-mini" None (safetyPrompt content) None.

(** [text.trim().toUpperCase() === 'CUSTOMER_SAFE']. *)
Definition saysCustomerSafe (text : string) : bool :=
  String.eqb (toUpperCase (trim text)) "CUSTOMER_SAFE".

Definition isCustomerSafe (content : string) : Async bool :=
  tryCatch
    (text <- await (GenerateText (safetyRequest content)) ;;
     Ret (saysCustomerSafe text))
    (fun error =>
       ConsoleError "Error detecting customer-safe, defaulting to internal:" error
         (Ret false)).

End CustomerSafeDetector.

(* ===================================================================== *)
(** ** [knowledge-routes.ts]: POST /search                                *)
(* ===================================================================== *)

Module SearchRoute.
Import AsyncOps Retrieval.

Module SearchQueryBody.
(** [req.body]. *)
Record t : Type := mk {
  query : option string;
  limit : option Z;
  customerSafeOnly : option bool;
  channelId : option string;
  useHybrid : option bool;
  minSimilarity : option Q
}.
End SearchQueryBody.

Module ResultJson.
Record t : Type := mk {
  id : Z;
  source_id : string;
  content : string;
  similarity : Q;
  author : option string;
  timestamp : option Date;
  permalink : option string;
  is_customer_safe : bool;
  is_source_of_truth : bool
}.
End ResultJson.

Inductive Json : Type :=
| ErrorJson (error : string)
| SearchJson (query searchMethod : string) (resultsCount : nat)
             (minSimilarity : Q) (results : list ResultJson.t).

Record Response : Type := mkResponse { status : nat; body : Json }.

Definition resultJson (r : SearchResult.t) : ResultJson.t :=
  ResultJson.mk (SearchResult.id r) (SearchResult.source_id r)
    (SearchResult.content r) (SearchResult.similarity r) (SearchResult.author r)
    (SearchResult.timestamp r) (SearchResult.permalink r)
    (SearchResult.is_customer_safe r) (SearchResult.is_source_of_truth r).

(** The options object of the search call: [{ limit, customerSafeOnly,
    minSimilarity }]. *)
Definition searchOptions (limit : Z) (customerSafeOnly : bool) (minSimilarity : Q)
  : SearchOptions.t :=
  SearchOptions.mk (Some limit) (Some customerSafeOnly) None None (Some minSimilarity).

Definition search (body : SearchQueryBody.t) : Async Response :=
  tryCatch
    (let limit := orDefault 10%Z (SearchQueryBody.limit body) in
     let customerSafeOnly := orDefault false (SearchQueryBody.customerSafeOnly body) in
     let useHybrid := orDefault true (SearchQueryBody.useHybrid body) in
     let minSimilarity := orDefault (2 # 10) (SearchQueryBody.minSimilarity body) in
     match SearchQueryBody.query body with
     | Some (String c q) =>
         let query := String c q in
         let searchFn := if useHybrid then hybridSearch else searchKnowledge in
         results <- searchFn query (searchOptions limit customerSafeOnly minSimilarity) ;;
         Ret (mkResponse 200
                (SearchJson query (if useHybrid then "hybrid" else "vector")
                   (List.length results) minSimilarity (map resultJson results)))
     | _ => Ret (mkResponse 400 (ErrorJson "Query is required"))
     end)
    (fun error => Ret (mkResponse 500 (ErrorJson "Failed to search"))).

(** A store query issued by a call has no channel parameter: its
    parameters are the embedding or the query text, and the limit. *)
Definition unscoped (c : Call) : Prop :=
  match c with
  | Called ev =>
      match ev with
      | PoolQuery q => List.length (SqlQuery.params q) = 2%nat
      | PoolQueryAll qv qk =>
          List.length (SqlQuery.params qv) = 2%nat /\
          List.length (SqlQuery.params qk) = 2%nat
      | _ => True
      end
  | Logged _ _ => True
  end.

End SearchRoute.

(* ===================================================================== *)
(** ** Service outages                                                    *)
(* ===================================================================== *)

Module Outage.

(** Every call to the outside is rejected with [e]. *)
Definition allDown (e : Error) : Handler :=
  fun X ev =>
    match ev in Event X return Settled X with
    | GenerateText _ => Rejected e
    | Embed _ _ => Rejected e
    | PoolQuery _ => Rejected e
    | PoolQueryAll _ _ => Rejected e
    end.

(** The embedding service works, the store rejects every query with
    [e]. *)
Definition storeDown (e : Error) : Handler :=
  fun X ev =>
    match ev in Event X return Settled X with
    | GenerateText _ => Fulfilled "YES"
    | Embed _ _ => Fulfilled [1 # 2; 1 # 3]
    | PoolQuery _ => Rejected e
    | PoolQueryAll _ _ => Rejected e
    end.

End Outage.

Module ChunkerFixtures.

(** [createMockMessage(text, ts, threadTs)] of [tests/chunker.test.ts]. *)
Definition createMockMessage (text ts : string) (threadTs : option string)
  : SlackMessage.t :=
  SlackMessage.mk text "U123" ts threadTs None (Some ("https://slack.com/" ++ ts)).

End ChunkerFixtures.

(* ===================================================================== *)
(** ** Fixtures ([tests/citation-policy.test.ts])                         *)
(* ===================================================================== *)

Module Fixtures.
Import Text.

(** U+00A0 (no-break space) and U+FEFF (byte order mark), encoded. *)
Definition nbsp : string := String "194" (String "160" EmptyString).
Definition bom : string := String "239" (String "187" (String "191" EmptyString)).

(** Nine characters in twelve bytes: U+00DC "ber " U+00D6 "l " U+00E4. *)
Definition nineLetters : string :=
  String "195" (String "156" "ber ")
    ++ String "195" (String "150" "l ")
    ++ String "195" (String "164" EmptyString).

(** [createMockResult(id, content, isCustomerSafe)]. *)
Definition createMockResult (id : Z) (content : string) (isCustomerSafe : bool)
  : SearchResult.t :=
  SearchResult.mk id content "slack" ("msg_" ++ ofNat (Z.to_nat id)) (Some "C123")
    (Some "Test User") (Some 0%Z)
    (Some ("https://slack.com/msg_" ++ ofNat (Z.to_nat id)))
    false isCustomerSafe None (9 # 10).

(** A generation service that answers the relevance question with
    [verdict] and the answer request with [rawAnswer]; an embedding
    service that fails with [embedError] if given, and a store that
    returns the given rows for either kind of query. *)
Definition scripted (verdict rawAnswer : string) (embedError : option Error)
    (vectorRows keywordRows : list SearchResult.t) : Handler :=
  fun X ev =>
    match ev in Event X return Settled X with
    | GenerateText req =>
        match GenRequest.system req with
        | None => Fulfilled verdict
        | Some _ => Fulfilled rawAnswer
        end
    | Embed _ _ =>
        match embedError with
        | Some e => Rejected e
        | None => Fulfilled [1 # 2; 1 # 3]
        end
    | PoolQuery _ => Fulfilled vectorRows
    | PoolQueryAll _ _ => Fulfilled (vectorRows, keywordRows)
    end.

(** Only the generation service matters. *)
Definition generation (verdict rawAnswer : string) : Handler :=
  scripted verdict rawAnswer None [] [].

(** What a store that holds [rows] answers to a query: the customer-safe
    rows when the query carries the customer-safe clause, all rows
    otherwise. *)
Definition selectRows (sql : string) (rows : list SearchResult.t)
  : list SearchResult.t :=
  if includes Retrieval.customerSafeClause sql
  then filter SearchResult.is_customer_safe rows
  else rows.

(** As [scripted], over a store that evaluates the customer-safe
    clause. *)
Definition filtering (verdict rawAnswer : string)
    (vectorRows keywordRows : list SearchResult.t) : Handler :=
  fun X ev =>
    match ev in Event X return Settled X with
    | GenerateText req =>
        match GenRequest.system req with
        | None => Fulfilled verdict
        | Some _ => Fulfilled rawAnswer
        end
    | Embed _ _ => Fulfilled [1 # 2; 1 # 3]
    | PoolQuery q => Fulfilled (selectRows (SqlQuery.sql q) vectorRows)
    | PoolQueryAll qv qk =>
        Fulfilled (selectRows (SqlQuery.sql qv) vectorRows,
                   selectRows (SqlQuery.sql qk) keywordRows)
    end.

Definition internalNotes : SearchResult.t :=
  createMockResult 1 "Internal only discussion" false.
Definition planningNotes : SearchResult.t :=
  createMockResult 2 "Team planning notes" false.
Definition supportArticle : SearchResult.t :=
  createMockResult 2 "Official support article" true.
Definition customerDocs : SearchResult.t :=
  createMockResult 3 "Customer-facing documentation" true.
End Fixtures.

(* ===================================================================== *)
(** ** Running awaited code                                               *)
(* ===================================================================== *)

Section RunLemmas.
Import AsyncOps.
Variable h : Handler.

Lemma run_bind (A B : Type) (p : Async A) (f : A -> Async B) :
  run h (bind p f) =
  match run h p with
  | (cs, Returned a) => let (cs', out) := run h (f a) in ((cs ++ cs')%list, out)
  | (cs, Threw e) => (cs, Threw e)
  end.
Proof.
  induction p as [a|e|X ev k IH|msg e k IH]; simpl.
  - destruct (run h (f a)); reflexivity.
  - reflexivity.
  - rewrite IH. destruct (run h (k (@h X ev))) as [cs [a|e]].
    + destruct (run h (f a)); reflexivity.
    + reflexivity.
  - rewrite IH. destruct (run h k) as [cs [a|e']].
    + destruct (run h (f a)); reflexivity.
    + reflexivity.
Qed.

Lemma run_tryCatch (A : Type) (p : Async A) (g : Error -> Async A) :
  run h (tryCatch p g) =
  match run h p with
  | (cs, Returned a) => (cs, Returned a)
  | (cs, Threw e) => let (cs', out) := run h (g e) in ((cs ++ cs')%list, out)
  end.
Proof.
  induction p as [a|e|X ev k IH|msg e k IH]; simpl.
  - reflexivity.
  - destruct (run h (g e)); reflexivity.
  - rewrite IH. destruct (run h (k (@h X ev))) as [cs [a|e]].
    + reflexivity.
    + destruct (run h (g e)); reflexivity.
  - rewrite IH. destruct (run h k) as [cs [a|e']].
    + reflexivity.
    + destruct (run h (g e')); reflexivity.
Qed.

Lemma run_await (X : Type) (ev : Event X) :
  run h (await ev) =
  ([Called ev], match @h X ev with
                | Fulfilled x => Returned x
                | Rejected e => Threw e
                end).
Proof. unfold await; simpl. destruct (@h X ev); reflexivity. Qed.

(** A [catch (error) { throw error }] changes nothing. *)
Lemma run_rethrow (A : Type) (p : Async A) :
  run h (tryCatch p (fun error => Throw error)) = run h p.
Proof.
  rewrite run_tryCatch. destruct (run h p) as [cs [a|e]]; simpl.
  - reflexivity.
  - rewrite app_nil_r. reflexivity.
Qed.
End RunLemmas.

(* ===================================================================== *)
(** ** Sorting                                                            *)
(* ===================================================================== *)

Section SortFacts.
Import Js.
Variable A : Type.
Variable cmp : A -> A -> Q.

Lemma sortInsert_perm (x : A) (l : list A) :
  Permutation (sortInsert cmp x l) (x :: l).
Proof.
  induction l as [|y rest IH]; simpl.
  - apply Permutation_refl.
  - destruct (Qle_bool (cmp x y) 0).
    + apply Permutation_refl.
    + eapply Permutation_trans; [apply perm_skip, IH | apply perm_swap].
Qed.

Lemma sort_perm (l : list A) : Permutation (sort cmp l) l.
Proof.
  induction l as [|x rest IH]; simpl.
  - constructor.
  - eapply Permutation_trans; [apply sortInsert_perm | apply perm_skip, IH].
Qed.

Hypothesis cmp_total : forall a b, before cmp a b \/ before cmp b a.
Hypothesis cmp_trans :
  forall a b c, before cmp a b -> before cmp b c -> before cmp a c.

Lemma sortInsert_sorted (x : A) (l : list A) :
  StronglySorted (before cmp) l -> StronglySorted (before cmp) (sortInsert cmp x l).
Proof.
  induction 1 as [|y rest Hsorted IH Hall]; simpl.
  - repeat constructor.
  - destruct (Qle_bool (cmp x y) 0) eqn:Hxy.
    + apply Qle_bool_iff in Hxy.
      constructor; [constructor; assumption|].
      constructor; [exact Hxy|].
      eapply Forall_impl; [|exact Hall].
      intros z Hyz. exact (cmp_trans Hxy Hyz).
    + assert (Hyx : before cmp y x).
      { destruct (cmp_total x y) as [Hc|Hc]; [|exact Hc].
        apply Qle_bool_iff in Hc. congruence. }
      constructor; [exact IH|].
      apply (Permutation_Forall (Permutation_sym (sortInsert_perm x rest))).
      constructor; assumption.
Qed.

Lemma sort_sorted (l : list A) : StronglySorted (before cmp) (sort cmp l).
Proof.
  induction l as [|x rest IH]; simpl.
  - constructor.
  - apply sortInsert_sorted, IH.
Qed.
End SortFacts.

Section SortStable.
Import Js.
Variable A : Type.
Variable cmp : A -> A -> Q.
(** A class of elements that the comparator does not tell apart. *)
Variable tied : A -> bool.
Hypothesis tied_cmp :
  forall x y, tied x = true -> tied y = true -> Qle_bool (cmp x y) 0 = true.


End SortStable.

(* ===================================================================== *)
(** ** The citation set and the citation list                             *)
(* ===================================================================== *)

Section CitationFacts.
Import Text Js Answering.

Lemma setAdd_In (x y : nat) (s : NumSet) :
  In y (setAdd x s) <-> y = x \/ In y s.
Proof.
  unfold setAdd, setHas.
  destruct (existsb (Nat.eqb x) s) eqn:Hhas.
  - apply existsb_exists in Hhas as [z [Hz Hxz]].
    apply Nat.eqb_eq in Hxz; subst z.
    split; [auto | intros [->|H]; assumption].
  - rewrite in_app_iff; simpl. intuition.
Qed.

Lemma setAdd_NoDup (x : nat) (s : NumSet) : NoDup s -> NoDup (setAdd x s).
Proof.
  intros Hnd. unfold setAdd, setHas.
  destruct (existsb (Nat.eqb x) s) eqn:Hhas; [exact Hnd|].
  apply NoDup_app; [exact Hnd | repeat constructor; intros [] |].
  intros y Hy [Heq|[]]. subst y.
  assert (existsb (Nat.eqb x) s = true) as Hyes
    by (apply existsb_exists; exists x; split; [exact Hy | apply Nat.eqb_refl]).
  congruence.
Qed.

Lemma collectStep_In (n : nat) (used : NumSet) (group : string) (i : nat) :
  In i (collectStep n used group) <-> In i used \/ cites n group i.
Proof.
  unfold collectStep, cites.
  destruct (0 <? parseInt group)%N eqn:Hpos;
    destruct (parseInt group <=? N.of_nat n)%N eqn:Hle; simpl;
    rewrite ?setAdd_In;
    try apply N.ltb_lt in Hpos; try apply N.ltb_ge in Hpos;
    try apply N.leb_le in Hle; try apply N.leb_gt in Hle;
    intuition lia.
Qed.

Lemma collect_fold_In (n : nat) (groups : list string) (used : NumSet) (i : nat) :
  In i (fold_left (collectStep n) groups used) <->
  In i used \/ exists group, In group groups /\ cites n group i.
Proof.
  revert used. induction groups as [|g rest IH]; intros used; simpl.
  - split; [auto | intros [H|[g [[] _]]]; exact H].
  - rewrite IH, collectStep_In. split.
    + intros [[H|H]|[g' [Hin Hc]]]; eauto.
    + intros [H|[g' [[<-|Hin] Hc]]]; eauto.
Qed.

Lemma collect_fold_NoDup (n : nat) (groups : list string) (used : NumSet) :
  NoDup used -> NoDup (fold_left (collectStep n) groups used).
Proof.
  revert used. induction groups as [|g rest IH]; intros used Hnd; simpl.
  - exact Hnd.
  - apply IH. unfold collectStep.
    destruct (_ && _); [apply setAdd_NoDup|]; exact Hnd.
Qed.

(** The set holds exactly the indices of the in-range citation numbers
    of the text, each once. *)
Lemma collectCitationIndices_In (text : string) (n i : nat) :
  In i (collectCitationIndices text n) <->
  exists group, In group (citationMatches text) /\ cites n group i.
Proof.
  unfold collectCitationIndices.
  rewrite collect_fold_In. split; [intros [[]|H]; exact H | auto].
Qed.

Lemma collectCitationIndices_NoDup (text : string) (n : nat) :
  NoDup (collectCitationIndices text n).
Proof. apply (collect_fold_NoDup n (citationMatches text)). constructor. Qed.

Lemma cites_bound (n : nat) (group : string) (i : nat) :
  cites n group i -> (i < n)%nat.
Proof. unfold cites. lia. Qed.

(** The comparator [(a, b) => a - b] orders by [<=]. *)
Lemma byIndex_before (a b : nat) : before byIndex a b <-> (a <= b)%nat.
Proof.
  unfold before, byIndex.
  change 0 with (inject_Z 0). rewrite <- Zle_Qle. lia.
Qed.

Lemma sort_byIndex_increasing (s : list nat) :
  NoDup s -> StronglySorted lt (sort byIndex s).
Proof.
  intros Hnd.
  assert (Hsorted : StronglySorted (before byIndex) (sort byIndex s)).
  { apply sort_sorted.
    - intros a b. rewrite !byIndex_before. lia.
    - intros a b c. rewrite !byIndex_before. lia. }
  assert (Hnd' : NoDup (sort byIndex s))
    by (apply (Permutation_NoDup (Permutation_sym (sort_perm byIndex s))), Hnd).
  induction Hsorted as [|x rest Hs IH Hall]; constructor.
  - apply IH. inversion Hnd'; assumption.
  - inversion Hnd' as [|? ? Hnotin _]; subst.
    rewrite Forall_forall in *. intros y Hy.
    specialize (Hall y Hy). apply byIndex_before in Hall.
    assert (x <> y) by (intros ->; contradiction). lia.
Qed.

(** Indexing with indices inside the array never yields [undefined]. *)
Lemma definedOnly_inside (A : Type) (xs : list A) (indices : list nat) :
  Forall (fun i => (i < List.length xs)%nat) indices ->
  map Some (definedOnly (map (fun index => nth_error xs index) indices)) =
  map (fun index => nth_error xs index) indices.
Proof.
  induction 1 as [|i rest Hi _ IH]; [reflexivity|].
  simpl. destruct (nth_error xs i) eqn:Hnth.
  - simpl. f_equal. exact IH.
  - apply nth_error_None in Hnth. lia.
Qed.

(** The citation list: the entries at the cited indices, by increasing
    index, each once; an index is there exactly when its number is
    written in the text. *)
Lemma buildCitations_spec (cleaned : string) (relevant : list SearchResult.t) :
  exists indices : list nat,
    StronglySorted lt indices /\
    (forall i, In i indices <->
               exists group, In group (citationMatches cleaned) /\
                             cites (List.length relevant) group i) /\
    map Some (buildCitations cleaned relevant) =
    map (fun i => option_map toCitation (nth_error relevant i)) indices.
Proof.
  set (n := List.length relevant).
  set (used := collectCitationIndices cleaned n).
  exists (sort byIndex used).
  assert (Hin : forall i, In i (sort byIndex used) <->
                          exists group, In group (citationMatches cleaned) /\
                                        cites n group i).
  { intros i. rewrite <- collectCitationIndices_In. fold used. split.
    - apply Permutation_in, sort_perm.
    - apply Permutation_in, Permutation_sym, sort_perm. }
  split; [apply sort_byIndex_increasing, collectCitationIndices_NoDup|].
  split; [exact Hin|].
  assert (Hinside : Forall (fun i => (i < List.length relevant)%nat)
                           (sort byIndex used)).
  { apply Forall_forall. intros i Hi. apply Hin in Hi as [g [_ Hc]].
    exact (cites_bound Hc). }
  apply definedOnly_inside in Hinside.
  unfold buildCitations. fold n. fold used.
  transitivity
    (map (option_map toCitation)
       (map Some (definedOnly
                    (map (fun index => nth_error relevant index)
                         (sort byIndex used))))).
  - rewrite !map_map. reflexivity.
  - rewrite Hinside, map_map. reflexivity.
Qed.
End CitationFacts.

(* ===================================================================== *)
(** ** [generateAnswerWithCitations]: the paths of one call               *)
(* ===================================================================== *)

Section AnswerPaths.
Import Text Js AsyncOps Answering.

Lemma run_generateAnswer (h : Handler) (query : string)
    (searchResults : list SearchResult.t) (mode : Mode) :
  let relevant := relevantResultsOf mode searchResults in
  let gate := Called (GenerateText (relevanceRequest query relevant)) in
  let generation := Called (GenerateText (answerRequest query relevant mode)) in
  run h (generateAnswerWithCitations query searchResults mode) =
  if (List.length searchResults =? 0)%nat then
    ([], Returned (earlyReturn emptyResultsMessage mode))
  else if isCustomer mode && (List.length relevant =? 0)%nat then
    ([], Returned (earlyReturn internalOnlyMessage mode))
  else
    match h _ (GenerateText (relevanceRequest query relevant)) with
    | Rejected e => ([gate], Threw e)
    | Fulfilled relevanceCheck =>
        if negb (isRelevant relevanceCheck) then
          ([gate], Returned (earlyReturn notRelevantMessage mode))
        else
          match h _ (GenerateText (answerRequest query relevant mode)) with
          | Rejected e => ([gate; generation], Threw e)
          | Fulfilled rawAnswer =>
              ([gate; generation],
               Returned (answerFrom rawAnswer relevant mode
                           (existsb SearchResult.is_customer_safe searchResults)))
          end
    end.
Proof.
  intros relevant gate generation.
  unfold generateAnswerWithCitations. fold relevant.
  destruct (List.length searchResults =? 0)%nat; [reflexivity|].
  destruct (isCustomer mode && (List.length relevant =? 0)%nat); [reflexivity|].
  rewrite run_bind, run_await.
  destruct (h _ (GenerateText (relevanceRequest query relevant)))
    as [relevanceCheck|e]; [|reflexivity].
  destruct (negb (isRelevant relevanceCheck)); [reflexivity|].
  rewrite run_bind, run_await.
  destruct (h _ (GenerateText (answerRequest query relevant mode)));
    reflexivity.
Qed.

Lemma definedOnly_In (A : Type) (x : A) (xs : list (option A)) :
  In x (definedOnly xs) <-> In (Some x) xs.
Proof.
  unfold definedOnly. rewrite in_flat_map. split.
  - intros [[y|] [Hin Hx]]; [destruct Hx as [<-|[]]; exact Hin | destruct Hx].
  - intros Hin. exists (Some x). split; [exact Hin | left; reflexivity].
Qed.

(** Citations are built from entries of the list given to
    [buildCitations], and from nothing else. *)
Lemma buildCitations_incl (cleaned : string) (relevant : list SearchResult.t) :
  incl (buildCitations cleaned relevant) (map toCitation relevant).
Proof.
  intros c Hc. unfold buildCitations in Hc.
  apply in_map_iff in Hc as [r [<- Hr]].
  apply definedOnly_In in Hr.
  apply in_map_iff in Hr as [i [Hnth _]].
  apply nth_error_In in Hnth. apply in_map. exact Hnth.
Qed.
(** The four ways in which a call returns. *)
Lemma generateAnswer_returned (h : Handler) (query : string)
    (searchResults : list SearchResult.t) (mode : Mode)
    (r : AnswerWithCitations.t) :
  outcome h (generateAnswerWithCitations query searchResults mode) = Returned r ->
  let relevant := relevantResultsOf mode searchResults in
  let gate := Called (GenerateText (relevanceRequest query relevant)) in
  let generation := Called (GenerateText (answerRequest query relevant mode)) in
  let made := calls h (generateAnswerWithCitations query searchResults mode) in
  (r = earlyReturn emptyResultsMessage mode /\ searchResults = [] /\ made = [])
  \/
  (r = earlyReturn internalOnlyMessage mode /\ mode = customer /\
   searchResults <> [] /\ relevant = [] /\ made = [])
  \/
  (exists relevanceCheck,
      h _ (GenerateText (relevanceRequest query relevant)) = Fulfilled relevanceCheck /\
      isRelevant relevanceCheck = false /\
      r = earlyReturn notRelevantMessage mode /\ made = [gate])
  \/
  (exists relevanceCheck rawAnswer,
      h _ (GenerateText (relevanceRequest query relevant)) = Fulfilled relevanceCheck /\
      isRelevant relevanceCheck = true /\
      h _ (GenerateText (answerRequest query relevant mode)) = Fulfilled rawAnswer /\
      searchResults <> [] /\
      r = answerFrom rawAnswer relevant mode
            (existsb SearchResult.is_customer_safe searchResults) /\
      made = [gate; generation]).
Proof.
  intros Hout relevant gate generation made. revert Hout.
  unfold made, outcome, calls. rewrite run_generateAnswer.
  fold relevant. fold gate. fold generation.
  destruct searchResults as [|r0 rest] eqn:Hresults.
  { simpl. intros [= <-]. left. auto. }
  change (List.length (r0 :: rest) =? 0)%nat with false. cbv iota.
  assert (Hne : r0 :: rest <> []) by discriminate.
  destruct (isCustomer mode && (List.length relevant =? 0)%nat) eqn:Hblocked.
  { simpl. intros [= <-]. right; left.
    apply andb_prop in Hblocked as [Hmode Hlen].
    destruct mode; [discriminate|].
    apply Nat.eqb_eq, length_zero_iff_nil in Hlen. auto. }
  destruct (h _ (GenerateText (relevanceRequest query relevant)))
    as [check|e]; [|discriminate].
  destruct (isRelevant check) eqn:Hrel; simpl negb; cbv iota.
  - destruct (h _ (GenerateText (answerRequest query relevant mode)))
      as [raw|e]; [|discriminate].
    simpl. intros [= <-]. right; right; right.
    exists check, raw. auto 7.
  - simpl. intros [= <-]. right; right; left.
    exists check. auto.
Qed.
End AnswerPaths.

(* ===================================================================== *)
(** ** Properties of [generateAnswerWithCitations]                        *)
(* ===================================================================== *)

Import Text Js AsyncOps Answering.

(** C6. With an empty search-result list the call returns at once, in
    either mode and whatever the query: no call leaves the program, the
    citation list is empty and the answer is the fixed message saying that
    the knowledge base does not hold enough information. *)
Theorem empty_results_fixed_answer (h : Handler) (query : string) (mode : Mode) :
  run h (generateAnswerWithCitations query [] mode) =
    ([], Returned (AnswerWithCitations.mk emptyResultsMessage [] mode false)) /\
  includes "don't have enough information" emptyResultsMessage = true.
Proof. split; reflexivity. Qed.

(** C5. In customer mode, a non-empty search-result list without any
    customer-safe entry is answered with the fixed internal-only message,
    no citations and [canCiteForCustomer = false]; the decision is taken
    on the supplied list before the relevance question is asked, so no
    call leaves the program. *)
Theorem customer_policy_blocked (h : Handler) (query : string)
    (searchResults : list SearchResult.t) :
  searchResults <> [] ->
  Forall (fun r => SearchResult.is_customer_safe r = false) searchResults ->
  run h (generateAnswerWithCitations query searchResults customer) =
    ([], Returned (AnswerWithCitations.mk internalOnlyMessage [] customer false)) /\
  includes "internal-only and cannot be shared" internalOnlyMessage = true.
Proof.
  intros Hne Hunsafe. split; [|reflexivity].
  rewrite run_generateAnswer.
  destruct searchResults as [|r rest]; [contradiction|].
  change (List.length (r :: rest) =? 0)%nat with false. cbv iota.
  assert (Hnone : relevantResultsOf customer (r :: rest) = []).
  { unfold relevantResultsOf. simpl isCustomer. cbv iota. clear Hne.
    induction Hunsafe as [|x l Hx _ IH]; [reflexivity|].
    simpl. rewrite Hx. exact IH. }
  rewrite Hnone. reflexivity.
Qed.

Lemma customer_policy_blocked_witness :
  run (Fixtures.generation "YES" "Deployments happen on Friday [1].")
      (generateAnswerWithCitations "What is the deployment process?"
         [Fixtures.internalNotes; Fixtures.planningNotes] customer) =
    ([], Returned (AnswerWithCitations.mk internalOnlyMessage [] customer false)) /\
  includes "internal-only and cannot be shared" internalOnlyMessage = true.
Proof.
  apply customer_policy_blocked.
  - discriminate.
  - repeat constructor.
Defined.

(** C1. In customer mode both generation calls are given the customer-safe
    entries of the search results and nothing else, the citations are
    taken from those entries, and so every returned citation has
    [is_customer_safe = true]. *)
Theorem customer_citations_are_safe (h : Handler) (query : string)
    (searchResults : list SearchResult.t) (r : AnswerWithCitations.t) :
  outcome h (generateAnswerWithCitations query searchResults customer) = Returned r ->
  let shown := filter SearchResult.is_customer_safe searchResults in
  Forall (fun c => Citation.is_customer_safe c = true)
         (AnswerWithCitations.citations r) /\
  incl (AnswerWithCitations.citations r) (map toCitation shown) /\
  Forall (fun c => c = Called (GenerateText (relevanceRequest query shown)) \/
                   c = Called (GenerateText (answerRequest query shown customer)))
         (calls h (generateAnswerWithCitations query searchResults customer)).
Proof.
  intros Hout shown.
  assert (Hsafe : forall l, incl l (map toCitation shown) ->
                            Forall (fun c => Citation.is_customer_safe c = true) l).
  { intros l Hl. apply Forall_forall. intros c Hc.
    apply Hl, in_map_iff in Hc as [x [<- Hx]].
    apply filter_In in Hx as [_ Hx]. exact Hx. }
  apply generateAnswer_returned in Hout.
  change (relevantResultsOf customer searchResults) with shown in Hout.
  destruct Hout as [[-> [_ ->]] | [[-> [_ [_ [_ ->]]]] | [[check [_ [_ [-> ->]]]]
                   | [check [raw [_ [_ [_ [_ [-> ->]]]]]]]]]].
  - repeat split; [constructor | intros c [] | constructor].
  - repeat split; [constructor | intros c [] | constructor].
  - repeat split; [constructor | intros c [] | repeat constructor].
  - assert (Hincl := @buildCitations_incl
                       (cleanInvalidCitations raw (List.length shown)) shown).
    repeat split.
    + apply Hsafe, Hincl.
    + exact Hincl.
    + constructor; [left; reflexivity|].
      constructor; [right; reflexivity|constructor].
Qed.

Lemma customer_citations_are_safe_witness :
  let h := Fixtures.generation "YES" "See the article [1] and the docs [2], not [3]." in
  let searchResults :=
    [Fixtures.internalNotes; Fixtures.supportArticle; Fixtures.customerDocs] in
  let r := answerFrom "See the article [1] and the docs [2], not [3]."
             [Fixtures.supportArticle; Fixtures.customerDocs] customer true in
  outcome h (generateAnswerWithCitations "How does this feature work?"
               searchResults customer) = Returned r /\
  List.length (AnswerWithCitations.citations r) = 2%nat /\
  Forall (fun c => Citation.is_customer_safe c = true)
         (AnswerWithCitations.citations r).
Proof.
  intros h searchResults r.
  assert (Hout : outcome h (generateAnswerWithCitations "How does this feature work?"
                              searchResults customer) = Returned r)
    by (vm_compute; reflexivity).
  split; [exact Hout|].
  split; [vm_compute; reflexivity|].
  exact (proj1 (customer_citations_are_safe h "How does this feature work?"
                  searchResults Hout)).
Defined.

(** C7, as the claim is worded, fails: in internal mode the early return
    for an empty search-result list reports [canCiteForCustomer = false]. *)
Lemma internal_can_cite_counterexample :
  ~ (forall (h : Handler) (query : string) (searchResults : list SearchResult.t)
            (r : AnswerWithCitations.t),
        outcome h (generateAnswerWithCitations query searchResults internal)
          = Returned r ->
        AnswerWithCitations.canCiteForCustomer r = true).
Proof.
  intros Hclaim.
  specialize (Hclaim (Fixtures.generation "YES" "") "What is the answer?" []
                (earlyReturn emptyResultsMessage internal) eq_refl).
  discriminate Hclaim.
Qed.

(** C7, amended. In internal mode the returned [canCiteForCustomer] is
    [true] exactly when the call gets past both early returns, that is,
    when the search-result list is not empty and the relevance verdict is
    positive; on the early returns for an empty list and for a negative
    verdict it is [false]. *)
Theorem internal_can_cite_past_early_returns (h : Handler) (query : string)
    (searchResults : list SearchResult.t) (r : AnswerWithCitations.t) :
  outcome h (generateAnswerWithCitations query searchResults internal) = Returned r ->
  (AnswerWithCitations.canCiteForCustomer r = true <->
   searchResults <> [] /\
   exists relevanceCheck,
     h _ (GenerateText (relevanceRequest query searchResults)) = Fulfilled relevanceCheck /\
     isRelevant relevanceCheck = true).
Proof.
  intros Hout. apply generateAnswer_returned in Hout.
  change (relevantResultsOf internal searchResults) with searchResults in Hout.
  destruct Hout as [[-> [-> _]] | [[_ [Hmode _]] | [[check [Hgate [Hno [-> _]]]]
                   | [check [raw [Hgate [Hyes [_ [Hne [-> _]]]]]]]]]].
  - simpl. split; [discriminate | intros [Hne _]; contradiction].
  - discriminate Hmode.
  - simpl. split; [discriminate|].
    intros [_ [check' [Hgate' Hyes]]]. congruence.
  - simpl. split; [|reflexivity]. intros _. split; [exact Hne|].
    exists check. split; assumption.
Qed.

Lemma internal_can_cite_past_early_returns_witness :
  let h := Fixtures.generation "NO" "Nothing [1]." in
  let searchResults := [Fixtures.internalNotes; Fixtures.supportArticle] in
  let r := earlyReturn notRelevantMessage internal in
  outcome h (generateAnswerWithCitations "How do we fix the bug?" searchResults internal)
    = Returned r /\
  (AnswerWithCitations.canCiteForCustomer r = true <->
   searchResults <> [] /\
   exists relevanceCheck,
     h _ (GenerateText (relevanceRequest "How do we fix the bug?" searchResults))
       = Fulfilled relevanceCheck /\
     isRelevant relevanceCheck = true).
Proof.
  intros h searchResults r.
  assert (Hout : outcome h (generateAnswerWithCitations "How do we fix the bug?"
                              searchResults internal) = Returned r)
    by (vm_compute; reflexivity).
  split; [exact Hout|].
  exact (internal_can_cite_past_early_returns h "How do we fix the bug?"
           searchResults Hout).
Defined.

(** C8, as the claim is worded, fails: with two entries and the answer
    text citing [2] before [1], the citation list is the first entry and
    then the second, not the order of first use. *)
Lemma citation_order_counterexample :
  ~ (forall (h : Handler) (query : string) (searchResults : list SearchResult.t)
            (mode : Mode) (r : AnswerWithCitations.t),
        outcome h (generateAnswerWithCitations query searchResults mode) = Returned r ->
        AnswerWithCitations.citations r =
        AsDescribed.citationsByFirstUse (AnswerWithCitations.answer r)
          (relevantResultsOf mode searchResults)).
Proof.
  intros Hclaim.
  specialize (Hclaim (Fixtures.generation "YES" "The docs say so [2]; the article agrees [1].")
                "How does this feature work?"
                [Fixtures.supportArticle; Fixtures.customerDocs] internal
                (answerFrom "The docs say so [2]; the article agrees [1]."
                   [Fixtures.supportArticle; Fixtures.customerDocs] internal true)).
  assert (Hout : outcome (Fixtures.generation "YES" "The docs say so [2]; the article agrees [1].")
                   (generateAnswerWithCitations "How does this feature work?"
                      [Fixtures.supportArticle; Fixtures.customerDocs] internal)
                 = Returned (answerFrom "The docs say so [2]; the article agrees [1]."
                               [Fixtures.supportArticle; Fixtures.customerDocs] internal true))
    by (vm_compute; reflexivity).
  specialize (Hclaim Hout). vm_compute in Hclaim. discriminate Hclaim.
Qed.

(** C8, amended. The citation list of a returned answer is ordered by
    increasing Evidence Set index: it is the list of the entries of the
    evidence shown to generation at a strictly increasing list of
    indices. *)
Theorem citations_in_evidence_order (h : Handler) (query : string)
    (searchResults : list SearchResult.t) (mode : Mode) (r : AnswerWithCitations.t) :
  outcome h (generateAnswerWithCitations query searchResults mode) = Returned r ->
  let evidence := relevantResultsOf mode searchResults in
  exists indices : list nat,
    StronglySorted lt indices /\
    Forall (fun i => (i < List.length evidence)%nat) indices /\
    map Some (AnswerWithCitations.citations r) =
    map (fun i => option_map toCitation (nth_error evidence i)) indices.
Proof.
  intros Hout evidence. apply generateAnswer_returned in Hout. fold evidence in Hout.
  destruct Hout as [[-> _] | [[-> _] | [[check [_ [_ [-> _]]]]
                   | [check [raw [_ [_ [_ [_ [-> _]]]]]]]]]];
    try (exists []; repeat split; constructor).
  destruct (buildCitations_spec
              (cleanInvalidCitations raw (List.length evidence)) evidence)
    as [indices [Hsorted [Hin Hmap]]].
  exists indices. repeat split; [exact Hsorted| |exact Hmap].
  apply Forall_forall. intros i Hi. apply Hin in Hi as [g [_ Hc]].
  exact (cites_bound Hc).
Qed.

Lemma citations_in_evidence_order_witness :
  let h := Fixtures.generation "YES" "The docs say so [2]; the article agrees [1]." in
  let searchResults := [Fixtures.supportArticle; Fixtures.customerDocs] in
  let r := answerFrom "The docs say so [2]; the article agrees [1]."
             searchResults internal true in
  outcome h (generateAnswerWithCitations "How does this feature work?"
               searchResults internal) = Returned r /\
  AnswerWithCitations.citations r =
    [toCitation Fixtures.supportArticle; toCitation Fixtures.customerDocs] /\
  exists indices : list nat,
    StronglySorted lt indices /\
    Forall (fun i => (i < List.length searchResults)%nat) indices /\
    map Some (AnswerWithCitations.citations r) =
    map (fun i => option_map toCitation (nth_error searchResults i)) indices.
Proof.
  intros h searchResults r.
  assert (Hout : outcome h (generateAnswerWithCitations "How does this feature work?"
                              searchResults internal) = Returned r)
    by (vm_compute; reflexivity).
  split; [exact Hout|].
  split; [vm_compute; reflexivity|].
  exact (citations_in_evidence_order h "How does this feature work?"
           searchResults internal Hout).
Defined.

(** C2, at a failing input. With one entry of evidence and a generated
    text that cites [0], the returned answer text still holds the token
    [0], whose number is outside 1..1 (the cleaning step only removes
    numbers above the evidence size); the citation list is empty.  The
    same cleaning step leaves [99] behind in a text where removing an
    inner token joins its neighbours. *)
Theorem zero_citation_survives_cleaning :
  let h := Fixtures.generation "YES" "Rollbacks are automated [0]." in
  outcome h (generateAnswerWithCitations "What is the deployment process?"
               [Fixtures.supportArticle] internal) =
    Returned (AnswerWithCitations.mk "Rollbacks are automated [0]." [] internal true) /\
  citationMatches "Rollbacks are automated [0]." = ["0"] /\
  parseInt "0" = 0%N /\
  cleanInvalidCitations "Rollbacks [9[7]9]." 5 = "Rollbacks [99].".
Proof. repeat split; vm_compute; reflexivity. Qed.

(* ===================================================================== *)
(** ** The score map of reciprocal rank fusion                            *)
(* ===================================================================== *)

Import Retrieval.

Section ScoresMapFacts.


Lemma mapKeys_mapSet (key : Z) (v : Entry.t) (m : ScoresMap) :
  mapKeys (mapSet key v m) =
  if hasKey key (mapKeys m) then mapKeys m else (mapKeys m ++ [key])%list.
Proof.
  induction m as [|[k' v'] rest IH]; simpl.
  - reflexivity.
  - destruct (key =? k')%Z eqn:Hk; simpl.
    + reflexivity.
    + unfold mapKeys in *. rewrite IH.
      unfold hasKey. destruct (existsb (Z.eqb key) (map fst rest)); reflexivity.
Qed.

Lemma hasKey_In (key : Z) (keys : list Z) : hasKey key keys = true <-> In key keys.
Proof.
  unfold hasKey. rewrite existsb_exists. split.
  - intros [y [Hy Heq]]. apply Z.eqb_eq in Heq. subst y. exact Hy.
  - intros Hin. exists key. split; [exact Hin | apply Z.eqb_refl].
Qed.

Lemma mapGet_In (key : Z) (e : Entry.t) (m : ScoresMap) :
  mapGet key m = Some e -> In (key, e) m.
Proof.
  induction m as [|[k' v'] rest IH]; simpl; [discriminate|].
  destruct (key =? k')%Z eqn:Hk.
  - apply Z.eqb_eq in Hk. intros [= ->]. left. congruence.
  - auto.
Qed.

(** A property of all entries survives [set] with a good value. *)
Lemma mapSet_Forall (P : Z * Entry.t -> Prop) (key : Z) (v : Entry.t) (m : ScoresMap) :
  P (key, v) -> Forall P m -> Forall P (mapSet key v m).
Proof.
  intros Hv. induction 1 as [|[k' v'] rest Hx Hrest IH]; simpl.
  - repeat constructor. exact Hv.
  - destruct (key =? k')%Z eqn:Hk; constructor; auto.
    apply Z.eqb_eq in Hk. subst k'. exact Hv.
Qed.

End ScoresMapFacts.

Section FusionFacts.
Variable k : Q.

Lemma addVector_setsOwnId : setsOwnId (addVector k).
Proof. intros m r i. eexists. reflexivity. Qed.

Lemma addKeyword_setsOwnId : setsOwnId (addKeyword k).
Proof.
  intros m r i. unfold addKeyword.
  destruct (mapGet (SearchResult.id r) m); eexists; reflexivity.
Qed.

Lemma loop_keys (f : ScoresMap -> SearchResult.t -> nat -> ScoresMap)
    (results : list SearchResult.t) (i : nat) (m : ScoresMap) :
  setsOwnId f ->
  mapKeys (forEachFrom i f results m) = fold_left addKey (ids results) (mapKeys m).
Proof.
  intros Hf. revert i m. induction results as [|r rest IH]; intros i m; simpl.
  - reflexivity.
  - rewrite IH. destruct (Hf m r i) as [v ->].
    rewrite mapKeys_mapSet. reflexivity.
Qed.

Lemma addKeys_nonempty (new keys : list Z) :
  new <> [] \/ keys <> [] -> fold_left addKey new keys <> [].
Proof.
  revert keys. induction new as [|x rest IH]; intros keys H; simpl.
  - destruct H as [H|H]; [contradiction | exact H].
  - apply IH. right. unfold addKey.
    destruct (hasKey x keys) eqn:Hhas.
    + apply hasKey_In in Hhas. intros ->. destruct Hhas.
    + intros Heq. apply app_eq_nil in Heq as [_ Heq]. discriminate.
Qed.

Lemma fuse_nonempty (vectorResults keywordResults : list SearchResult.t) :
  vectorResults <> [] \/ keywordResults <> [] ->
  fuse k vectorResults keywordResults <> [].
Proof.
  intros H Hempty.
  assert (Hkeys : mapKeys (fuse k vectorResults keywordResults) = [])
    by (rewrite Hempty; reflexivity).
  revert Hkeys. unfold fuse, forEach.
  rewrite (loop_keys _ _ _ addKeyword_setsOwnId).
  rewrite (loop_keys _ _ _ addVector_setsOwnId).
  apply addKeys_nonempty.
  destruct H as [H|H].
  - right. apply addKeys_nonempty. left.
    destruct vectorResults; [contradiction | discriminate].
  - left. destruct keywordResults; [contradiction | discriminate].
Qed.


Lemma loop_invariant (P : ScoresMap -> Prop)
    (f : ScoresMap -> SearchResult.t -> nat -> ScoresMap) :
  (forall m r i, P m -> P (f m r i)) ->
  forall results i m, P m -> P (forEachFrom i f results m).
Proof.
  intros Hstep results. induction results as [|r rest IH]; intros i m Hm; simpl.
  - exact Hm.
  - apply IH, Hstep, Hm.
Qed.

Lemma fuse_keyedById (vectorResults keywordResults : list SearchResult.t) :
  keyedById (fuse k vectorResults keywordResults).
Proof.
  unfold fuse, forEach.
  apply (loop_invariant keyedById).
  - intros m r i Hm. unfold addKeyword.
    destruct (mapGet (SearchResult.id r) m) as [existing|] eqn:Hget.
    + apply mapSet_Forall; [|exact Hm].
      apply mapGet_In in Hget. unfold keyedById in Hm.
      rewrite Forall_forall in Hm. exact (Hm _ Hget).
    + apply mapSet_Forall; [reflexivity | exact Hm].
  - apply (loop_invariant keyedById).
    + intros m r i Hm. apply mapSet_Forall; [reflexivity | exact Hm].
    + constructor.
Qed.

Lemma fuse_entry_ids (vectorResults keywordResults : list SearchResult.t) :
  map entryId (mapValues (fuse k vectorResults keywordResults)) =
  mapKeys (fuse k vectorResults keywordResults).
Proof.
  pose proof (fuse_keyedById vectorResults keywordResults) as H.
  unfold mapValues, mapKeys. rewrite map_map.
  induction H as [|p rest Hp _ IH]; simpl; congruence.
Qed.

Hypothesis k_nonneg : 0 <= k.

Lemma rrfScore_pos (index : nat) : 0 < rrfScore k index.
Proof.
  unfold rrfScore, Qdiv. rewrite Qmult_1_l.
  apply Qinv_lt_0_compat.
  assert (0 <= inject_Z (Z.of_nat index))
    by (change 0 with (inject_Z 0); rewrite <- Zle_Qle; lia).
  apply Qlt_le_trans with (y := 0 + 0 + 1); [reflexivity|].
  apply Qplus_le_compat; [apply Qplus_le_compat; assumption | apply Qle_refl].
Qed.

Lemma fuse_wellScored (vectorResults keywordResults : list SearchResult.t) :
  Forall wellScored (mapValues (fuse k vectorResults keywordResults)).
Proof.
  unfold mapValues. apply Forall_map. unfold fuse, forEach.
  apply (loop_invariant (Forall (fun p => wellScored (snd p)))).
  - intros m r i Hm. unfold addKeyword.
    destruct (mapGet (SearchResult.id r) m) as [existing|] eqn:Hget.
    + apply mapSet_Forall; [|exact Hm].
      apply mapGet_In in Hget. rewrite Forall_forall in Hm.
      destruct (Hm _ Hget) as [Hpos _]. simpl in Hpos.
      split; [|reflexivity]. simpl.
      apply Qlt_trans with (y := Entry.score existing); [exact Hpos|].
      rewrite <- (Qplus_0_r (Entry.score existing)) at 1.
      apply Qplus_lt_r, rrfScore_pos.
    + apply mapSet_Forall; [|exact Hm].
      split; [apply rrfScore_pos | reflexivity].
  - apply (loop_invariant (Forall (fun p => wellScored (snd p)))).
    + intros m r i Hm. apply mapSet_Forall; [|exact Hm].
      split; [apply rrfScore_pos | reflexivity].
    + constructor.
Qed.

End FusionFacts.

Section OrderFacts.
Import Js.

(** The comparator [(a, b) => b.score - a.score] orders by decreasing
    score. *)
Lemma byScoreDesc_before (a b : Entry.t) :
  before byScoreDesc a b <-> Entry.score b <= Entry.score a.
Proof. unfold before, byScoreDesc. split; intros H; lra. Qed.

Lemma fusedSorted_perm (k : Q) (vectorResults keywordResults : list SearchResult.t) :
  Permutation (fusedSorted k vectorResults keywordResults)
              (mapValues (fuse k vectorResults keywordResults)).
Proof. apply sort_perm. Qed.

Lemma fusedSorted_descending (k : Q)
    (vectorResults keywordResults : list SearchResult.t) :
  StronglySorted (fun a b => Entry.score b <= Entry.score a)
                 (fusedSorted k vectorResults keywordResults).
Proof.
  assert (H : StronglySorted (before byScoreDesc)
                (fusedSorted k vectorResults keywordResults)).
  { apply sort_sorted.
    - intros a b. rewrite !byScoreDesc_before.
      destruct (Qlt_le_dec (Entry.score a) (Entry.score b)) as [Hlt|Hle];
        [right; apply Qlt_le_weak, Hlt | left; exact Hle].
    - intros a b c. rewrite !byScoreDesc_before. intros; lra. }
  induction H as [|x rest _ IH Hall]; constructor; [exact IH|].
  eapply Forall_impl; [|exact Hall].
  intros y Hy. apply byScoreDesc_before, Hy.
Qed.



Lemma filter_all (A : Type) (f : A -> bool) (l : list A) :
  (forall x, In x l -> f x = true) -> filter f l = l.
Proof.
  induction l as [|x rest IH]; intros H; [reflexivity|].
  simpl. rewrite (H x (or_introl eq_refl)). f_equal.
  apply IH. intros y Hy. apply H. right. exact Hy.
Qed.

End OrderFacts.

(* ===================================================================== *)
(** ** Ranks, counts and the order of equal contributions                 *)
(* ===================================================================== *)

Lemma addKeys_In (x : Z) (new keys : list Z) :
  In x (fold_left addKey new keys) <-> In x keys \/ In x new.
Proof.
  revert keys. induction new as [|y rest IH]; intros keys; simpl.
  - tauto.
  - rewrite IH. unfold addKey. destruct (hasKey y keys) eqn:Hhas.
    + apply hasKey_In in Hhas. split; [tauto|].
      intros [H|[<-|H]]; auto.
    + rewrite in_app_iff. simpl. tauto.
Qed.

Lemma addKeys_NoDup (new keys : list Z) :
  NoDup keys -> NoDup (fold_left addKey new keys).
Proof.
  revert keys. induction new as [|y rest IH]; intros keys Hnd; simpl.
  - exact Hnd.
  - apply IH. unfold addKey. destruct (hasKey y keys) eqn:Hhas; [exact Hnd|].
    apply NoDup_app; [exact Hnd | repeat constructor; intros [] |].
    intros x Hx [<-|[]]. apply hasKey_In in Hx. congruence.
Qed.

Lemma fuse_keys_any (k : Q) (vectorResults keywordResults : list SearchResult.t) :
  mapKeys (fuse k vectorResults keywordResults) =
  fold_left addKey (ids keywordResults) (fold_left addKey (ids vectorResults) []).
Proof.
  unfold fuse, forEach.
  rewrite (loop_keys _ _ _ (addKeyword_setsOwnId k)).
  rewrite (loop_keys _ _ _ (addVector_setsOwnId k)).
  reflexivity.
Qed.

Section FusionRanks.
Variable k : Q.











(** *** The number of keys *)



(** *** The order of the keys *)












End FusionRanks.

(* ===================================================================== *)
(** ** Properties of [reciprocalRankFusion]                               *)
(* ===================================================================== *)





(** C4. For [k >= 0] and input lists that are not both empty, the result
    of [reciprocalRankFusion] starts with an item of normalized score 1,
    and every item has a score in (0, 1], so the maximum is exactly 1.
    For two empty lists the result is empty, the divisor being the
    default 1. *)
Theorem normalization_bounds (k : Q)
    (vectorResults keywordResults : list SearchResult.t) :
  0 <= k ->
  (vectorResults <> [] \/ keywordResults <> [] ->
   exists top rest,
     reciprocalRankFusion k vectorResults keywordResults = top :: rest /\
     SearchResult.similarity top == 1 /\
     Forall (fun r => 0 < SearchResult.similarity r /\ SearchResult.similarity r <= 1)
            (top :: rest)) /\
  reciprocalRankFusion k [] [] = [] /\
  maxScoreOf (fusedSorted k [] []) = 1.
Proof.
  intros Hk. split; [|split; reflexivity].
  intros Hne. unfold reciprocalRankFusion.
  pose proof (fusedSorted_perm k vectorResults keywordResults) as Hperm.
  pose proof (fusedSorted_descending k vectorResults keywordResults) as Hdesc.
  assert (Hscored : Forall wellScored (fusedSorted k vectorResults keywordResults)).
  { apply (Permutation_Forall (Permutation_sym Hperm)).
    apply fuse_wellScored, Hk. }
  destruct (fusedSorted k vectorResults keywordResults) as [|first others] eqn:Hsorted.
  { exfalso. apply Permutation_nil in Hperm.
    apply (fuse_nonempty k Hne). unfold mapValues in Hperm.
    apply map_eq_nil in Hperm. exact Hperm. }
  inversion Hscored as [|? ? [Hpos Hsim] Hothers]; subst.
  inversion Hdesc as [|? ? _ Hbelow]; subst.
  assert (Hmax : maxScoreOf (first :: others) = Entry.score first).
  { simpl. destruct (Qeq_bool (Entry.score first) 0) eqn:Hzero; [|reflexivity].
    apply Qeq_bool_iff in Hzero. rewrite Hzero in Hpos.
    exfalso. exact (Qlt_irrefl 0 Hpos). }
  rewrite Hmax.
  assert (Hnorm : forall e, wellScored e -> Entry.score e <= Entry.score first ->
            0 < SearchResult.similarity (normalize (Entry.score first) e) /\
            SearchResult.similarity (normalize (Entry.score first) e) <= 1).
  { intros e [Hepos Hesim] Hle. simpl. rewrite Hesim. split.
    - apply Qlt_shift_div_l; [exact Hpos | lra].
    - apply Qle_shift_div_r; [exact Hpos | lra]. }
  exists (normalize (Entry.score first) first),
         (map (normalize (Entry.score first)) others).
  split; [reflexivity|]. split.
  - simpl. rewrite Hsim. unfold Qdiv. apply Qmult_inv_r.
    intros Hzero. rewrite Hzero in Hpos. exact (Qlt_irrefl 0 Hpos).
  - constructor.
    + apply Hnorm; [split; assumption | apply Qle_refl].
    + apply Forall_map. rewrite Forall_forall in *.
      intros e He. apply Hnorm; auto.
Qed.

Lemma normalization_bounds_witness :
  let F1 := Fixtures.createMockResult 1 "Deployments happen on Friday" true in
  let F2 := Fixtures.createMockResult 2 "Rollbacks are automated" true in
  let F3 := Fixtures.createMockResult 3 "Releases need a review" false in
  map SearchResult.similarity (reciprocalRankFusion 60 [F1; F2] [F2; F3]) =
    [465186 # 465186; 3782 # 7503; 3782 # 7626] /\
  exists top rest,
    reciprocalRankFusion 60 [F1; F2] [F2; F3] = top :: rest /\
    SearchResult.similarity top == 1 /\
    Forall (fun r => 0 < SearchResult.similarity r /\ SearchResult.similarity r <= 1)
           (top :: rest).
Proof.
  intros F1 F2 F3.
  assert (Hk : 0 <= 60) by (unfold Qle; simpl; lia).
  split; [vm_compute; reflexivity|].
  apply (proj1 (@normalization_bounds 60 [F1; F2] [F2; F3] Hk)).
  left. discriminate.
Defined.

(* ===================================================================== *)
(** ** The paths of the two searches                                      *)
(* ===================================================================== *)

Section SearchPaths.
Import Embeddings.

Lemma run_generateEmbedding (h : Handler) (text : string) :
  run h (generateEmbedding text) =
  match h _ (Embed "text-embedding-3-small" text) with
  | Fulfilled embedding =>
      ([Called (Embed "text-embedding-3-small" text)], Returned embedding)
  | Rejected e =>
      ([Called (Embed "text-embedding-3-small" text);
        Logged "Error generating embedding:" e], Threw e)
  end.
Proof.
  unfold generateEmbedding. rewrite run_tryCatch, run_bind, run_await.
  destruct (h _ (Embed "text-embedding-3-small" text)); reflexivity.
Qed.

Lemma run_hybridSearch (h : Handler) (query : string) (options : SearchOptions.t) :
  let limit := orDefault 10%Z (SearchOptions.limit options) in
  let customerSafeOnly := orDefault false (SearchOptions.customerSafeOnly options) in
  let channelId := SearchOptions.channelId options in
  let minSimilarity := orDefault (3 # 10) (SearchOptions.minSimilarity options) in
  let embed := Embed "text-embedding-3-small" query in
  run h (hybridSearch query options) =
  match h _ embed with
  | Rejected e => ([Called embed; Logged "Error generating embedding:" e], Threw e)
  | Fulfilled queryEmbedding =>
      let queries :=
        PoolQueryAll (vectorQuery queryEmbedding customerSafeOnly channelId limit)
                     (keywordQuery query customerSafeOnly channelId limit) in
      match h _ queries with
      | Rejected e => ([Called embed; Called queries], Threw e)
      | Fulfilled rows =>
          ([Called embed; Called queries],
           Returned (Js.slice0 limit
                       (filter (aboveThreshold minSimilarity)
                          (reciprocalRankFusion defaultK (fst rows) (snd rows)))))
      end
  end.
Proof.
  intros limit customerSafeOnly channelId minSimilarity embed.
  unfold hybridSearch. rewrite run_bind, run_generateEmbedding. fold embed.
  destruct (h _ embed) as [queryEmbedding|e]; [|reflexivity].
  rewrite run_rethrow, run_bind, run_await.
  fold limit. fold customerSafeOnly. fold channelId. fold minSimilarity.
  destruct (h _ (PoolQueryAll _ _)); reflexivity.
Qed.

Lemma run_searchKnowledge (h : Handler) (query : string)
    (options : SearchOptions.t) :
  let limit := orDefault 5%Z (SearchOptions.limit options) in
  let customerSafeOnly := orDefault false (SearchOptions.customerSafeOnly options) in
  let sourceOfTruthOnly := orDefault false (SearchOptions.sourceOfTruthOnly options) in
  let channelId := SearchOptions.channelId options in
  let minSimilarity := orDefault (3 # 10) (SearchOptions.minSimilarity options) in
  let embed := Embed "text-embedding-3-small" query in
  run h (searchKnowledge query options) =
  match h _ embed with
  | Rejected e => ([Called embed; Logged "Error generating embedding:" e], Threw e)
  | Fulfilled queryEmbedding =>
      let q := PoolQuery (knowledgeQuery queryEmbedding customerSafeOnly
                            sourceOfTruthOnly channelId limit) in
      match h _ q with
      | Rejected e => ([Called embed; Called q], Threw e)
      | Fulfilled rows =>
          ([Called embed; Called q],
           Returned (Js.slice0 limit (filter (aboveThreshold minSimilarity) rows)))
      end
  end.
Proof.
  intros limit customerSafeOnly sourceOfTruthOnly channelId minSimilarity embed.
  unfold searchKnowledge. rewrite run_bind, run_generateEmbedding. fold embed.
  destruct (h _ embed) as [queryEmbedding|e]; [|reflexivity].
  rewrite run_rethrow, run_bind, run_await.
  fold limit. fold customerSafeOnly. fold sourceOfTruthOnly.
  fold channelId. fold minSimilarity.
  destruct (h _ (PoolQuery _)); reflexivity.
Qed.

End SearchPaths.

(* ===================================================================== *)
(** ** Properties of [hybridSearch]                                       *)
(* ===================================================================== *)

(** C9. [hybridSearch] calls the embedding service first, whatever the
    services answer.  If that call is rejected with an error, the search
    is rejected with that same error and returns no result; the only
    calls made are the embedding call and the [console.error] line of
    [generateEmbedding], so neither channel query is issued and no
    lexical-only list is built. *)
Theorem embedding_failure_fails_search (h : Handler) (query : string)
    (options : SearchOptions.t) :
  (exists later,
      calls h (hybridSearch query options) =
      Called (Embed "text-embedding-3-small" query) :: later) /\
  (forall e : Error,
      h _ (Embed "text-embedding-3-small" query) = Rejected e ->
      run h (hybridSearch query options) =
      ([Called (Embed "text-embedding-3-small" query);
        Logged "Error generating embedding:" e], Threw e)).
Proof.
  unfold calls. rewrite run_hybridSearch. split.
  - destruct (h _ (Embed "text-embedding-3-small" query)) as [emb|e].
    + cbv zeta.
      match goal with
      | |- context [h _ (PoolQueryAll ?qv ?qk)] =>
          destruct (h _ (PoolQueryAll qv qk)); eexists; reflexivity
      end.
    + eexists; reflexivity.
  - intros e He. rewrite He. reflexivity.
Qed.

Lemma embedding_failure_fails_search_witness :
  let h := Fixtures.scripted "YES" "" (Some "embedding service unavailable")
             [Fixtures.supportArticle] [Fixtures.customerDocs] in
  run h (hybridSearch "deployment process" SearchOptions.empty) =
  ([Called (Embed "text-embedding-3-small" "deployment process");
    Logged "Error generating embedding:" "embedding service unavailable"],
   Threw "embedding service unavailable").
Proof.
  intros h.
  apply (proj2 (embedding_failure_fails_search h "deployment process"
                  SearchOptions.empty)).
  reflexivity.
Defined.

(* ===================================================================== *)
(** ** The customer-safe flag through retrieval                           *)
(* ===================================================================== *)

Section SafeRows.
Import Js.

Lemma firstn_Forall (A : Type) (P : A -> Prop) (n : nat) (l : list A) :
  Forall P l -> Forall P (firstn n l).
Proof.
  intros H. rewrite <- (firstn_skipn n l) in H.
  apply Forall_app in H. exact (proj1 H).
Qed.

Lemma filter_Forall (A : Type) (P : A -> Prop) (f : A -> bool) (l : list A) :
  Forall P l -> Forall P (filter f l).
Proof.
  rewrite !Forall_forall. intros H x Hx. apply filter_In in Hx. apply H, Hx.
Qed.

Lemma loop_invariant_on (P : ScoresMap -> Prop)
    (f : ScoresMap -> SearchResult.t -> nat -> ScoresMap)
    (results : list SearchResult.t) :
  (forall m r i, In r results -> P m -> P (f m r i)) ->
  forall i m, P m -> P (forEachFrom i f results m).
Proof.
  induction results as [|r rest IH]; intros Hstep i m Hm; simpl.
  - exact Hm.
  - apply IH.
    + intros m' r' i' Hin. apply Hstep. right. exact Hin.
    + apply Hstep; [left; reflexivity | exact Hm].
Qed.

(** Fusion copies every field but [similarity] from its inputs. *)
Lemma reciprocalRankFusion_safe (k : Q)
    (vectorResults keywordResults : list SearchResult.t) :
  allCustomerSafe vectorResults -> allCustomerSafe keywordResults ->
  allCustomerSafe (reciprocalRankFusion k vectorResults keywordResults).
Proof.
  intros Hv Hk. unfold allCustomerSafe in *. rewrite Forall_forall in Hv, Hk.
  set (safeEntry := fun p : Z * Entry.t =>
                      SearchResult.is_customer_safe (Entry.result (snd p)) = true).
  assert (Hmap : Forall safeEntry (fuse k vectorResults keywordResults)).
  { unfold fuse, forEach.
    apply (@loop_invariant_on (Forall safeEntry)).
    - intros m r i Hr Hm. unfold addKeyword.
      destruct (mapGet (SearchResult.id r) m) as [existing|] eqn:Hget.
      + apply mapSet_Forall; [|exact Hm].
        apply mapGet_In in Hget. rewrite Forall_forall in Hm.
        exact (Hm _ Hget).
      + apply mapSet_Forall; [exact (Hk r Hr) | exact Hm].
    - apply (@loop_invariant_on (Forall safeEntry)).
      + intros m r i Hr Hm. apply mapSet_Forall; [exact (Hv r Hr) | exact Hm].
      + constructor. }
  unfold reciprocalRankFusion. apply Forall_map.
  apply (Permutation_Forall
           (Permutation_sym (fusedSorted_perm k vectorResults keywordResults))).
  unfold mapValues. apply Forall_map.
  eapply Forall_impl; [|exact Hmap]. intros p Hp. exact Hp.
Qed.

Lemma clause_in_vectorQuery (e : Embedding) (channelId : option string) (limit : Z) :
  Contains customerSafeClause (SqlQuery.sql (vectorQuery e true channelId limit)).
Proof. eexists. eexists. reflexivity. Qed.

Lemma clause_in_keywordQuery (query : string) (channelId : option string) (limit : Z) :
  Contains customerSafeClause (SqlQuery.sql (keywordQuery query true channelId limit)).
Proof. eexists. eexists. reflexivity. Qed.

Lemma clause_in_knowledgeQuery (e : Embedding) (sourceOfTruthOnly : bool)
    (channelId : option string) (limit : Z) :
  Contains customerSafeClause
    (SqlQuery.sql (knowledgeQuery e true sourceOfTruthOnly channelId limit)).
Proof. eexists. eexists. reflexivity. Qed.

End SafeRows.

Section RoutePaths.
Import Routes.

(** The search of the route in customer mode: its store queries carry
    the clause, and over a store that evaluates it the results are
    customer-safe. *)
Lemma askSearch_customer (h : Handler) (useHybrid : bool) (question : string)
    (limit : Z) (minSimilarity : Q) :
  Forall carriesCustomerSafeClause
    (calls h (askSearch useHybrid question customer limit minSimilarity)) /\
  (honoursCustomerSafe h ->
   forall results,
     outcome h (askSearch useHybrid question customer limit minSimilarity)
       = Returned results ->
     allCustomerSafe results).
Proof.
  unfold askSearch, calls, outcome. destruct useHybrid.
  - rewrite run_hybridSearch. simpl orDefault. cbv zeta.
    destruct (h _ (Embed "text-embedding-3-small" question)) as [emb|e].
    + match goal with
      | |- context [h _ (PoolQueryAll ?qv ?qk)] =>
          destruct (h _ (PoolQueryAll qv qk)) as [rows|e] eqn:Hrows
      end.
      * split.
        -- repeat constructor;
             [apply clause_in_vectorQuery | apply clause_in_keywordQuery].
        -- intros [_ Hstore] results [= <-].
           destruct (Hstore _ _ _ Hrows) as [Hv Hk].
           apply firstn_Forall, filter_Forall, reciprocalRankFusion_safe;
             [apply Hv, clause_in_vectorQuery | apply Hk, clause_in_keywordQuery].
      * split; [|discriminate].
        repeat constructor;
          [apply clause_in_vectorQuery | apply clause_in_keywordQuery].
    + split; [repeat constructor | discriminate].
  - rewrite run_searchKnowledge. simpl orDefault. cbv zeta.
    destruct (h _ (Embed "text-embedding-3-small" question)) as [emb|e].
    + match goal with
      | |- context [h _ (PoolQuery ?q)] =>
          destruct (h _ (PoolQuery q)) as [rows|e] eqn:Hrows
      end.
      * split.
        -- repeat constructor. apply clause_in_knowledgeQuery.
        -- intros [Hstore _] results [= <-].
           apply firstn_Forall, filter_Forall.
           apply (Hstore _ _ Hrows), clause_in_knowledgeQuery.
      * split; [|discriminate].
        repeat constructor. apply clause_in_knowledgeQuery.
    + split; [repeat constructor | discriminate].
Qed.

(** The calls of the search of the route: the embedding call, then, if
    that one is fulfilled, the store query with the flag of the mode. *)
Lemma askSearch_calls (h : Handler) (useHybrid : bool) (question : string)
    (mode : Mode) (limit : Z) (minSimilarity : Q) :
  calls h (askSearch useHybrid question mode limit minSimilarity) =
  match h _ (Embed "text-embedding-3-small" question) with
  | Rejected e =>
      [Called (Embed "text-embedding-3-small" question);
       Logged "Error generating embedding:" e]
  | Fulfilled queryEmbedding =>
      [Called (Embed "text-embedding-3-small" question);
       if useHybrid
       then Called (PoolQueryAll
                      (vectorQuery queryEmbedding (isCustomer mode) None limit)
                      (keywordQuery question (isCustomer mode) None limit))
       else Called (PoolQuery
                      (knowledgeQuery queryEmbedding (isCustomer mode) false None limit))]
  end.
Proof.
  unfold askSearch, calls. destruct useHybrid.
  - rewrite run_hybridSearch. simpl orDefault. cbv zeta.
    destruct (h _ (Embed "text-embedding-3-small" question)) as [emb|e];
      [|reflexivity].
    match goal with
    | |- context [h _ (PoolQueryAll ?qv ?qk)] =>
        destruct (h _ (PoolQueryAll qv qk)); reflexivity
    end.
  - rewrite run_searchKnowledge. simpl orDefault. cbv zeta.
    destruct (h _ (Embed "text-embedding-3-small" question)) as [emb|e];
      [|reflexivity].
    match goal with
    | |- context [h _ (PoolQuery ?q)] =>
        destruct (h _ (PoolQuery q)); reflexivity
    end.
Qed.

Lemma prefix_app (needle post : string) : prefix needle (needle ++ post) = true.
Proof.
  induction needle as [|c t IH]; simpl; [destruct post; reflexivity|].
  destruct (ascii_dec c c) as [_|Hne]; [exact IH | contradiction].
Qed.

Lemma includes_Contains (needle s : string) :
  Contains needle s -> Text.includes needle s = true.
Proof.
  assert (Hunfold : forall s',
             Text.includes needle s' =
             prefix needle s' || match s' with
                                 | EmptyString => false
                                 | String _ t => Text.includes needle t
                                 end)
    by (intros s'; destruct s'; reflexivity).
  intros [pre [post ->]]. induction pre as [|c t IH].
  - rewrite Hunfold. change ("" ++ needle ++ post) with (needle ++ post).
    rewrite prefix_app. reflexivity.
  - change (String c t ++ needle ++ post) with (String c (t ++ needle ++ post)).
    rewrite Hunfold, IH. apply orb_true_r.
Qed.

(** The store of the fixtures evaluates the clause. *)
Lemma filtering_honours (verdict rawAnswer : string)
    (vectorRows keywordRows : list SearchResult.t) :
  honoursCustomerSafe (Fixtures.filtering verdict rawAnswer vectorRows keywordRows).
Proof.
  assert (Hsel : forall sql rows,
             Contains customerSafeClause sql ->
             allCustomerSafe (Fixtures.selectRows sql rows)).
  { intros sql rows Hc. unfold Fixtures.selectRows.
    rewrite (includes_Contains Hc). unfold allCustomerSafe.
    apply Forall_forall. intros r Hr. apply filter_In in Hr. exact (proj2 Hr). }
  split.
  - intros q rows [= <-] Hc. apply Hsel, Hc.
  - intros qv qk rows [= <-]. split; intros Hc; apply Hsel, Hc.
Qed.

Lemma generateAnswer_calls_carry (h : Handler) (query : string)
    (searchResults : list SearchResult.t) (mode : Mode) :
  Forall carriesCustomerSafeClause
    (calls h (generateAnswerWithCitations query searchResults mode)).
Proof.
  unfold calls. rewrite run_generateAnswer. cbv zeta.
  destruct (List.length searchResults =? 0)%nat; [constructor|].
  destruct (isCustomer mode && _); [constructor|].
  destruct (h _ (GenerateText (relevanceRequest _ _))); [|repeat constructor].
  destruct (negb _); [repeat constructor|].
  destruct (h _ (GenerateText (answerRequest _ _ _))); repeat constructor.
Qed.

(** The handler of the route once the body has passed validation. *)
Lemma run_ask (h : Handler) (body : AskQuestionBody.t) (c : ascii) (q : string)
    (mode : Mode) :
  AskQuestionBody.question body = Some (String c q) ->
  parseMode (orDefault "internal" (AskQuestionBody.mode body)) = Some mode ->
  let question := String c q in
  let useHybrid := orDefault true (AskQuestionBody.useHybrid body) in
  let search :=
    askSearch useHybrid question mode
      (orDefault 5%Z (AskQuestionBody.limit body))
      (orDefault (2 # 10) (AskQuestionBody.minSimilarity body)) in
  let failed := mkResponse 500 (ErrorJson "Failed to process question") in
  run h (ask body) =
  match run h search with
  | (cs, Threw _) => (cs, Returned failed)
  | (cs, Returned results) =>
      match run h (generateAnswerWithCitations question results mode) with
      | (cs', Threw _) => ((cs ++ cs')%list, Returned failed)
      | (cs', Returned answer) =>
          ((cs ++ cs')%list,
           Returned (mkResponse 200 (askJson question useHybrid answer)))
      end
  end.
Proof.
  intros Hq Hmode question useHybrid search failed.
  unfold ask. rewrite Hq, Hmode.
  rewrite run_tryCatch, run_bind. fold question. fold useHybrid. fold search.
  destruct (run h search) as [cs [results|e]].
  - rewrite run_bind.
    destruct (run h (generateAnswerWithCitations question results mode))
      as [cs' [answer|e]]; simpl.
    + rewrite app_nil_r. reflexivity.
    + rewrite app_nil_r. reflexivity.
  - simpl. rewrite app_nil_r. reflexivity.
Qed.

End RoutePaths.

(* ===================================================================== *)
(** ** Properties of the POST /ask route                                  *)
(* ===================================================================== *)

Import Routes.

(** C10. A request to POST /ask with [mode = customer] searches with
    [customerSafeOnly = true].  Its first call is the embedding call, and
    when that call is fulfilled its second call is the store query of the
    chosen search, built with [customerSafeOnly = true]; every store
    query the request issues carries the customer-safe clause.  Over a
    store that evaluates the clause, the search results handed to
    [generateAnswerWithCitations] are all customer-safe, so the mode
    filter keeps all of them, the guard of the internal-only return cannot
    hold once the results are non-empty, and the only return without a
    generation call is the one for an empty result list.  When the search
    finds nothing, the response carries the message of the empty result
    list, not the internal-only one. *)
Theorem customer_route_filters_at_the_store (h : Handler)
    (body : AskQuestionBody.t) (question : string) :
  honoursCustomerSafe h ->
  AskQuestionBody.question body = Some question ->
  question <> "" ->
  AskQuestionBody.mode body = Some "customer" ->
  let useHybrid := orDefault true (AskQuestionBody.useHybrid body) in
  let search :=
    askSearch useHybrid question customer
      (orDefault 5%Z (AskQuestionBody.limit body))
      (orDefault (2 # 10) (AskQuestionBody.minSimilarity body)) in
  (exists later,
      calls h (ask body) =
      Called (Embed "text-embedding-3-small" question) :: later) /\
  (forall queryEmbedding,
      h _ (Embed "text-embedding-3-small" question) = Fulfilled queryEmbedding ->
      let limit := orDefault 5%Z (AskQuestionBody.limit body) in
      exists later,
        calls h (ask body) =
        Called (Embed "text-embedding-3-small" question)
        :: (if useHybrid
            then Called (PoolQueryAll
                           (vectorQuery queryEmbedding true None limit)
                           (keywordQuery question true None limit))
            else Called (PoolQuery
                           (knowledgeQuery queryEmbedding true false None limit)))
        :: later) /\
  Forall carriesCustomerSafeClause (calls h (ask body)) /\
  (forall results,
      outcome h search = Returned results ->
      allCustomerSafe results /\
      relevantResultsOf customer results = results /\
      (results <> [] ->
       isCustomer customer
         && (List.length (relevantResultsOf customer results) =? 0)%nat = false) /\
      (forall answer,
          outcome h (generateAnswerWithCitations question results customer)
            = Returned answer ->
          calls h (generateAnswerWithCitations question results customer) = [] ->
          results = [] /\ answer = earlyReturn emptyResultsMessage customer) /\
      outcome h (ask body) =
      match outcome h (generateAnswerWithCitations question results customer) with
      | Returned answer => Returned (mkResponse 200 (askJson question useHybrid answer))
      | Threw _ => Returned (mkResponse 500 (ErrorJson "Failed to process question"))
      end) /\
  (outcome h search = Returned [] ->
   outcome h (ask body) =
   Returned (mkResponse 200
               (AskJson question emptyResultsMessage customer
                  (if useHybrid then "hybrid" else "vector") false []))).
Proof.
  intros Hstore Hq Hne Hmode useHybrid search.
  destruct question as [|c q]; [contradiction|].
  assert (Hparse : parseMode (orDefault "internal" (AskQuestionBody.mode body))
                   = Some customer) by (rewrite Hmode; reflexivity).
  pose proof (run_ask h body Hq Hparse) as Hrun. cbv zeta in Hrun.
  fold useHybrid in Hrun. fold search in Hrun.
  destruct (askSearch_customer h useHybrid (String c q)
              (orDefault 5%Z (AskQuestionBody.limit body))
              (orDefault (2 # 10) (AskQuestionBody.minSimilarity body)))
    as [Hcalls Hsafe].
  fold search in Hcalls, Hsafe. specialize (Hsafe Hstore).
  assert (Hfirst : exists later, calls h (ask body) = (calls h search ++ later)%list).
  { unfold calls. rewrite Hrun. destruct (run h search) as [cs [results|e]]; simpl.
    - destruct (run h (generateAnswerWithCitations (String c q) results customer))
        as [cs' [answer|e]]; exists cs'; reflexivity.
    - exists []. rewrite app_nil_r. reflexivity. }
  pose proof (askSearch_calls h useHybrid (String c q) customer
                (orDefault 5%Z (AskQuestionBody.limit body))
                (orDefault (2 # 10) (AskQuestionBody.minSimilarity body))) as Hsearch.
  fold search in Hsearch. simpl isCustomer in Hsearch.
  split; [|split].
  { destruct Hfirst as [later ->]. rewrite Hsearch.
    destruct (h _ (Embed "text-embedding-3-small" (String c q)));
      eexists; reflexivity. }
  { intros queryEmbedding Hemb limit. destruct Hfirst as [later ->].
    rewrite Hsearch, Hemb. exists later. reflexivity. }
  clear Hfirst Hsearch.
  unfold calls, outcome in *.
  split; [|split].
  - rewrite Hrun. destruct (run h search) as [cs [results|e]]; simpl in *.
    + pose proof (generateAnswer_calls_carry h (String c q) results customer) as Hgen.
      unfold calls in Hgen.
      destruct (run h (generateAnswerWithCitations (String c q) results customer))
        as [cs' [answer|e]]; simpl in *; apply Forall_app; split; assumption.
    + exact Hcalls.
  - intros results Hres.
    assert (Hall : allCustomerSafe results) by (apply Hsafe, Hres).
    assert (Hkeep : relevantResultsOf customer results = results).
    { unfold relevantResultsOf. simpl. apply filter_all.
      unfold allCustomerSafe in Hall. rewrite Forall_forall in Hall. exact Hall. }
    split; [exact Hall|]. split; [exact Hkeep|]. split; [|split].
    + intros Hnonempty. rewrite Hkeep. simpl.
      destruct results; [contradiction | reflexivity].
    + intros answer Hanswer Hnone.
      apply generateAnswer_returned in Hanswer. unfold calls in Hanswer.
      rewrite Hnone, Hkeep in Hanswer.
      destruct Hanswer as [[-> [-> _]] | [[_ [_ [Hnonempty [Hempty _]]]]
                          | [[check [_ [_ [_ Hmade]]]]
                          | [check [raw [_ [_ [_ [_ [_ Hmade]]]]]]]]]].
      * split; reflexivity.
      * contradiction.
      * discriminate Hmade.
      * discriminate Hmade.
    + rewrite Hrun. destruct (run h search) as [cs [results'|e]]; simpl in *.
      * injection Hres as ->.
        destruct (run h (generateAnswerWithCitations (String c q) results customer))
          as [cs' [answer|e]]; reflexivity.
      * discriminate Hres.
  - intros Hres. rewrite Hrun.
    destruct (run h search) as [cs [results'|e]]; simpl in *; [|discriminate Hres].
    injection Hres as ->. reflexivity.
Qed.

Lemma customer_route_filters_at_the_store_witness :
  let question := "What is the deployment process?" in
  let body := AskQuestionBody.mk (Some question) (Some "customer") None None None in
  (* a store with rows of both kinds in either channel *)
  let h := Fixtures.filtering "YES" "Ask support [1]."
             [Fixtures.internalNotes; Fixtures.supportArticle]
             [Fixtures.customerDocs; Fixtures.planningNotes] in
  (* a store with internal rows only *)
  let h' := Fixtures.filtering "YES" "Ask support [1]."
              [Fixtures.internalNotes] [Fixtures.planningNotes] in
  honoursCustomerSafe h /\
  (exists later,
      calls h (ask body) =
      Called (Embed "text-embedding-3-small" question)
      :: Called (PoolQueryAll (vectorQuery [1 # 2; 1 # 3] true None 5)
                              (keywordQuery question true None 5))
      :: later) /\
  Forall carriesCustomerSafeClause (calls h (ask body)) /\
  outcome h (askSearch true question customer 5 (2 # 10)) =
    Returned [SearchResult.withSimilarity Fixtures.supportArticle (61 # 61);
              SearchResult.withSimilarity Fixtures.customerDocs (61 # 61)] /\
  outcome h (ask body) =
    Returned (mkResponse 200
                (AskJson question "Ask support [1]." customer "hybrid" true
                   [CitationJson.mk 1 "msg_2" "Official support article"
                      (Some "Test User") (Some 0%Z)
                      (Some "https://slack.com/msg_2") true])) /\
  outcome h' (ask body) =
    Returned (mkResponse 200
                (AskJson question emptyResultsMessage customer "hybrid" false [])).
Proof.
  intros question body h h'.
  assert (Hstore : honoursCustomerSafe h) by apply filtering_honours.
  assert (Hstore' : honoursCustomerSafe h') by apply filtering_honours.
  assert (Hne : question <> "") by discriminate.
  pose proof (@customer_route_filters_at_the_store h body question
                Hstore eq_refl Hne eq_refl)
    as [_ [Hquery [Hcalls _]]].
  pose proof (@customer_route_filters_at_the_store h' body question
                Hstore' eq_refl Hne eq_refl)
    as [_ [_ [_ [_ Hempty]]]].
  split; [exact Hstore|].
  split; [exact (Hquery [1 # 2; 1 # 3] eq_refl)|].
  split; [exact Hcalls|].
  split; [vm_compute; reflexivity|].
  split; [vm_compute; reflexivity|].
  apply Hempty. vm_compute. reflexivity.
Defined.

(* ===================================================================== *)
(** ** Properties of [chunkMessages]                                      *)
(* ===================================================================== *)

Section ChunkerFacts.
Import Chunker.

Lemma threadsPush_keys (key : string) (msg : SlackMessage.t) (m : ThreadsMap) :
  map fst (threadsPush key msg m) = map fst m.
Proof.
  induction m as [|[k' arr] rest IH]; simpl; [reflexivity|].
  destruct (String.eqb key k'); simpl; congruence.
Qed.

Lemma threadsHas_In (key : string) (m : ThreadsMap) :
  threadsHas key m = true <-> In key (map fst m).
Proof.
  unfold threadsHas. rewrite existsb_exists, in_map_iff. split.
  - intros [p [Hp Heq]]. apply String.eqb_eq in Heq. exists p. auto.
  - intros [p [Heq Hp]]. exists p. split; [exact Hp|].
    apply String.eqb_eq. auto.
Qed.

(** Pushing under a key that is there adds the message to the arrays;
    under a key that is not there it changes nothing. *)
Lemma threadsPush_perm (key : string) (msg : SlackMessage.t) (m : ThreadsMap) :
  threadsHas key m = true ->
  Permutation (flat_map snd (threadsPush key msg m)) (msg :: flat_map snd m).
Proof.
  induction m as [|[k' arr] rest IH]; simpl; [discriminate|].
  destruct (String.eqb key k') eqn:Hk; simpl.
  - intros _. rewrite <- app_assoc. simpl.
    apply Permutation_sym, Permutation_middle.
  - intros Hrest. specialize (IH Hrest).
    eapply Permutation_trans; [apply Permutation_app_head, IH|].
    apply Permutation_sym, Permutation_middle.
Qed.

Lemma threadsPush_absent (key : string) (msg : SlackMessage.t) (m : ThreadsMap) :
  threadsHas key m = false -> threadsPush key msg m = m.
Proof.
  induction m as [|[k' arr] rest IH]; simpl; [reflexivity|].
  destruct (String.eqb key k'); simpl; [discriminate|].
  intros H. rewrite (IH H). reflexivity.
Qed.

Lemma groupStep_perm (g : Groups) (msg : SlackMessage.t) :
  Permutation (groupedMessages (groupStep g msg)) (msg :: groupedMessages g).
Proof.
  destruct g as [tm sa]. unfold groupStep, groupedMessages.
  assert (Hsa : Permutation (flat_map snd tm ++ sa ++ [msg]) (msg :: flat_map snd tm ++ sa)).
  { rewrite app_assoc. apply Permutation_sym, Permutation_cons_append. }
  destruct (SlackMessage.thread_ts msg) as [ts|]; [|exact Hsa].
  destruct (truthy (Some ts)); [|exact Hsa]. simpl fst. simpl snd.
  apply (Permutation_app_tail sa (l' := msg :: flat_map snd tm)).
  destruct (threadsHas ts tm) eqn:Hhas; simpl negb; cbv iota.
  - apply threadsPush_perm, Hhas.
  - eapply Permutation_trans.
    + apply threadsPush_perm. unfold threadsHas.
      rewrite existsb_app. simpl. rewrite String.eqb_refl.
      rewrite orb_true_r. reflexivity.
    + rewrite flat_map_app. simpl. rewrite !app_nil_r. apply Permutation_refl.
Qed.

Lemma groupFold_perm (messages : list SlackMessage.t) (g : Groups) :
  Permutation (groupedMessages (fold_left groupStep messages g))
              (groupedMessages g ++ messages).
Proof.
  revert g. induction messages as [|msg rest IH]; intros g; simpl.
  - rewrite app_nil_r. apply Permutation_refl.
  - eapply Permutation_trans; [apply IH|].
    eapply Permutation_trans; [apply Permutation_app_tail, groupStep_perm|].
    simpl. apply Permutation_middle.
Qed.

End ChunkerFacts.

Section ChunkerGrouping.
Import Chunker.

Lemma replyKey_isReply (msg : SlackMessage.t) :
  isReply msg = match replyKey msg with Some _ => true | None => false end.
Proof.
  unfold isReply, replyKey.
  destruct (SlackMessage.thread_ts msg) as [ts|]; [|reflexivity].
  destruct (truthy (Some ts)); reflexivity.
Qed.

Lemma replyKey_isReplyOf (key : string) (msg : SlackMessage.t) :
  isReplyOf key msg =
  match replyKey msg with Some t => String.eqb t key | None => false end.
Proof.
  unfold isReplyOf, replyKey.
  destruct (SlackMessage.thread_ts msg) as [ts|]; [|reflexivity].
  destruct (truthy (Some ts)); reflexivity.
Qed.

Lemma groupStep_replyKey (g : Groups) (msg : SlackMessage.t) :
  groupStep g msg =
  match replyKey msg with
  | Some key =>
      (threadsPush key msg
         (if negb (threadsHas key (fst g)) then (fst g ++ [(key, [])])%list else fst g),
       snd g)
  | None => (fst g, (snd g ++ [msg])%list)
  end.
Proof.
  destruct g as [tm sa]. unfold groupStep, replyKey.
  destruct (SlackMessage.thread_ts msg) as [ts|]; [|reflexivity].
  destruct (truthy (Some ts)); reflexivity.
Qed.

Lemma threadKeys_cons (msg : SlackMessage.t) (rest : list SlackMessage.t) :
  threadKeys (msg :: rest) =
  match replyKey msg with
  | Some key => key :: filter (fun k => negb (String.eqb k key)) (threadKeys rest)
  | None => threadKeys rest
  end.
Proof.
  simpl. unfold replyKey.
  destruct (SlackMessage.thread_ts msg) as [[|c t]|]; reflexivity.
Qed.

Lemma threadKeys_In (key : string) (messages : list SlackMessage.t) :
  In key (threadKeys messages) <->
  exists msg, In msg messages /\ replyKey msg = Some key.
Proof.
  induction messages as [|m rest IH].
  - simpl. split; [intros [] | intros [x [[] _]]].
  - rewrite threadKeys_cons. destruct (replyKey m) as [k0|] eqn:Hk0.
    + simpl. rewrite filter_In, IH. split.
      * intros [<-|[[x [Hx Hkey]] _]]; [exists m; auto | exists x; auto].
      * intros [x [[<-|Hx] Hkey]].
        -- left. congruence.
        -- destruct (String.eqb key k0) eqn:E.
           ++ left. apply String.eqb_eq in E. auto.
           ++ right. split; [exists x; auto | reflexivity].
    + rewrite IH. split.
      * intros [x [Hx Hkey]]. exists x. split; [right; exact Hx | exact Hkey].
      * intros [x [[<-|Hx] Hkey]]; [congruence | exists x; auto].
Qed.

Lemma threadKeys_NoDup (messages : list SlackMessage.t) :
  NoDup (threadKeys messages).
Proof.
  induction messages as [|m rest IH]; [constructor|].
  rewrite threadKeys_cons. destruct (replyKey m) as [k0|]; [|exact IH].
  constructor; [|apply NoDup_filter, IH].
  intros Hin. apply filter_In in Hin as [_ Hne].
  rewrite String.eqb_refl in Hne. discriminate.
Qed.

Lemma hasString_In (key : string) (keys : list string) :
  hasString key keys = true <-> In key keys.
Proof.
  unfold hasString. rewrite existsb_exists. split.
  - intros [x [Hx Heq]]. apply String.eqb_eq in Heq. subst. exact Hx.
  - intros H. exists key. split; [exact H | apply String.eqb_refl].
Qed.

Lemma threadKeys_snoc (messages : list SlackMessage.t) (msg : SlackMessage.t) :
  threadKeys (messages ++ [msg]) =
  match replyKey msg with
  | Some key =>
      if hasString key (threadKeys messages) then threadKeys messages
      else (threadKeys messages ++ [key])%list
  | None => threadKeys messages
  end.
Proof.
  induction messages as [|m rest IH].
  - simpl app. rewrite threadKeys_cons. simpl.
    destruct (replyKey msg); reflexivity.
  - change ((m :: rest) ++ [msg])%list with (m :: (rest ++ [msg]))%list.
    rewrite !threadKeys_cons, IH.
    destruct (replyKey m) as [k0|] eqn:Hk0; [|reflexivity].
    destruct (replyKey msg) as [k|] eqn:Hk; [|reflexivity].
    set (keep := fun k' => negb (String.eqb k' k0)).
    assert (Hhas : hasString k (k0 :: filter keep (threadKeys rest)) =
                   String.eqb k k0 || hasString k (threadKeys rest)).
    { unfold hasString at 1. simpl. destruct (String.eqb k k0) eqn:E; [reflexivity|].
      simpl. fold (hasString k (filter keep (threadKeys rest))).
      destruct (hasString k (threadKeys rest)) eqn:H1.
      - apply hasString_In. apply filter_In. split.
        + apply hasString_In, H1.
        + unfold keep. rewrite E. reflexivity.
      - destruct (hasString k (filter keep (threadKeys rest))) eqn:H2; [|reflexivity].
        apply hasString_In, filter_In in H2 as [H2 _].
        apply hasString_In in H2. congruence. }
    rewrite Hhas.
    destruct (hasString k (threadKeys rest)) eqn:H1.
    + rewrite orb_true_r. reflexivity.
    + rewrite orb_false_r. rewrite filter_app. simpl. unfold keep at 2.
      destruct (String.eqb k k0) eqn:E; simpl.
      * rewrite app_nil_r. reflexivity.
      * reflexivity.
Qed.

Lemma threadsPush_app_last (key : string) (msg : SlackMessage.t)
    (m : ThreadsMap) (arr : list SlackMessage.t) :
  threadsHas key m = false ->
  threadsPush key msg (m ++ [(key, arr)])%list
  = (m ++ [(key, (arr ++ [msg])%list)])%list.
Proof.
  induction m as [|[k' a] rest IH]; simpl.
  - rewrite String.eqb_refl. reflexivity.
  - destruct (String.eqb key k'); simpl; [discriminate|].
    intros H. rewrite (IH H). reflexivity.
Qed.

(** Pushing under a key of a map built from distinct keys. *)
Lemma threadsPush_map (key : string) (msg : SlackMessage.t)
    (arrayOf : string -> list SlackMessage.t) (keys : list string) :
  NoDup keys ->
  threadsPush key msg (map (fun k => (k, arrayOf k)) keys) =
  map (fun k => (k, (arrayOf k ++ if String.eqb k key then [msg] else [])%list)) keys.
Proof.
  induction 1 as [|k0 rest Hnotin Hnd IH]; simpl; [reflexivity|].
  destruct (String.eqb key k0) eqn:E.
  - apply String.eqb_eq in E. subst k0. rewrite String.eqb_refl. f_equal.
    apply map_ext_in. intros k Hk.
    destruct (String.eqb k key) eqn:E'.
    + apply String.eqb_eq in E'. subst. contradiction.
    + rewrite app_nil_r. reflexivity.
  - rewrite String.eqb_sym, E, app_nil_r, IH. reflexivity.
Qed.

(** The loop computes the grouping. *)
Lemma groupMessages_groupsOf (messages : list SlackMessage.t) :
  groupMessages messages = groupsOf messages.
Proof.
  induction messages as [|msg rest IH] using rev_ind; [reflexivity|].
  unfold groupMessages in *. rewrite fold_left_app. simpl fold_left.
  rewrite IH, groupStep_replyKey. unfold groupsOf.
  rewrite threadKeys_snoc. cbn [fst snd].
  assert (Hsa : filter (fun m => negb (isReply m)) (rest ++ [msg]) =
                (filter (fun m => negb (isReply m)) rest
                   ++ (if negb (isReply msg) then [msg] else []))%list)
    by (rewrite filter_app; reflexivity).
  rewrite Hsa, replyKey_isReply. clear Hsa.
  assert (Hkeys :
            forall key, threadsHas key
                          (map (fun k => (k, filter (isReplyOf k) rest)) (threadKeys rest))
                        = hasString key (threadKeys rest)).
  { intros key. unfold threadsHas, hasString.
    induction (threadKeys rest) as [|k0 l IHl]; simpl; congruence. }
  destruct (replyKey msg) as [key|] eqn:Hkey; simpl negb; cbv iota.
  - rewrite app_nil_r. f_equal. rewrite Hkeys.
    destruct (hasString key (threadKeys rest)) eqn:Hhas; simpl negb; cbv iota.
    + rewrite (threadsPush_map key msg (fun k => filter (isReplyOf k) rest)
                 (threadKeys_NoDup rest)).
      apply map_ext. intros k. rewrite filter_app. simpl.
      rewrite replyKey_isReplyOf, Hkey, String.eqb_sym.
      reflexivity.
    + rewrite threadsPush_app_last by (rewrite Hkeys; exact Hhas).
      rewrite map_app. simpl. f_equal.
      * apply map_ext_in. intros k Hk. rewrite filter_app. simpl.
        rewrite replyKey_isReplyOf, Hkey.
        destruct (String.eqb key k) eqn:E.
        -- apply String.eqb_eq in E. subst k.
           apply hasString_In in Hk. congruence.
        -- rewrite app_nil_r. reflexivity.
      * f_equal. f_equal. rewrite filter_app. simpl.
        rewrite replyKey_isReplyOf, Hkey, String.eqb_refl.
        assert (Hnone : forall x, In x rest -> isReplyOf key x = false).
        { intros x Hx. rewrite replyKey_isReplyOf.
          destruct (replyKey x) as [t|] eqn:Ht; [|reflexivity].
          destruct (String.eqb t key) eqn:E; [|reflexivity].
          apply String.eqb_eq in E. subst t.
          assert (In key (threadKeys rest))
            by (apply threadKeys_In; exists x; auto).
          apply hasString_In in H. congruence. }
        assert (Hempty : filter (isReplyOf key) rest = []).
        { clear -Hnone. induction rest as [|x l IHl]; [reflexivity|].
          simpl. rewrite (Hnone x (or_introl eq_refl)).
          apply IHl. intros y Hy. apply Hnone. right. exact Hy. }
        rewrite Hempty. reflexivity.
  - f_equal. apply map_ext. intros k. rewrite filter_app. simpl.
    rewrite replyKey_isReplyOf, Hkey, app_nil_r. reflexivity.
Qed.

End ChunkerGrouping.

Import Chunker.

(** X1. [chunkMessages] returns one chunk per thread, in the order in
    which the values of [thread_ts] first occur, each holding the
    messages that carry that [thread_ts] in input order, and after them
    one chunk per message without [thread_ts], in input order. *)
Theorem chunkMessages_grouping (messages : list SlackMessage.t) :
  chunkMessages messages =
  (map (fun key => threadChunk (key, filter (isReplyOf key) messages))
       (threadKeys messages)
   ++ map standaloneChunk (filter (fun msg => negb (isReply msg)) messages))%list.
Proof.
  unfold chunkMessages. rewrite groupMessages_groupsOf. unfold groupsOf.
  rewrite map_map. reflexivity.
Qed.

(** X2. Chunking loses and repeats nothing: the messages of the chunks,
    taken together, are the input messages, each exactly as often as in
    the input. *)
Theorem chunkMessages_partition (messages : list SlackMessage.t) :
  Permutation (flat_map MessageChunk.messages (chunkMessages messages)) messages.
Proof.
  unfold chunkMessages.
  pose proof (groupFold_perm messages ([], [])) as Hperm.
  fold (groupMessages messages) in Hperm. unfold groupedMessages in Hperm.
  destruct (groupMessages messages) as [tm sa]. simpl in Hperm.
  rewrite flat_map_app.
  assert (Htm : flat_map MessageChunk.messages (map threadChunk tm) = flat_map snd tm).
  { clear. induction tm as [|[k arr] rest IH]; simpl; congruence. }
  assert (Hsa : flat_map MessageChunk.messages (map standaloneChunk sa) = sa).
  { clear. induction sa as [|m rest IH]; simpl; congruence. }
  rewrite Htm, Hsa. exact Hperm.
Qed.

Lemma replyKey_Some (msg : SlackMessage.t) (key : string) :
  replyKey msg = Some key ->
  SlackMessage.thread_ts msg = Some key /\ key <> "".
Proof.
  unfold replyKey. destruct (SlackMessage.thread_ts msg) as [[|c t]|]; simpl;
    try discriminate.
  intros [= <-]. split; [reflexivity | discriminate].
Qed.

(** X3. Every chunk is of one of two kinds.  A thread chunk carries a
    non-empty [threadTs], holds at least one message, and holds exactly
    the input messages whose [thread_ts] is that value, in input order:
    each of its messages is one of them, and each of them is in it.  The
    first message of a thread is in the thread chunk when it carries its
    own [ts] as [thread_ts], and is a chunk of its own when it carries no
    [thread_ts].  The content of a thread chunk is the texts of its
    messages joined by the separator line, and no two thread chunks share
    a [threadTs].  Any other chunk is a single input message without
    [thread_ts], with the text of that message as content. *)
Theorem chunkMessages_chunks (messages : list SlackMessage.t) (c : MessageChunk.t) :
  In c (chunkMessages messages) ->
  (MessageChunk.isThread c = true ->
   exists key,
     MessageChunk.threadTs c = Some key /\ key <> "" /\
     MessageChunk.messages c <> [] /\
     MessageChunk.messages c = filter (isReplyOf key) messages /\
     (forall msg, In msg (MessageChunk.messages c) <->
                  In msg messages /\ SlackMessage.thread_ts msg = Some key) /\
     MessageChunk.content c =
       Text.join threadSeparator (map SlackMessage.text (MessageChunk.messages c))) /\
  (MessageChunk.isThread c = false ->
   exists msg,
     In msg messages /\ Retrieval.truthy (SlackMessage.thread_ts msg) = false /\
     c = MessageChunk.mk (SlackMessage.text msg) [msg] false None) /\
  NoDup (map MessageChunk.threadTs
           (filter MessageChunk.isThread (chunkMessages messages))).
Proof.
  rewrite chunkMessages_grouping. intros Hin.
  split; [|split].
  - intros Hthread. apply in_app_or in Hin as [Hin|Hin].
    + apply in_map_iff in Hin as [key [<- Hkey]].
      apply threadKeys_In in Hkey as [m0 [Hm0 Hk0]].
      exists key. simpl.
      split; [reflexivity|]. split; [exact (proj2 (replyKey_Some _ Hk0))|].
      split; [|split; [reflexivity|split; [|reflexivity]]].
      * assert (In m0 (filter (isReplyOf key) messages)).
        { apply filter_In. split; [exact Hm0|].
          rewrite replyKey_isReplyOf, Hk0. apply String.eqb_refl. }
        intros Hnil. rewrite Hnil in H. destruct H.
      * intros msg. rewrite filter_In. split.
        -- intros [Hmsg Hrep]. split; [exact Hmsg|].
           rewrite replyKey_isReplyOf in Hrep.
           destruct (replyKey msg) as [t|] eqn:Ht; [|discriminate].
           apply String.eqb_eq in Hrep. subst t.
           exact (proj1 (replyKey_Some _ Ht)).
        -- intros [Hmsg Hts]. split; [exact Hmsg|].
           rewrite replyKey_isReplyOf. unfold replyKey. rewrite Hts.
           destruct key as [|c0 key'];
             [exfalso; apply (proj2 (replyKey_Some _ Hk0)); reflexivity|].
           cbn [truthy]. apply String.eqb_refl.
    + apply in_map_iff in Hin as [m [<- _]]. discriminate Hthread.
  - intros Hthread. apply in_app_or in Hin as [Hin|Hin].
    + apply in_map_iff in Hin as [key [<- _]]. discriminate Hthread.
    + apply in_map_iff in Hin as [m [<- Hm]].
      apply filter_In in Hm as [Hm Hrep].
      exists m. split; [exact Hm|]. split; [|reflexivity].
      unfold isReply in Hrep. destruct (Retrieval.truthy _); [discriminate|reflexivity].
  - rewrite filter_app, map_app.
    assert (Hsa : filter MessageChunk.isThread
                    (map standaloneChunk
                       (filter (fun msg => negb (isReply msg)) messages)) = []).
    { clear Hin.
      induction (filter (fun msg => negb (isReply msg)) messages) as [|m l IHl];
        [reflexivity | exact IHl]. }
    rewrite Hsa. simpl. rewrite app_nil_r.
    assert (Htm : forall keys,
               map MessageChunk.threadTs
                 (filter MessageChunk.isThread
                    (map (fun key => threadChunk (key, filter (isReplyOf key) messages))
                         keys)) = map Some keys).
    { induction keys as [|k l IHl]; [reflexivity|].
      change (Some k :: map MessageChunk.threadTs
                (filter MessageChunk.isThread
                   (map (fun key => threadChunk (key, filter (isReplyOf key) messages)) l))
              = Some k :: map Some l).
      rewrite IHl. reflexivity. }
    rewrite Htm.
    pose proof (threadKeys_NoDup messages) as Hnd. clear Hin Hsa Htm.
    induction Hnd as [|k l Hk _ IHl]; simpl; [constructor|].
    constructor; [|exact IHl].
    intros Hsome. apply in_map_iff in Hsome as [k' [[= ->] Hk']]. contradiction.
Qed.

Lemma chunkMessages_chunks_witness :
  (* the first message of thread 1000.000 carries no [thread_ts], the
     first message of thread 2000.000 carries its own [ts] *)
  let start1 := ChunkerFixtures.createMockMessage "Thread start" "1000.000" None in
  let reply1 :=
    ChunkerFixtures.createMockMessage "Thread reply 1" "1001.000" (Some "1000.000") in
  let start2 :=
    ChunkerFixtures.createMockMessage "Second start" "2000.000" (Some "2000.000") in
  let reply2 :=
    ChunkerFixtures.createMockMessage "Thread reply 2" "1003.000" (Some "1000.000") in
  let reply3 :=
    ChunkerFixtures.createMockMessage "Second reply" "2001.000" (Some "2000.000") in
  let messages := [start1; reply1; start2; reply2; reply3] in
  chunkMessages messages =
    [threadChunk ("1000.000", [reply1; reply2]);
     threadChunk ("2000.000", [start2; reply3]);
     standaloneChunk start1] /\
  In start2 (MessageChunk.messages (threadChunk ("2000.000", [start2; reply3]))) /\
  NoDup (map MessageChunk.threadTs
           (filter MessageChunk.isThread (chunkMessages messages))).
Proof.
  intros start1 reply1 start2 reply2 reply3 messages.
  set (c := threadChunk ("2000.000", [start2; reply3])).
  assert (Hin : In c (chunkMessages messages))
    by (vm_compute; right; left; reflexivity).
  destruct (chunkMessages_chunks messages c Hin) as [Hthread [_ Hdistinct]].
  split; [vm_compute; reflexivity|]. split; [|exact Hdistinct].
  destruct (Hthread eq_refl) as [key [Hkey [_ [_ [_ [Hall _]]]]]].
  injection Hkey as <-.
  apply Hall. split; [right; right; left; reflexivity | reflexivity].
Defined.

(* ===================================================================== *)
(** ** Properties of [classifyMessage] and [isCustomerSafe]               *)
(* ===================================================================== *)

Section ClassifierFacts.
Import Classifier.

Lemma run_classifyMessage (h : Handler) (content : string) :
  let call := Called (GenerateText (classifyRequest content)) in
  run h (classifyMessage content) =
  if tooShort content then
    ([], Returned (ClassificationResult.mk false "Message too short" false))
  else if isSystemMessage content then
    ([], Returned (ClassificationResult.mk false "System message" false))
  else
    match h _ (GenerateText (classifyRequest content)) with
    | Fulfilled text => ([call], Returned (parseClassification text))
    | Rejected e =>
        ([call; Logged "Error classifying message, using fallback:" e],
         Returned (fallbackClassification content))
    end.
Proof.
  intros call. unfold classifyMessage.
  destruct (tooShort content); [reflexivity|].
  destruct (isSystemMessage content); [reflexivity|].
  rewrite run_tryCatch, run_bind, run_await.
  destruct (h _ (GenerateText (classifyRequest content))); reflexivity.
Qed.

Lemma tooShort_length (content : string) :
  tooShort content = (utf16Length (trim content) <? 10)%nat.
Proof.
  unfold tooShort. destruct (String.eqb content "") eqn:E; [|reflexivity].
  apply String.eqb_eq in E. subst content. reflexivity.
Qed.

Lemma saysYes_line (lines : list string) (tag : string) :
  saysYes (find (prefix tag) lines) = true ->
  exists line, In line lines /\ prefix tag line = true /\ includes "YES" line = true.
Proof.
  destruct (find (prefix tag) lines) as [line|] eqn:Hfind; [|discriminate].
  intros Hyes. apply find_some in Hfind as [Hin Hpre].
  exists line. auto.
Qed.

Lemma splitLines_cons (c : ascii) (t : string) :
  splitLines (String c t) =
  if Ascii.eqb c "010" then EmptyString :: splitLines t
  else match splitLines t with
       | line :: lines => String c line :: lines
       | [] => [String c EmptyString]
       end.
Proof. reflexivity. Qed.

Lemma splitLines_app (line rest : string) :
  hasNewline line = false ->
  splitLines (line ++ nl ++ rest) = line :: splitLines rest.
Proof.
  induction line as [|c t IH]; intros Hno.
  - reflexivity.
  - simpl in Hno. apply orb_false_iff in Hno as [Hc Ht].
    change (splitLines (String c (t ++ nl ++ rest)) = String c t :: splitLines rest).
    rewrite splitLines_cons, Hc, (IH Ht). reflexivity.
Qed.

Lemma splitLines_single (line : string) :
  hasNewline line = false -> splitLines line = [line].
Proof.
  induction line as [|c t IH]; intros Hno; [reflexivity|].
  simpl in Hno. apply orb_false_iff in Hno as [Hc Ht].
  rewrite splitLines_cons, Hc, (IH Ht). reflexivity.
Qed.

Lemma substring_all (s : string) : substring 0 (String.length s) s = s.
Proof. induction s as [|c t IH]; simpl; congruence. Qed.

End ClassifierFacts.

Import Classifier.

(** X4. [classifyMessage] never throws, whatever the generation service
    does, and calls it at most once: it makes no call, or the one
    classification call, or that call followed by one [console.error]
    line when the call was rejected. *)
Theorem classifyMessage_never_throws (h : Handler) (content : string) :
  exists (r : ClassificationResult.t) (made : list Call),
    run h (classifyMessage content) = (made, Returned r) /\
    (made = [] \/
     made = [Called (GenerateText (classifyRequest content))] \/
     exists e, made = [Called (GenerateText (classifyRequest content));
                       Logged "Error classifying message, using fallback:" e]).
Proof.
  rewrite run_classifyMessage. cbv zeta.
  destruct (tooShort content); [eexists; eexists; split; [reflexivity | auto]|].
  destruct (isSystemMessage content); [eexists; eexists; split; [reflexivity | auto]|].
  destruct (h _ (GenerateText (classifyRequest content))) as [text|e].
  - eexists; eexists; split; [reflexivity | auto].
  - eexists; eexists; split; [reflexivity|]. right; right. exists e. reflexivity.
Qed.

(** X5. A message that, trimmed of the white space of Unicode, has
    fewer than 10 UTF-16 code units (the empty and the blank message
    among them), or that contains one of the four system phrases in any
    letter case, is classified without any call to the generation
    service: not indexed, not a source of truth. *)
Theorem classifyMessage_filtered_without_call (h : Handler) (content : string) :
  (utf16Length (trim content) < 10)%nat \/
  (exists phrase, In phrase systemPatterns /\ testIgnoreCase phrase content = true) ->
  exists reason,
    run h (classifyMessage content) =
    ([], Returned (ClassificationResult.mk false reason false)).
Proof.
  intros Hfiltered. rewrite run_classifyMessage. cbv zeta.
  rewrite tooShort_length.
  destruct (utf16Length (trim content) <? 10)%nat eqn:Hshort;
    [eexists; reflexivity|].
  destruct Hfiltered as [Hlt|[phrase [Hin Htest]]].
  - apply Nat.ltb_lt in Hlt. congruence.
  - assert (Hsys : isSystemMessage content = true).
    { unfold isSystemMessage. apply existsb_exists. exists phrase. auto. }
    rewrite Hsys. eexists; reflexivity.
Qed.

Lemma classifyMessage_filtered_without_call_witness :
  let h := Outage.allDown "generation service unavailable" in
  (exists reason,
      run h (classifyMessage "Dana HAS JOINED the channel") =
      ([], Returned (ClassificationResult.mk false reason false))) /\
  String.length Fixtures.nineLetters = 12%nat /\
  (exists reason,
      run h (classifyMessage Fixtures.nineLetters) =
      ([], Returned (ClassificationResult.mk false reason false))).
Proof.
  intros h. split; [|split; [reflexivity|]].
  - apply classifyMessage_filtered_without_call.
    right. exists "has joined the channel". split; [left; reflexivity | reflexivity].
  - apply classifyMessage_filtered_without_call.
    left. vm_compute. lia.
Defined.

(** X6. For a message that passes both filters (at least 10 UTF-16 code
    units when trimmed, no system phrase), a rejected generation call does
    not reach the caller: the error is written to [console.error], and the
    message is indexed exactly when its length, untrimmed, is at least 20
    UTF-16 code units, never as a source of truth. *)
Theorem classifyMessage_fallback (h : Handler) (content : string) (e : Error) :
  (10 <= utf16Length (trim content))%nat ->
  isSystemMessage content = false ->
  h _ (GenerateText (classifyRequest content)) = Rejected e ->
  run h (classifyMessage content) =
  ([Called (GenerateText (classifyRequest content));
    Logged "Error classifying message, using fallback:" e],
   Returned (ClassificationResult.mk (20 <=? utf16Length content)%nat
               "Fallback classification (AI error)" false)).
Proof.
  intros Hlong Hsys Hrej. rewrite run_classifyMessage. cbv zeta.
  rewrite tooShort_length, Hsys, Hrej.
  destruct (utf16Length (trim content) <? 10)%nat eqn:Hshort; [|reflexivity].
  apply Nat.ltb_lt in Hshort. lia.
Qed.

Lemma classifyMessage_fallback_witness :
  let h := Outage.allDown "generation service unavailable" in
  run h (classifyMessage "How do we deploy?") =
  ([Called (GenerateText (classifyRequest "How do we deploy?"));
    Logged "Error classifying message, using fallback:" "generation service unavailable"],
   Returned (ClassificationResult.mk false "Fallback classification (AI error)" false)) /\
  (* nine letters and a no-break space: trimmed to nine, no call *)
  run h (classifyMessage ("hello wor" ++ Fixtures.nbsp)) =
  ([], Returned (ClassificationResult.mk false "Message too short" false)).
Proof.
  intros h. split; [|reflexivity].
  apply (classifyMessage_fallback h "How do we deploy?"
           (e := "generation service unavailable")).
  - vm_compute. lia.
  - reflexivity.
  - reflexivity.
Defined.

(** X7. What a positive classification needs.  A message is indexed only
    if its trimmed text has at least 10 UTF-16 code units and it holds no
    system phrase, and then either the reply of the generation service has
    a line starting with SHOULD_INDEX: that contains YES, or the call was
    rejected and the message has at least 20 UTF-16 code units.  A message
    is a source of truth only if the reply has a line starting with
    SOURCE_OF_TRUTH: that contains YES. *)
Theorem classifyMessage_positive_needs (h : Handler) (content : string)
    (r : ClassificationResult.t) :
  outcome h (classifyMessage content) = Returned r ->
  (ClassificationResult.shouldIndex r = true ->
   (10 <= utf16Length (trim content))%nat /\
   isSystemMessage content = false /\
   ((exists text line,
        h _ (GenerateText (classifyRequest content)) = Fulfilled text /\
        In line (splitLines text) /\
        prefix "SHOULD_INDEX:" line = true /\ includes "YES" line = true) \/
    (exists e,
        h _ (GenerateText (classifyRequest content)) = Rejected e /\
        (20 <= utf16Length content)%nat))) /\
  (ClassificationResult.isSourceOfTruth r = true ->
   exists text line,
     h _ (GenerateText (classifyRequest content)) = Fulfilled text /\
     In line (splitLines text) /\
     prefix "SOURCE_OF_TRUTH:" line = true /\ includes "YES" line = true).
Proof.
  unfold outcome. rewrite run_classifyMessage. cbv zeta.
  rewrite tooShort_length.
  destruct (utf16Length (trim content) <? 10)%nat eqn:Hshort.
  { simpl. intros [= <-]. split; discriminate. }
  apply Nat.ltb_ge in Hshort.
  destruct (isSystemMessage content) eqn:Hsys.
  { simpl. intros [= <-]. split; discriminate. }
  destruct (h _ (GenerateText (classifyRequest content))) as [text|e] eqn:Hreply;
    simpl; intros [= <-]; simpl.
  - split.
    + intros Hyes. split; [exact Hshort|]. split; [reflexivity|]. left.
      apply saysYes_line in Hyes as [line [Hin [Hpre Hinc]]].
      exists text, line. auto.
    + intros Hyes. apply saysYes_line in Hyes as [line [Hin [Hpre Hinc]]].
      exists text, line. auto.
  - split; [|discriminate].
    intros Hlen. split; [exact Hshort|]. split; [reflexivity|]. right.
    exists e. split; [reflexivity|]. apply Nat.leb_le, Hlen.
Qed.

Lemma classifyMessage_positive_needs_witness :
  let h := Fixtures.generation
             (formattedReply true true "a final decision") "" in
  let content := "We decided to use PostgreSQL for our database" in
  outcome h (classifyMessage content) =
    Returned (ClassificationResult.mk true "a final decision" true) /\
  (10 <= utf16Length (trim content))%nat /\
  (* nine letters in twelve bytes: not indexed, whatever the reply *)
  outcome h (classifyMessage Fixtures.nineLetters) =
    Returned (ClassificationResult.mk false "Message too short" false).
Proof.
  intros h content.
  assert (Hout : outcome h (classifyMessage content) =
                 Returned (ClassificationResult.mk true "a final decision" true))
    by (vm_compute; reflexivity).
  split; [exact Hout|]. split; [|reflexivity].
  exact (proj1 (proj1 (classifyMessage_positive_needs h content Hout) eq_refl)).
Defined.

(** X8. A reply written in the format the prompt asks for is read back
    as written: three lines SHOULD_INDEX, SOURCE_OF_TRUTH and REASON, the
    reason without a line break, give the two answers and the reason
    trimmed of the white space of Unicode, or the default reason when the
    reason is blank. *)
Theorem parseClassification_formatted (index truth : bool) (reasonText : string) :
  hasNewline reasonText = false ->
  parseClassification (formattedReply index truth reasonText) =
  ClassificationResult.mk index
    (match trim reasonText with
     | EmptyString => "AI classification"
     | r => r
     end)
    truth.
Proof.
  intros Hno. unfold parseClassification, formattedReply.
  assert (H1 : hasNewline ("SHOULD_INDEX: " ++ yesNo index) = false)
    by (destruct index; reflexivity).
  assert (H2 : hasNewline ("SOURCE_OF_TRUTH: " ++ yesNo truth) = false)
    by (destruct truth; reflexivity).
  assert (H3 : hasNewline ("REASON: " ++ reasonText) = false) by exact Hno.
  rewrite (splitLines_app _ _ H1), (splitLines_app _ _ H2), (splitLines_single _ H3).
  assert (Hreason : trim (removeFirst "REASON:" ("REASON: " ++ reasonText))
                    = trim reasonText).
  { change (removeFirst "REASON:" ("REASON: " ++ reasonText))
      with (String " " (substring 0 (String.length reasonText) reasonText)).
    rewrite substring_all. reflexivity. }
  set (a := "SHOULD_INDEX: " ++ yesNo index).
  set (b := "SOURCE_OF_TRUTH: " ++ yesNo truth).
  set (c := "REASON: " ++ reasonText).
  assert (F1 : find (prefix "SHOULD_INDEX:") [a; b; c] = Some a) by reflexivity.
  assert (F2 : find (prefix "SOURCE_OF_TRUTH:") [a; b; c] = Some b) by reflexivity.
  assert (F3 : find (prefix "REASON:") [a; b; c] = Some c) by reflexivity.
  rewrite F1, F2, F3. unfold saysYes, reasonOf. subst c. rewrite Hreason.
  subst a b. destruct index, truth; reflexivity.
Qed.

Lemma parseClassification_formatted_witness :
  parseClassification (formattedReply true false "  asks how to deploy ") =
    ClassificationResult.mk true "asks how to deploy" false /\
  parseClassification
    (formattedReply false true
       (Fixtures.bom ++ "official policy" ++ Fixtures.nbsp ++ " ")) =
    ClassificationResult.mk false "official policy" true /\
  parseClassification (formattedReply true true (Fixtures.nbsp ++ Fixtures.bom)) =
    ClassificationResult.mk true "AI classification" true.
Proof.
  split; [|split].
  - apply (parseClassification_formatted true false "  asks how to deploy ").
    reflexivity.
  - apply (parseClassification_formatted false true
             (Fixtures.bom ++ "official policy" ++ Fixtures.nbsp ++ " ")).
    reflexivity.
  - apply (parseClassification_formatted true true (Fixtures.nbsp ++ Fixtures.bom)).
    reflexivity.
Defined.

Import CustomerSafeDetector.

(** X9. [isCustomerSafe] fails closed.  It never throws, and it answers
    [true] only when the generation call was fulfilled.  For a reply
    that, trimmed of the white space of Unicode, is ASCII text, it
    answers [true] exactly when the trimmed reply is CUSTOMER_SAFE in
    some letter case, and so it answers [false] for every other such
    reply.  When the call is rejected it writes the error to
    [console.error] and answers [false]. *)
Theorem isCustomerSafe_fails_closed (h : Handler) (content : string) :
  exists b : bool,
    outcome h (isCustomerSafe content) = Returned b /\
    (b = true ->
     exists text, h _ (GenerateText (safetyRequest content)) = Fulfilled text) /\
    (forall text,
        h _ (GenerateText (safetyRequest content)) = Fulfilled text ->
        isAscii (trim text) = true ->
        (b = true <-> toUpperCase (trim text) = "CUSTOMER_SAFE")) /\
    (forall e,
        h _ (GenerateText (safetyRequest content)) = Rejected e ->
        run h (isCustomerSafe content) =
        ([Called (GenerateText (safetyRequest content));
          Logged "Error detecting customer-safe, defaulting to internal:" e],
         Returned false)).
Proof.
  unfold outcome, isCustomerSafe. rewrite run_tryCatch, run_bind, run_await.
  destruct (h _ (GenerateText (safetyRequest content))) as [text|e] eqn:Hreply.
  - exists (saysCustomerSafe text). simpl. split; [reflexivity|].
    split; [|split].
    + intros _. exists text. reflexivity.
    + intros text' [= <-] _. unfold saysCustomerSafe. apply String.eqb_eq.
    + discriminate.
  - exists false. simpl. split; [reflexivity|]. split; [|split].
    + discriminate.
    + discriminate.
    + intros e' [= <-]. reflexivity.
Qed.

Lemma isCustomerSafe_fails_closed_witness :
  let content := "Official documentation about the feature" in
  run (Outage.allDown "generation service unavailable") (isCustomerSafe content) =
  ([Called (GenerateText (safetyRequest content));
    Logged "Error detecting customer-safe, defaulting to internal:"
           "generation service unavailable"],
   Returned false) /\
  (* a reply with a byte order mark before and a no-break space after *)
  outcome (Fixtures.generation (Fixtures.bom ++ "Customer_Safe" ++ Fixtures.nbsp) "")
          (isCustomerSafe content) = Returned true /\
  outcome (Fixtures.generation "CUSTOMER_SAFE, mostly" "")
          (isCustomerSafe content) = Returned false.
Proof.
  intros content. split; [|split].
  - destruct (isCustomerSafe_fails_closed
                (Outage.allDown "generation service unavailable") content)
      as [b [_ [_ [_ Hrejected]]]].
    apply Hrejected. reflexivity.
  - destruct (isCustomerSafe_fails_closed
                (Fixtures.generation (Fixtures.bom ++ "Customer_Safe" ++ Fixtures.nbsp) "")
                content) as [b [Hout [_ [Hreply _]]]].
    rewrite Hout. f_equal.
    apply (Hreply (Fixtures.bom ++ "Customer_Safe" ++ Fixtures.nbsp));
      reflexivity.
  - destruct (isCustomerSafe_fails_closed
                (Fixtures.generation "CUSTOMER_SAFE, mostly" "") content)
      as [b [Hout [_ [Hreply _]]]].
    rewrite Hout. f_equal.
    destruct b; [|reflexivity].
    assert (Hno : toUpperCase (trim "CUSTOMER_SAFE, mostly") = "CUSTOMER_SAFE")
      by (apply (Hreply "CUSTOMER_SAFE, mostly"); reflexivity).
    discriminate Hno.
Defined.

(* ===================================================================== *)
(** ** More on fusion and on the two searches                             *)
(* ===================================================================== *)

Section FusionShape.
Import Js.

Lemma rrf_ids (k : Q) (vectorResults keywordResults : list SearchResult.t) :
  Permutation (ids (reciprocalRankFusion k vectorResults keywordResults))
              (mapKeys (fuse k vectorResults keywordResults)).
Proof.
  unfold reciprocalRankFusion, ids. rewrite map_map.
  rewrite <- fuse_entry_ids.
  change (fun x => SearchResult.id (normalize _ x)) with entryId.
  apply Permutation_map, fusedSorted_perm.
Qed.

(** The entries of the map come from the input rows, with only
    [similarity] rewritten. *)
Lemma fuse_from_rows (k : Q) (vectorResults keywordResults : list SearchResult.t) :
  Forall (fun e => exists row s,
              In row (vectorResults ++ keywordResults) /\
              Entry.result e = SearchResult.withSimilarity row s)
         (mapValues (fuse k vectorResults keywordResults)).
Proof.
  unfold mapValues. apply Forall_map.
  set (fromRows := fun p : Z * Entry.t =>
         exists row s, In row (vectorResults ++ keywordResults)%list /\
                       Entry.result (snd p) = SearchResult.withSimilarity row s).
  change (Forall fromRows (fuse k vectorResults keywordResults)).
  unfold fuse, forEach.
  apply (@loop_invariant_on (Forall fromRows)).
  - intros m r i Hr Hm. unfold addKeyword.
    destruct (mapGet (SearchResult.id r) m) as [existing|] eqn:Hget.
    + apply mapSet_Forall; [|exact Hm].
      apply mapGet_In in Hget. rewrite Forall_forall in Hm.
      destruct (Hm _ Hget) as [row [s [Hrow Hres]]]. simpl in Hres.
      exists row, (Entry.score existing + rrfScore k i). split; [exact Hrow|].
      simpl. rewrite Hres. reflexivity.
    + apply mapSet_Forall; [|exact Hm].
      exists r, (rrfScore k i). split; [apply in_or_app; right; exact Hr | reflexivity].
  - apply (@loop_invariant_on (Forall fromRows)).
    + intros m r i Hr Hm. apply mapSet_Forall; [|exact Hm].
      exists r, (rrfScore k i). split; [apply in_or_app; left; exact Hr | reflexivity].
    + constructor.
Qed.

Lemma StronglySorted_map (A B : Type) (R : A -> A -> Prop) (R' : B -> B -> Prop)
    (f : A -> B) (l : list A) :
  (forall a b, R a b -> R' (f a) (f b)) ->
  StronglySorted R l -> StronglySorted R' (map f l).
Proof.
  intros Hf. induction 1 as [|x rest _ IH Hall]; simpl; constructor.
  - exact IH.
  - apply Forall_map. eapply Forall_impl; [|exact Hall]. intros y. apply Hf.
Qed.

(** The shape of a fusion of lists that are not both empty. *)
Lemma reciprocalRankFusion_shape (k : Q)
    (vectorResults keywordResults : list SearchResult.t) :
  0 <= k ->
  vectorResults <> [] \/ keywordResults <> [] ->
  exists first others,
    fusedSorted k vectorResults keywordResults = first :: others /\
    0 < Entry.score first /\
    reciprocalRankFusion k vectorResults keywordResults =
    map (fun e => SearchResult.withSimilarity (Entry.result e)
                    (Entry.score e / Entry.score first))
        (first :: others).
Proof.
  intros Hk Hne. unfold reciprocalRankFusion.
  pose proof (fusedSorted_perm k vectorResults keywordResults) as Hperm.
  assert (Hscored : Forall wellScored (fusedSorted k vectorResults keywordResults)).
  { apply (Permutation_Forall (Permutation_sym Hperm)).
    apply fuse_wellScored, Hk. }
  destruct (fusedSorted k vectorResults keywordResults) as [|first others] eqn:Hsorted.
  { exfalso. apply Permutation_nil in Hperm.
    apply (fuse_nonempty k Hne). unfold mapValues in Hperm.
    apply map_eq_nil in Hperm. exact Hperm. }
  exists first, others. split; [reflexivity|].
  pose proof Hscored as Hall.
  inversion Hscored as [|? ? [Hpos Hsim] Hothers]; subst.
  split; [exact Hpos|].
  assert (Hmax : maxScoreOf (first :: others) = Entry.score first).
  { simpl. destruct (Qeq_bool (Entry.score first) 0) eqn:Hzero; [|reflexivity].
    apply Qeq_bool_iff in Hzero. rewrite Hzero in Hpos.
    exfalso. exact (Qlt_irrefl 0 Hpos). }
  rewrite Hmax. apply map_ext_in. intros e He.
  rewrite Forall_forall in Hall. destruct (Hall e He) as [_ Hesim].
  unfold normalize. rewrite Hesim. reflexivity.
Qed.

Lemma aboveThreshold_le (minSimilarity : Q) (r : SearchResult.t) :
  aboveThreshold minSimilarity r = true <-> minSimilarity <= SearchResult.similarity r.
Proof.
  unfold aboveThreshold, orZero. rewrite Qle_bool_iff.
  destruct (Qeq_bool (SearchResult.similarity r) 0) eqn:Hz; [|reflexivity].
  apply Qeq_bool_iff in Hz. rewrite Hz. reflexivity.
Qed.

(** On a list ranked by decreasing similarity the threshold filter keeps
    a prefix. *)
Lemma threshold_keeps_prefix (minSimilarity : Q) (l : list SearchResult.t) :
  StronglySorted (fun a b => SearchResult.similarity b <= SearchResult.similarity a) l ->
  exists n, filter (aboveThreshold minSimilarity) l = firstn n l.
Proof.
  induction 1 as [|x rest _ [n IH] Hall].
  - exists 0%nat. reflexivity.
  - simpl. destruct (aboveThreshold minSimilarity x) eqn:Hx.
    + exists (S n). simpl. rewrite IH. reflexivity.
    + exists 0%nat. simpl.
      assert (Hnone : forall y, In y rest -> aboveThreshold minSimilarity y = false).
      { intros y Hy. rewrite Forall_forall in Hall. specialize (Hall y Hy).
        destruct (aboveThreshold minSimilarity y) eqn:Hyes; [|reflexivity].
        apply aboveThreshold_le in Hyes.
        assert (Hxle : minSimilarity <= SearchResult.similarity x)
          by (eapply Qle_trans; eassumption).
        apply aboveThreshold_le in Hxle. congruence. }
      clear -Hnone. induction rest as [|y l IHl]; [reflexivity|].
      simpl. rewrite (Hnone y (or_introl eq_refl)).
      apply IHl. intros z Hz. apply Hnone. right. exact Hz.
Qed.

Lemma slice0_length (A : Type) (e : Z) (l : list A) :
  (0 <= e)%Z -> (Z.of_nat (List.length (slice0 e l)) <= e)%Z.
Proof.
  intros He. unfold slice0.
  destruct (e <? 0)%Z eqn:Hneg; [apply Z.ltb_lt in Hneg; lia|].
  rewrite length_firstn. lia.
Qed.

End FusionShape.

(** X10. Fusion keeps every fragment and keeps it once, whatever the two
    lists are: the ids of the result are pairwise distinct, and an id is
    in the result exactly when it is in one of the lists. *)
Theorem fusion_keeps_each_fragment_once (k : Q)
    (vectorResults keywordResults : list SearchResult.t) :
  NoDup (ids (reciprocalRankFusion k vectorResults keywordResults)) /\
  (forall x,
      In x (ids (reciprocalRankFusion k vectorResults keywordResults)) <->
      In x (ids vectorResults) \/ In x (ids keywordResults)).
Proof.
  pose proof (rrf_ids k vectorResults keywordResults) as Hperm.
  rewrite fuse_keys_any in Hperm. split.
  - apply (Permutation_NoDup (Permutation_sym Hperm)).
    apply addKeys_NoDup, addKeys_NoDup. constructor.
  - intros x. split.
    + intros Hx. apply (Permutation_in _ Hperm) in Hx.
      apply addKeys_In in Hx as [Hx|Hx]; [|right; exact Hx].
      apply addKeys_In in Hx as [[]|Hx]. left. exact Hx.
    + intros Hx. apply (Permutation_in _ (Permutation_sym Hperm)).
      apply addKeys_In. destruct Hx as [Hx|Hx]; [left|right; exact Hx].
      apply addKeys_In. right. exact Hx.
Qed.

(** X11. Fusion rewrites [similarity] and nothing else: every result is
    a row of one of the two lists with its [similarity] replaced. *)
Theorem fusion_rewrites_only_similarity (k : Q)
    (vectorResults keywordResults : list SearchResult.t) :
  Forall (fun r => exists row,
              In row (vectorResults ++ keywordResults) /\
              r = SearchResult.withSimilarity row (SearchResult.similarity r))
         (reciprocalRankFusion k vectorResults keywordResults).
Proof.
  unfold reciprocalRankFusion. apply Forall_map.
  apply (Permutation_Forall
           (Permutation_sym (fusedSorted_perm k vectorResults keywordResults))).
  eapply Forall_impl; [|apply fuse_from_rows].
  intros e [row [s [Hrow Hres]]]. exists row. split; [exact Hrow|].
  unfold normalize. rewrite Hres. reflexivity.
Qed.

(** X12. For [k >= 0] the result of fusion is ranked: its normalized
    similarities never increase along the list. *)
Theorem fusion_ranked (k : Q) (vectorResults keywordResults : list SearchResult.t) :
  0 <= k ->
  StronglySorted
    (fun a b => SearchResult.similarity b <= SearchResult.similarity a)
    (reciprocalRankFusion k vectorResults keywordResults).
Proof.
  intros Hk.
  destruct vectorResults as [|v0 vs] eqn:Hv; [destruct keywordResults as [|k0 ks] eqn:Hkw|].
  - constructor.
  - destruct (@reciprocalRankFusion_shape k [] (k0 :: ks) Hk)
      as [first [others [Hsorted [Hpos ->]]]]; [right; discriminate|].
    rewrite <- Hsorted.
    apply (StronglySorted_map
             (R := fun a b => Entry.score b <= Entry.score a));
      [|apply fusedSorted_descending].
    intros a b Hab. simpl. unfold Qdiv.
    apply Qmult_le_compat_r; [exact Hab|].
    apply Qinv_le_0_compat, Qlt_le_weak, Hpos.
  - destruct (@reciprocalRankFusion_shape k (v0 :: vs) keywordResults Hk)
      as [first [others [Hsorted [Hpos ->]]]]; [left; discriminate|].
    rewrite <- Hsorted.
    apply (StronglySorted_map
             (R := fun a b => Entry.score b <= Entry.score a));
      [|apply fusedSorted_descending].
    intros a b Hab. simpl. unfold Qdiv.
    apply Qmult_le_compat_r; [exact Hab|].
    apply Qinv_le_0_compat, Qlt_le_weak, Hpos.
Qed.

Lemma fusion_ranked_witness :
  let F1 := Fixtures.createMockResult 1 "Deployments happen on Friday" true in
  let F2 := Fixtures.createMockResult 2 "Rollbacks are automated" true in
  let F3 := Fixtures.createMockResult 3 "Releases need a review" false in
  ids (reciprocalRankFusion 60 [F1; F2] [F2; F3]) = [2; 1; 3]%Z /\
  StronglySorted
    (fun a b => SearchResult.similarity b <= SearchResult.similarity a)
    (reciprocalRankFusion 60 [F1; F2] [F2; F3]).
Proof.
  intros F1 F2 F3. split; [vm_compute; reflexivity|].
  apply fusion_ranked. unfold Qle; simpl; lia.
Defined.

(** X13. What [hybridSearch] returns is the top of the fused ranking: a
    prefix of the fusion (with [k = 60]) of the two row sets the store
    answered with; every result has a normalized similarity of at least
    [minSimilarity], and for a limit that is not negative there are at
    most [limit] results. *)
Theorem hybridSearch_returns_top_of_ranking (h : Handler) (query : string)
    (options : SearchOptions.t) (results : list SearchResult.t) :
  outcome h (hybridSearch query options) = Returned results ->
  let limit := orDefault 10%Z (SearchOptions.limit options) in
  let customerSafeOnly := orDefault false (SearchOptions.customerSafeOnly options) in
  let channelId := SearchOptions.channelId options in
  let minSimilarity := orDefault (3 # 10) (SearchOptions.minSimilarity options) in
  exists queryEmbedding rows n,
    h _ (Embed "text-embedding-3-small" query) = Fulfilled queryEmbedding /\
    h _ (PoolQueryAll (vectorQuery queryEmbedding customerSafeOnly channelId limit)
                      (keywordQuery query customerSafeOnly channelId limit))
      = Fulfilled rows /\
    results = firstn n (reciprocalRankFusion defaultK (fst rows) (snd rows)) /\
    Forall (fun r => minSimilarity <= SearchResult.similarity r) results /\
    ((0 <= limit)%Z -> (Z.of_nat (List.length results) <= limit)%Z).
Proof.
  unfold outcome. rewrite run_hybridSearch. cbv zeta.
  destruct (h _ (Embed "text-embedding-3-small" query)) as [emb|e]; [|discriminate].
  match goal with
  | |- context [h _ (PoolQueryAll ?qv ?qk)] =>
      destruct (h _ (PoolQueryAll qv qk)) as [rows|e] eqn:Hrows; [|discriminate]
  end.
  simpl. intros [= <-].
  destruct (@threshold_keeps_prefix
              (orDefault (3 # 10) (SearchOptions.minSimilarity options))
              (reciprocalRankFusion defaultK (fst rows) (snd rows)))
    as [m Hm].
  { apply fusion_ranked. unfold defaultK, Qle; simpl; lia. }
  exists emb, rows. eexists. split; [reflexivity|]. split; [exact Hrows|].
  split; [|split].
  - unfold Js.slice0. rewrite Hm, firstn_firstn. reflexivity.
  - apply firstn_Forall. apply Forall_forall. intros r Hr.
    apply filter_In in Hr as [_ Hr]. apply aboveThreshold_le, Hr.
  - apply slice0_length.
Qed.

Lemma hybridSearch_returns_top_of_ranking_witness :
  let h := Fixtures.scripted "YES" "" None
             [Fixtures.supportArticle] [Fixtures.customerDocs] in
  let results :=
    Js.slice0 10 (filter (aboveThreshold (3 # 10))
                    (reciprocalRankFusion defaultK
                       [Fixtures.supportArticle] [Fixtures.customerDocs])) in
  outcome h (hybridSearch "deployment process" SearchOptions.empty) = Returned results /\
  List.length results = 2%nat /\
  Forall (fun r => (3 # 10) <= SearchResult.similarity r) results.
Proof.
  intros h results.
  assert (Hout : outcome h (hybridSearch "deployment process" SearchOptions.empty)
                 = Returned results) by (vm_compute; reflexivity).
  split; [exact Hout|]. split; [vm_compute; reflexivity|].
  destruct (hybridSearch_returns_top_of_ranking h "deployment process"
              SearchOptions.empty Hout) as [emb [rows [n [_ [_ [_ [Hmin _]]]]]]].
  exact Hmin.
Defined.

(** X14. When the store answers with at least one row in either channel,
    the limit is at least 1 and [minSimilarity] is at most 1,
    [hybridSearch] returns at least one result, and the first one has the
    normalized similarity 1. *)
Theorem hybridSearch_finds_something (h : Handler) (query : string)
    (options : SearchOptions.t) (queryEmbedding : Embedding)
    (rows : list SearchResult.t * list SearchResult.t) :
  let limit := orDefault 10%Z (SearchOptions.limit options) in
  let customerSafeOnly := orDefault false (SearchOptions.customerSafeOnly options) in
  let channelId := SearchOptions.channelId options in
  let minSimilarity := orDefault (3 # 10) (SearchOptions.minSimilarity options) in
  h _ (Embed "text-embedding-3-small" query) = Fulfilled queryEmbedding ->
  h _ (PoolQueryAll (vectorQuery queryEmbedding customerSafeOnly channelId limit)
                    (keywordQuery query customerSafeOnly channelId limit))
    = Fulfilled rows ->
  fst rows <> [] \/ snd rows <> [] ->
  (1 <= limit)%Z ->
  minSimilarity <= 1 ->
  exists top others,
    outcome h (hybridSearch query options) = Returned (top :: others) /\
    SearchResult.similarity top == 1.
Proof.
  intros limit customerSafeOnly channelId minSimilarity Hemb Hrows Hne Hlimit Hmin.
  unfold outcome. rewrite run_hybridSearch. cbv zeta.
  rewrite Hemb. fold limit customerSafeOnly channelId minSimilarity.
  rewrite Hrows. simpl snd.
  assert (Hk : 0 <= defaultK) by (unfold defaultK, Qle; simpl; lia).
  destruct (@reciprocalRankFusion_shape defaultK (fst rows) (snd rows) Hk Hne)
    as [first [rest [_ [Hpos ->]]]].
  set (top := SearchResult.withSimilarity (Entry.result first)
                (Entry.score first / Entry.score first)).
  assert (Hone : SearchResult.similarity top == 1).
  { simpl. unfold Qdiv. apply Qmult_inv_r.
    intros Hz. rewrite Hz in Hpos. exact (Qlt_irrefl 0 Hpos). }
  assert (Habove : aboveThreshold minSimilarity top = true).
  { apply aboveThreshold_le. rewrite Hone. exact Hmin. }
  simpl map. simpl filter. fold top. rewrite Habove.
  unfold Js.slice0.
  destruct (limit <? 0)%Z eqn:Hneg; [apply Z.ltb_lt in Hneg; lia|].
  match goal with
  | |- context [firstn (Z.to_nat ?stop) (top :: ?tail)] =>
      destruct (Z.to_nat stop) as [|n] eqn:Hstop;
      [simpl List.length in Hstop; lia|]
  end.
  simpl firstn. eexists; eexists. split; [reflexivity | exact Hone].
Qed.

Lemma hybridSearch_finds_something_witness :
  let h := Fixtures.scripted "YES" "" None [] [Fixtures.customerDocs] in
  exists top others,
    outcome h (hybridSearch "deployment process" SearchOptions.empty)
      = Returned (top :: others) /\
    SearchResult.similarity top == 1.
Proof.
  intros h.
  apply (@hybridSearch_finds_something h "deployment process" SearchOptions.empty
           [1 # 2; 1 # 3] ([], [Fixtures.customerDocs])).
  - reflexivity.
  - reflexivity.
  - right. discriminate.
  - simpl. lia.
  - simpl. unfold Qle; simpl; lia.
Defined.

(** X15. A rejected store query fails the search with the same error:
    [hybridSearch] and [searchKnowledge] make the embedding call and the
    store call, return nothing, do not retry and do not fall back to other
    rows. *)
Theorem store_failure_fails_search (h : Handler) (query : string)
    (options : SearchOptions.t) (queryEmbedding : Embedding) (e : Error) :
  h _ (Embed "text-embedding-3-small" query) = Fulfilled queryEmbedding ->
  let customerSafeOnly := orDefault false (SearchOptions.customerSafeOnly options) in
  let sourceOfTruthOnly := orDefault false (SearchOptions.sourceOfTruthOnly options) in
  let channelId := SearchOptions.channelId options in
  let both :=
    PoolQueryAll
      (vectorQuery queryEmbedding customerSafeOnly channelId
         (orDefault 10%Z (SearchOptions.limit options)))
      (keywordQuery query customerSafeOnly channelId
         (orDefault 10%Z (SearchOptions.limit options))) in
  let one :=
    PoolQuery
      (knowledgeQuery queryEmbedding customerSafeOnly sourceOfTruthOnly channelId
         (orDefault 5%Z (SearchOptions.limit options))) in
  (h _ both = Rejected e ->
   run h (hybridSearch query options) =
   ([Called (Embed "text-embedding-3-small" query); Called both], Threw e)) /\
  (h _ one = Rejected e ->
   run h (searchKnowledge query options) =
   ([Called (Embed "text-embedding-3-small" query); Called one], Threw e)).
Proof.
  intros Hemb customerSafeOnly sourceOfTruthOnly channelId both one. split.
  - intros Hrej. rewrite run_hybridSearch. cbv zeta. rewrite Hemb.
    fold customerSafeOnly channelId both. rewrite Hrej. reflexivity.
  - intros Hrej. rewrite run_searchKnowledge. cbv zeta. rewrite Hemb.
    fold customerSafeOnly sourceOfTruthOnly channelId one. rewrite Hrej. reflexivity.
Qed.

Lemma store_failure_fails_search_witness :
  outcome (Outage.storeDown "connection refused")
          (hybridSearch "deployment process" SearchOptions.empty)
    = Threw "connection refused" /\
  outcome (Outage.storeDown "connection refused")
          (searchKnowledge "deployment process" SearchOptions.empty)
    = Threw "connection refused".
Proof.
  destruct (@store_failure_fails_search (Outage.storeDown "connection refused")
              "deployment process" SearchOptions.empty [1 # 2; 1 # 3]
              "connection refused" eq_refl) as [Hboth Hone].
  split.
  - unfold outcome. rewrite (Hboth eq_refl). reflexivity.
  - unfold outcome. rewrite (Hone eq_refl). reflexivity.
Defined.

(** X16. [searchKnowledge] returns rows of the store in the store's
    order: a prefix of the rows whose similarity is at least
    [minSimilarity], at most [limit] of them when the limit is not
    negative. *)
Theorem searchKnowledge_returns_first_rows_above_threshold (h : Handler)
    (query : string) (options : SearchOptions.t) (results : list SearchResult.t) :
  outcome h (searchKnowledge query options) = Returned results ->
  let limit := orDefault 5%Z (SearchOptions.limit options) in
  let minSimilarity := orDefault (3 # 10) (SearchOptions.minSimilarity options) in
  exists queryEmbedding rows n,
    h _ (Embed "text-embedding-3-small" query) = Fulfilled queryEmbedding /\
    h _ (PoolQuery
           (knowledgeQuery queryEmbedding
              (orDefault false (SearchOptions.customerSafeOnly options))
              (orDefault false (SearchOptions.sourceOfTruthOnly options))
              (SearchOptions.channelId options) limit)) = Fulfilled rows /\
    results = firstn n (filter (fun r => Qle_bool minSimilarity
                                           (orZero (SearchResult.similarity r))) rows) /\
    Forall (fun r => In r rows /\ minSimilarity <= SearchResult.similarity r) results /\
    ((0 <= limit)%Z -> (Z.of_nat (List.length results) <= limit)%Z).
Proof.
  unfold outcome. rewrite run_searchKnowledge. cbv zeta.
  destruct (h _ (Embed "text-embedding-3-small" query)) as [emb|e]; [|discriminate].
  match goal with
  | |- context [h _ (PoolQuery ?q)] =>
      destruct (h _ (PoolQuery q)) as [rows|e] eqn:Hrows; [|discriminate]
  end.
  simpl. intros [= <-].
  exists emb, rows. eexists. split; [reflexivity|]. split; [exact Hrows|].
  split; [reflexivity|]. split.
  - apply firstn_Forall. apply Forall_forall. intros r Hr.
    apply filter_In in Hr as [Hin Hr]. split; [exact Hin|].
    apply aboveThreshold_le, Hr.
  - apply slice0_length.
Qed.

Lemma searchKnowledge_returns_first_rows_above_threshold_witness :
  let h := Fixtures.scripted "YES" "" None
             [Fixtures.supportArticle; Fixtures.customerDocs] [] in
  let options := SearchOptions.mk (Some 1%Z) None None None None in
  outcome h (searchKnowledge "deployment process" options)
    = Returned [Fixtures.supportArticle] /\
  Forall (fun r => (3 # 10) <= SearchResult.similarity r) [Fixtures.supportArticle].
Proof.
  intros h options.
  assert (Hout : outcome h (searchKnowledge "deployment process" options)
                 = Returned [Fixtures.supportArticle]) by reflexivity.
  split; [exact Hout|].
  destruct (searchKnowledge_returns_first_rows_above_threshold h
              "deployment process" options Hout)
    as [emb [rows [n [_ [_ [_ [Hall _]]]]]]].
  eapply Forall_impl; [|exact Hall]. intros r [_ Hr]. exact Hr.
Defined.

(** X17. The numbering of the SQL placeholders follows the parameters in
    all three queries: the [LIMIT] placeholder names the last parameter,
    which is twice the limit; a non-empty channel id is pushed as the
    second parameter and filtered on as [$2]; without one the query has
    two parameters. *)
Theorem query_placeholders_follow_params (queryEmbedding : Embedding)
    (query : string) (customerSafeOnly sourceOfTruthOnly : bool)
    (channelId : option string) (limit : Z) :
  wellNumbered vectorOrder channelId limit
    (vectorQuery queryEmbedding customerSafeOnly channelId limit) /\
  wellNumbered keywordOrder channelId limit
    (keywordQuery query customerSafeOnly channelId limit) /\
  wellNumbered vectorOrder channelId limit
    (knowledgeQuery queryEmbedding customerSafeOnly sourceOfTruthOnly channelId limit).
Proof.
  assert (Hassoc : forall a b c : string, (a ++ b) ++ c = a ++ b ++ c).
  { intros a b c. induction a as [|x a IH]; simpl; congruence. }
  unfold wellNumbered, Contains, vectorQuery, keywordQuery, knowledgeQuery.
  destruct channelId as [[|c rest]|]; cbn [SqlQuery.sql SqlQuery.params truthy
    channelParams nextParamIndex List.length app Nat.sub nth_error];
    repeat split;
    try (eexists; rewrite <- !Hassoc; reflexivity);
    match goal with
    | |- exists pre post, ?a ++ ?b ++ channelClause 2 ++ ?d = _ =>
        exists (a ++ b), d; rewrite !Hassoc; reflexivity
    | |- exists pre post, ?a ++ ?b ++ ?c ++ channelClause 2 ++ ?d = _ =>
        exists (a ++ b ++ c), d; rewrite !Hassoc; reflexivity
    end.
Qed.

(* ===================================================================== *)
(** ** More on the routes                                                 *)
(* ===================================================================== *)

Section RouteFacts.
Import Routes.

Lemma mapiFrom_index (cites : list Citation.t) (i : nat) :
  map CitationJson.index (Js.mapiFrom i citationJson cites) =
  seq (i + 1) (List.length cites).
Proof.
  revert i. induction cites as [|c rest IH]; intros i; simpl; [reflexivity|].
  rewrite IH. replace (S i + 1)%nat with (S (i + 1)) by lia. reflexivity.
Qed.

Lemma mapiFrom_length (A B : Type) (f : A -> nat -> B) (xs : list A) (i : nat) :
  List.length (Js.mapiFrom i f xs) = List.length xs.
Proof.
  revert i. induction xs as [|x rest IH]; intros i; simpl; [reflexivity|].
  rewrite IH. reflexivity.
Qed.

Lemma mapiFrom_safe (cites : list Citation.t) (i : nat) :
  Forall (fun c => Citation.is_customer_safe c = true) cites ->
  Forall (fun cj => CitationJson.is_customer_safe cj = true)
         (Js.mapiFrom i citationJson cites).
Proof.
  intros H. revert i. induction H as [|c rest Hc _ IH]; intros i; simpl;
    constructor; auto.
Qed.

(** The citations of a customer-mode answer come from customer-safe
    entries. *)
Lemma customer_answer_safe (h : Handler) (query : string)
    (searchResults : list SearchResult.t) (r : AnswerWithCitations.t) :
  outcome h (generateAnswerWithCitations query searchResults customer) = Returned r ->
  Forall (fun c => Citation.is_customer_safe c = true)
         (AnswerWithCitations.citations r) /\
  AnswerWithCitations.mode r = customer.
Proof.
  intros Hout. apply generateAnswer_returned in Hout.
  destruct Hout as [[-> _] | [[-> _] | [[check [_ [_ [-> _]]]]
                   | [check [raw [_ [_ [_ [_ [-> _]]]]]]]]]];
    try (split; [constructor | reflexivity]).
  split; [|reflexivity].
  apply Forall_forall. intros c Hc.
  apply buildCitations_incl, in_map_iff in Hc as [x [<- Hx]].
  apply filter_In in Hx as [_ Hx]. exact Hx.
Qed.

Lemma generateAnswer_mode (h : Handler) (query : string)
    (searchResults : list SearchResult.t) (mode : Mode) (r : AnswerWithCitations.t) :
  outcome h (generateAnswerWithCitations query searchResults mode) = Returned r ->
  AnswerWithCitations.mode r = mode.
Proof.
  intros Hout. apply generateAnswer_returned in Hout.
  destruct Hout as [[-> _] | [[-> _] | [[check [_ [_ [-> _]]]]
                   | [check [raw [_ [_ [_ [_ [-> _]]]]]]]]]]; reflexivity.
Qed.

End RouteFacts.

(** X18. POST /ask always answers: the handler never throws, and the
    status is 200, 400 or 500.  It is 400 exactly when the question is
    missing or empty or the mode is neither internal nor customer, and
    then no call has left the program; a 500 response carries the fixed
    error text and nothing of the error that caused it. *)
Theorem ask_always_responds (h : Handler) (body : AskQuestionBody.t) :
  exists (resp : Response) (made : list Call),
    run h (ask body) = (made, Returned resp) /\
    (status resp = 200 \/ status resp = 400 \/ status resp = 500)%nat /\
    (status resp = 400%nat <->
     truthy (AskQuestionBody.question body) = false \/
     parseMode (orDefault "internal" (AskQuestionBody.mode body)) = None) /\
    (status resp = 400%nat -> made = []) /\
    (status resp = 500%nat ->
     Routes.body resp = ErrorJson "Failed to process question").
Proof.
  destruct (AskQuestionBody.question body) as [[|c q]|] eqn:Hq.
  - unfold ask. rewrite Hq. eexists; eexists. split; [reflexivity|]. simpl.
    repeat split; auto; discriminate.
  - destruct (parseMode (orDefault "internal" (AskQuestionBody.mode body)))
      as [mode|] eqn:Hmode.
    + rewrite (run_ask h body Hq Hmode). cbv zeta.
      destruct (run h (askSearch _ _ _ _ _)) as [cs [results|e]].
      * destruct (run h (generateAnswerWithCitations _ _ _)) as [cs' [answer|e]];
          eexists; eexists; (split; [reflexivity|]); simpl;
          (repeat split; auto; try discriminate;
           intros [H|H]; discriminate).
      * eexists; eexists; (split; [reflexivity|]); simpl.
        repeat split; auto; try discriminate. intros [H|H]; discriminate.
    + unfold ask. rewrite Hq, Hmode. eexists; eexists. split; [reflexivity|]. simpl.
      repeat split; auto; discriminate.
  - unfold ask. rewrite Hq. eexists; eexists. split; [reflexivity|]. simpl.
    repeat split; auto; discriminate.
Qed.

(** X19. When the embedding service is down, a valid request to
    POST /ask is answered with status 500 and the fixed error text,
    after the embedding call and its [console.error] line alone: no store
    query and no generation call is made. *)
Theorem ask_embedding_outage_is_500 (h : Handler) (body : AskQuestionBody.t)
    (question : string) (mode : Mode) (e : Error) :
  AskQuestionBody.question body = Some question ->
  question <> "" ->
  parseMode (orDefault "internal" (AskQuestionBody.mode body)) = Some mode ->
  h _ (Embed "text-embedding-3-small" question) = Rejected e ->
  run h (ask body) =
  ([Called (Embed "text-embedding-3-small" question);
    Logged "Error generating embedding:" e],
   Returned (mkResponse 500 (ErrorJson "Failed to process question"))).
Proof.
  intros Hq Hne Hmode Hrej.
  destruct question as [|c q]; [contradiction|].
  rewrite (run_ask h body Hq Hmode). cbv zeta.
  unfold askSearch.
  destruct (orDefault true (AskQuestionBody.useHybrid body)).
  - rewrite run_hybridSearch. cbv zeta. rewrite Hrej. reflexivity.
  - rewrite run_searchKnowledge. cbv zeta. rewrite Hrej. reflexivity.
Qed.

Lemma ask_embedding_outage_is_500_witness :
  outcome (Outage.allDown "embedding service unavailable")
          (ask (AskQuestionBody.mk (Some "How do we deploy?") None None None None))
  = Returned (mkResponse 500 (ErrorJson "Failed to process question")).
Proof.
  unfold outcome.
  rewrite (@ask_embedding_outage_is_500
             (Outage.allDown "embedding service unavailable")
             (AskQuestionBody.mk (Some "How do we deploy?") None None None None)
             "How do we deploy?" internal "embedding service unavailable"
             eq_refl ltac:(discriminate) eq_refl eq_refl).
  reflexivity.
Defined.

(** X20. In every 200 response of POST /ask the citations are numbered
    1, 2, ... in their order, the mode is the requested one, and when that
    mode is customer every citation of the response is customer-safe,
    whatever rows the store returned. *)
Theorem ask_response_citations (h : Handler) (body : AskQuestionBody.t)
    (question answer searchMethod : string) (mode : Mode) (canCite : bool)
    (cites : list CitationJson.t) :
  outcome h (ask body) =
    Returned (mkResponse 200
                (AskJson question answer mode searchMethod canCite cites)) ->
  map CitationJson.index cites = seq 1 (List.length cites) /\
  parseMode (orDefault "internal" (AskQuestionBody.mode body)) = Some mode /\
  (mode = customer ->
   Forall (fun cj => CitationJson.is_customer_safe cj = true) cites).
Proof.
  unfold outcome.
  destruct (AskQuestionBody.question body) as [[|c q]|] eqn:Hq;
    try (unfold ask; rewrite Hq; discriminate).
  destruct (parseMode (orDefault "internal" (AskQuestionBody.mode body)))
    as [mode'|] eqn:Hmode;
    [|unfold ask; rewrite Hq, Hmode; discriminate].
  rewrite (run_ask h body Hq Hmode). cbv zeta.
  destruct (run h (askSearch _ _ _ _ _)) as [cs [results|e]]; [|discriminate].
  destruct (run h (generateAnswerWithCitations (String c q) results mode'))
    as [cs' [r|e]] eqn:Hgen; [|discriminate].
  assert (Hout : outcome h (generateAnswerWithCitations (String c q) results mode')
                 = Returned r) by (unfold outcome; rewrite Hgen; reflexivity).
  simpl. unfold askJson. intros [= <- <- Hm <- <- <-].
  pose proof (generateAnswer_mode h (String c q) results mode' Hout) as Hrm.
  rewrite Hrm in Hm. subst mode'.
  split; [unfold Js.mapi; rewrite mapiFrom_length; apply (mapiFrom_index _ 0)|].
  split; [reflexivity|].
  intros ->. apply mapiFrom_safe.
  exact (proj1 (customer_answer_safe h (String c q) results Hout)).
Qed.

Lemma ask_response_citations_witness :
  let h := Fixtures.scripted "YES" "See the article [1]." None
             [Fixtures.supportArticle] [Fixtures.internalNotes] in
  let body := AskQuestionBody.mk (Some "How does this feature work?")
                (Some "customer") None None None in
  exists answer canCite cites,
    outcome h (ask body) =
      Returned (mkResponse 200
                  (AskJson "How does this feature work?" answer customer "hybrid"
                     canCite cites)) /\
    List.length cites = 1%nat /\
    Forall (fun cj => CitationJson.is_customer_safe cj = true) cites.
Proof.
  intros h body.
  destruct (run h (ask body)) as [made [resp|e]] eqn:Hrun;
    [|vm_compute in Hrun; discriminate Hrun].
  destruct resp as [st [err|q a m sm c cs]];
    [vm_compute in Hrun; discriminate Hrun|].
  assert (Hshape : st = 200%nat /\ q = "How does this feature work?" /\
                   m = customer /\ sm = "hybrid" /\ List.length cs = 1%nat).
  { vm_compute in Hrun. injection Hrun as _ <- <- <- <- <- <- <-.
    repeat split; reflexivity. }
  destruct Hshape as [-> [-> [-> [-> Hlen]]]].
  assert (Hout : outcome h (ask body) =
                 Returned (mkResponse 200
                             (AskJson "How does this feature work?" a customer
                                "hybrid" c cs)))
    by (unfold outcome; rewrite Hrun; reflexivity).
  exists a, c, cs. split; [exact Hout|]. split; [exact Hlen|].
  exact (proj2 (proj2 (ask_response_citations h body Hout)) eq_refl).
Defined.

Section SearchRouteFacts.
Import SearchRoute.

(** The search call of POST /search, whichever search it uses. *)
Lemma run_routeSearch (h : Handler) (useHybrid : bool) (query : string)
    (limit : Z) (customerSafeOnly : bool) (minSimilarity : Q) :
  let searchFn := if useHybrid then hybridSearch else searchKnowledge in
  exists made out,
    run h (searchFn query (searchOptions limit customerSafeOnly minSimilarity))
      = (made, out) /\
    Forall unscoped made /\
    (forall results, out = Returned results ->
       (0 <= limit)%Z -> (Z.of_nat (List.length results) <= limit)%Z).
Proof.
  destruct useHybrid; cbv zeta.
  - rewrite run_hybridSearch. simpl orDefault. cbv zeta.
    destruct (h _ (Embed "text-embedding-3-small" query)) as [emb|e].
    + match goal with
      | |- context [h _ (PoolQueryAll ?qv ?qk)] =>
          destruct (h _ (PoolQueryAll qv qk)) as [rows|e]
      end; eexists; eexists; (split; [reflexivity|]); split;
        try (repeat constructor); try discriminate.
      intros results [= <-]. apply slice0_length.
    + eexists; eexists; (split; [reflexivity|]); split;
        [repeat constructor | discriminate].
  - rewrite run_searchKnowledge. simpl orDefault. cbv zeta.
    destruct (h _ (Embed "text-embedding-3-small" query)) as [emb|e].
    + match goal with
      | |- context [h _ (PoolQuery ?q)] =>
          destruct (h _ (PoolQuery q)) as [rows|e]
      end; eexists; eexists; (split; [reflexivity|]); split;
        try (repeat constructor); try discriminate.
      intros results [= <-]. apply slice0_length.
    + eexists; eexists; (split; [reflexivity|]); split;
        [repeat constructor | discriminate].
Qed.

End SearchRouteFacts.

(** X21. POST /search always answers: the handler never throws and the
    status is 200, 400 or 500.  It is 400 exactly when the query is
    missing or empty, and then no call has left the program; a 500
    response carries the fixed error text.  A 200 response echoes the
    query, counts the results it lists, and lists at most [limit] of them
    when the limit is not negative.  No store query of the route carries
    a channel parameter, whatever [channelId] the body has. *)
Theorem search_always_responds (h : Handler) (body : SearchRoute.SearchQueryBody.t) :
  exists (resp : SearchRoute.Response) (made : list Call),
    run h (SearchRoute.search body) = (made, Returned resp) /\
    (SearchRoute.status resp = 200 \/ SearchRoute.status resp = 400 \/
     SearchRoute.status resp = 500)%nat /\
    (SearchRoute.status resp = 400%nat <->
     truthy (SearchRoute.SearchQueryBody.query body) = false) /\
    (SearchRoute.status resp = 400%nat -> made = []) /\
    (SearchRoute.status resp = 500%nat ->
     SearchRoute.body resp = SearchRoute.ErrorJson "Failed to search") /\
    (forall query searchMethod resultsCount minSimilarity results,
        SearchRoute.body resp =
          SearchRoute.SearchJson query searchMethod resultsCount minSimilarity results ->
        SearchRoute.status resp = 200%nat /\
        SearchRoute.SearchQueryBody.query body = Some query /\
        resultsCount = List.length results /\
        ((0 <= orDefault 10%Z (SearchRoute.SearchQueryBody.limit body))%Z ->
         (Z.of_nat resultsCount
          <= orDefault 10%Z (SearchRoute.SearchQueryBody.limit body))%Z)) /\
    Forall SearchRoute.unscoped made.
Proof.
  unfold SearchRoute.search.
  destruct (SearchRoute.SearchQueryBody.query body) as [[|c q]|] eqn:Hq.
  - eexists; eexists. split; [reflexivity|]. simpl.
    repeat split; auto; try discriminate.
  - rewrite run_tryCatch, run_bind.
    destruct (run_routeSearch h
                (orDefault true (SearchRoute.SearchQueryBody.useHybrid body))
                (String c q)
                (orDefault 10%Z (SearchRoute.SearchQueryBody.limit body))
                (orDefault false (SearchRoute.SearchQueryBody.customerSafeOnly body))
                (orDefault (2 # 10) (SearchRoute.SearchQueryBody.minSimilarity body)))
      as [made [out [Hrun [Hunscoped Hbound]]]].
    cbv zeta in Hrun. rewrite Hrun.
    destruct out as [results|e]; simpl.
    + eexists; eexists. split; [reflexivity|]. simpl.
      rewrite app_nil_r.
      repeat split; auto; try discriminate.
      * injection H as <- _ _ _ _. reflexivity.
      * injection H as _ _ <- _ <-. symmetry. apply length_map.
      * injection H as _ _ <- _ _. apply Hbound. reflexivity.
    + eexists; eexists. split; [reflexivity|]. simpl.
      rewrite app_nil_r.
      repeat split; auto; discriminate.
  - eexists; eexists. split; [reflexivity|]. simpl.
    repeat split; auto; try discriminate.
Qed.

Lemma ask_always_responds_witness :
  exists resp,
    outcome (Outage.allDown "service unavailable")
            (ask (AskQuestionBody.mk (Some "How do we deploy?") (Some "public")
                    None None None)) = Returned resp /\
    status resp = 400%nat.
Proof.
  destruct (ask_always_responds (Outage.allDown "service unavailable")
              (AskQuestionBody.mk (Some "How do we deploy?") (Some "public")
                 None None None))
    as [resp [made [Hrun [_ [H400 _]]]]].
  exists resp. split; [unfold outcome; rewrite Hrun; reflexivity|].
  apply H400. right. reflexivity.
Defined.

Lemma search_always_responds_witness :
  exists resp,
    outcome (Outage.storeDown "connection refused")
            (SearchRoute.search
               (SearchRoute.SearchQueryBody.mk (Some "deployment") None None
                  (Some "C123") None None)) = Returned resp /\
    SearchRoute.status resp = 500%nat.
Proof.
  destruct (search_always_responds (Outage.storeDown "connection refused")
              (SearchRoute.SearchQueryBody.mk (Some "deployment") None None
                 (Some "C123") None None))
    as [resp [made [Hrun _]]].
  exists resp. split; [unfold outcome; rewrite Hrun; reflexivity|].
  vm_compute in Hrun. injection Hrun as _ <-. reflexivity.
Defined.

(* ===================================================================== *)
(** ** More on [generateAnswerWithCitations]                              *)
(* ===================================================================== *)

Section AnswerFacts.

Lemma filter_nonempty_existsb (A : Type) (f : A -> bool) (l : list A) :
  filter f l <> [] -> existsb f l = true.
Proof.
  induction l as [|x rest IH]; simpl; [contradiction|].
  destruct (f x); [reflexivity|]. exact IH.
Qed.

(** A strictly increasing list of indices below [n] has at most [n]
    elements. *)
Lemma increasing_bounded (l : list nat) :
  StronglySorted lt l ->
  forall a n, Forall (fun x => (a <= x < n)%nat) l -> (List.length l <= n - a)%nat.
Proof.
  induction 1 as [|x rest _ IH Hgt]; intros a n Hall; simpl; [lia|].
  inversion Hall as [|? ? Hx Hrest]; subst.
  assert (Hrest' : Forall (fun y => (S x <= y < n)%nat) rest).
  { rewrite Forall_forall in *. intros y Hy.
    specialize (Hgt y Hy). specialize (Hrest y Hy). lia. }
  specialize (IH (S x) n Hrest'). lia.
Qed.

Lemma buildCitations_length (cleaned : string) (relevant : list SearchResult.t) :
  (List.length (buildCitations cleaned relevant) <= List.length relevant)%nat.
Proof.
  destruct (buildCitations_spec cleaned relevant) as [indices [Hsorted [Hin Hmap]]].
  assert (Hlen : List.length (buildCitations cleaned relevant) = List.length indices).
  { rewrite <- (length_map Some), Hmap, length_map. reflexivity. }
  rewrite Hlen.
  pose proof (@increasing_bounded indices Hsorted 0%nat (List.length relevant)) as Hb.
  rewrite Nat.sub_0_r in Hb. apply Hb.
  apply Forall_forall. intros i Hi. apply Hin in Hi as [g [_ Hc]].
  apply cites_bound in Hc. lia.
Qed.

End AnswerFacts.

(** X22. A failure of the generation service is not answered over: when
    the relevance call is rejected, or the answer call after a positive
    verdict, [generateAnswerWithCitations] throws that same error and
    returns no answer; the rejected call is the last call it makes. *)
Theorem generation_failure_propagates (h : Handler) (query : string)
    (searchResults : list SearchResult.t) (mode : Mode) (e : Error) :
  let relevant := relevantResultsOf mode searchResults in
  let gate := GenerateText (relevanceRequest query relevant) in
  let generation := GenerateText (answerRequest query relevant mode) in
  relevant <> [] ->
  (h _ gate = Rejected e ->
   run h (generateAnswerWithCitations query searchResults mode)
   = ([Called gate], Threw e)) /\
  (forall relevanceCheck,
      h _ gate = Fulfilled relevanceCheck ->
      isRelevant relevanceCheck = true ->
      h _ generation = Rejected e ->
      run h (generateAnswerWithCitations query searchResults mode)
      = ([Called gate; Called generation], Threw e)).
Proof.
  intros relevant gate generation Hne.
  assert (Hresults : (List.length searchResults =? 0)%nat = false).
  { destruct searchResults as [|r rest]; [|reflexivity].
    exfalso. apply Hne. unfold relevant, relevantResultsOf.
    destruct (isCustomer mode); reflexivity. }
  assert (Hguard : isCustomer mode && (List.length relevant =? 0)%nat = false).
  { destruct relevant; [contradiction|]. apply andb_false_r. }
  rewrite run_generateAnswer. cbv zeta. fold relevant.
  rewrite Hresults, Hguard. fold gate generation. split.
  - intros Hrej. rewrite Hrej. reflexivity.
  - intros check Hgate Hyes Hrej. rewrite Hgate, Hyes, Hrej. reflexivity.
Qed.

Lemma generation_failure_propagates_witness :
  run (Outage.allDown "generation service unavailable")
      (generateAnswerWithCitations "How does this feature work?"
         [Fixtures.supportArticle] internal)
  = ([Called (GenerateText (relevanceRequest "How does this feature work?"
                              [Fixtures.supportArticle]))],
     Threw "generation service unavailable").
Proof.
  apply (proj1 (@generation_failure_propagates
                  (Outage.allDown "generation service unavailable")
                  "How does this feature work?" [Fixtures.supportArticle] internal
                  "generation service unavailable" ltac:(discriminate))).
  reflexivity.
Defined.

(** X23. In customer mode the returned [canCiteForCustomer] is [true]
    exactly when an answer was generated, that is, when the search
    results hold a customer-safe entry and the relevance verdict is
    positive; on each of the three early returns it is [false]. *)
Theorem customer_can_cite_when_generated (h : Handler) (query : string)
    (searchResults : list SearchResult.t) (r : AnswerWithCitations.t) :
  outcome h (generateAnswerWithCitations query searchResults customer) = Returned r ->
  let safe := filter SearchResult.is_customer_safe searchResults in
  (AnswerWithCitations.canCiteForCustomer r = true <->
   safe <> [] /\
   exists relevanceCheck,
     h _ (GenerateText (relevanceRequest query safe)) = Fulfilled relevanceCheck /\
     isRelevant relevanceCheck = true).
Proof.
  unfold outcome. rewrite run_generateAnswer. cbv zeta.
  change (relevantResultsOf customer searchResults)
    with (filter SearchResult.is_customer_safe searchResults).
  pose proof (@filter_nonempty_existsb _ SearchResult.is_customer_safe searchResults)
    as Hex.
  destruct (List.length searchResults =? 0)%nat eqn:Hlen.
  { apply Nat.eqb_eq, length_zero_iff_nil in Hlen. subst searchResults.
    simpl. intros [= <-]. simpl.
    split; [discriminate | intros [H _]; contradiction]. }
  remember (filter SearchResult.is_customer_safe searchResults) as safe eqn:Hsafe.
  destruct safe as [|s0 safe'].
  { simpl. intros [= <-]. simpl.
    split; [discriminate | intros [H _]; contradiction]. }
  change (isCustomer customer && (List.length (s0 :: safe') =? 0)%nat) with false.
  cbv iota.
  destruct (h _ (GenerateText (relevanceRequest query (s0 :: safe'))))
    as [check|e] eqn:Hgate; [|discriminate].
  destruct (isRelevant check) eqn:Hrel; simpl negb; cbv iota.
  - destruct (h _ (GenerateText (answerRequest query (s0 :: safe') customer)))
      as [raw|e]; [|discriminate].
    simpl. intros [= <-]. simpl.
    rewrite Hex by discriminate. split; [|reflexivity].
    intros _. split; [discriminate|]. exists check. auto.
  - simpl. intros [= <-]. simpl. split; [discriminate|].
    intros [_ [check' [[= <-] Hyes]]]. congruence.
Qed.

Lemma customer_can_cite_when_generated_witness :
  let h := Fixtures.generation "YES" "See the article [1]." in
  let searchResults := [Fixtures.internalNotes; Fixtures.supportArticle] in
  let r := answerFrom "See the article [1]." [Fixtures.supportArticle] customer true in
  outcome h (generateAnswerWithCitations "How does this feature work?"
               searchResults customer) = Returned r /\
  AnswerWithCitations.canCiteForCustomer r = true.
Proof.
  intros h searchResults r.
  assert (Hout : outcome h (generateAnswerWithCitations "How does this feature work?"
                              searchResults customer) = Returned r)
    by (vm_compute; reflexivity).
  split; [exact Hout|].
  apply (customer_can_cite_when_generated h "How does this feature work?"
           searchResults Hout).
  split; [discriminate|]. exists "YES". split; reflexivity.
Defined.

(** X24. An answer never has more citations than there are entries in
    the evidence shown to generation, however often and in whatever
    order the text cites them. *)
Theorem citations_at_most_evidence (h : Handler) (query : string)
    (searchResults : list SearchResult.t) (mode : Mode) (r : AnswerWithCitations.t) :
  outcome h (generateAnswerWithCitations query searchResults mode) = Returned r ->
  (List.length (AnswerWithCitations.citations r)
   <= List.length (relevantResultsOf mode searchResults))%nat.
Proof.
  intros Hout. apply generateAnswer_returned in Hout.
  destruct Hout as [[-> _] | [[-> _] | [[check [_ [_ [-> _]]]]
                   | [check [raw [_ [_ [_ [_ [-> _]]]]]]]]]];
    try (simpl; lia).
  apply buildCitations_length.
Qed.

Lemma citations_at_most_evidence_witness :
  let h := Fixtures.generation "YES" "It is so [1][1][2][1], see [2] and [7]." in
  let searchResults := [Fixtures.supportArticle; Fixtures.customerDocs] in
  let r := answerFrom "It is so [1][1][2][1], see [2] and [7]."
             searchResults internal true in
  outcome h (generateAnswerWithCitations "How does this feature work?"
               searchResults internal) = Returned r /\
  (List.length (AnswerWithCitations.citations r) <= 2)%nat.
Proof.
  intros h searchResults r.
  assert (Hout : outcome h (generateAnswerWithCitations "How does this feature work?"
                              searchResults internal) = Returned r)
    by (vm_compute; reflexivity).
  split; [exact Hout|].
  exact (citations_at_most_evidence h "How does this feature work?"
           searchResults internal Hout).
Defined.

(* ===================================================================== *)
(** ** Scanning and cleaning                                              *)
(* ===================================================================== *)

Section ScanFacts.
Import Tokens.

Lemma append_assoc (a b c : string) : (a ++ b) ++ c = a ++ b ++ c.
Proof. induction a as [|x a IH]; simpl; congruence. Qed.

Lemma append_nil_r (a : string) : a ++ "" = a.
Proof. induction a as [|x a IH]; simpl; congruence. Qed.

Lemma append_length (a b : string) :
  String.length (a ++ b) = (String.length a + String.length b)%nat.
Proof. induction a as [|x a IH]; simpl; congruence. Qed.

Lemma concat_cons (x : string) (xs : list string) :
  concat "" (x :: xs) = x ++ concat "" xs.
Proof. destruct xs; simpl; [rewrite append_nil_r|]; reflexivity. Qed.

Lemma concat_app (xs ys : list string) :
  concat "" (xs ++ ys) = concat "" xs ++ concat "" ys.
Proof.
  induction xs as [|x rest IH]; [reflexivity|].
  change ((x :: rest) ++ ys)%list with (x :: (rest ++ ys))%list.
  rewrite !concat_cons, IH, append_assoc. reflexivity.
Qed.

(** [spanDigits] splits off a string of digits. *)
Lemma spanDigits_split (s : string) :
  s = fst (spanDigits s) ++ snd (spanDigits s) /\
  allDigits (fst (spanDigits s)) = true.
Proof.
  induction s as [|c t [IH1 IH2]]; simpl; [auto|].
  destruct (isDigit c) eqn:Hc; simpl; [|auto].
  destruct (spanDigits t) as [ds r]; simpl in *.
  rewrite Hc. split; [congruence | exact IH2].
Qed.

(** A match is an opening bracket, digits, a closing bracket. *)
Lemma matchCitation_Some (s ds rest : string) :
  matchCitation s = Some (ds, rest) ->
  s = String "[" (ds ++ String "]" rest) /\ allDigits ds = true /\ ds <> "".
Proof.
  unfold matchCitation. destruct s as [|c t]; [discriminate|].
  destruct (Ascii.eqb c "[") eqn:Hc.
  - apply Ascii.eqb_eq in Hc. subst c.
    destruct (spanDigits_split t) as [Hsplit Hdigits].
    destruct (spanDigits t) as [d r]. simpl in Hsplit, Hdigits.
    destruct d as [|d0 d']; [discriminate|].
    destruct r as [|c' r']; [discriminate|].
    destruct (Ascii.eqb c' "]") eqn:Hc'.
    + apply Ascii.eqb_eq in Hc'. subst c'. intros [= <- <-].
      split; [congruence|]. split; [exact Hdigits | discriminate].
    + destruct c' as [[] [] [] [] [] [] [] []]; try discriminate.
  - destruct c as [[] [] [] [] [] [] [] []]; try discriminate.
Qed.

Lemma scan_match (c : ascii) (t ds rest : string) :
  matchCitation (String c t) = Some (ds, rest) ->
  scanCitations (String c t) = Cite ds :: scanCitations rest.
Proof.
  intros H. rewrite scanCitations_equation_2.
  destruct (inspect (matchCitation (String c t))) as [[[ds' rest']|] e].
  - rewrite scanCitations_clause_2_equation_1. congruence.
  - congruence.
Qed.

Lemma scan_lit (c : ascii) (t : string) :
  matchCitation (String c t) = None ->
  scanCitations (String c t) = Lit c :: scanCitations t.
Proof.
  intros H. rewrite scanCitations_equation_2.
  destruct (inspect (matchCitation (String c t))) as [[[ds' rest']|] e].
  - congruence.
  - rewrite scanCitations_clause_2_equation_2. reflexivity.
Qed.

Lemma replaceCitations_render (f : string -> string) (s : string) :
  replaceCitations f s = concat "" (map (render f) (scanCitations s)).
Proof. reflexivity. Qed.

(** Strong induction on the length of the text, along the scan. *)
Lemma scan_ind (P : string -> Prop) :
  P "" ->
  (forall c t ds rest,
      matchCitation (String c t) = Some (ds, rest) -> P rest -> P (String c t)) ->
  (forall c t, matchCitation (String c t) = None -> P t -> P (String c t)) ->
  forall s, P s.
Proof.
  intros Hnil Hmatch Hlit s.
  assert (H : forall n s, (String.length s < n)%nat -> P s).
  { induction n as [|n IH]; intros s' Hlen; [lia|].
    destruct s' as [|c t]; [exact Hnil|].
    destruct (matchCitation (String c t)) as [[ds rest]|] eqn:Hm.
    - apply (Hmatch c t ds rest Hm). apply IH.
      apply matchCitation_Some in Hm as [Heq _].
      apply (f_equal String.length) in Heq. simpl in Heq.
      rewrite append_length in Heq. simpl in *. lia.
    - apply (Hlit c t Hm). apply IH. simpl in Hlen. lia. }
  apply (H (S (String.length s))). lia.
Qed.

(** Writing every token back as it was gives the text back. *)
Lemma replace_unchanged (f : string -> string) (s : string) :
  (forall group, In group (citationMatches s) -> f group = citeToken group) ->
  replaceCitations f s = s.
Proof.
  rewrite replaceCitations_render. unfold citationMatches.
  induction s as [|c t ds rest Hm IH|c t Hm IH] using scan_ind; intros Hf.
  - rewrite scanCitations_equation_1. reflexivity.
  - rewrite (@scan_match c t ds rest Hm) in *. simpl map. rewrite concat_cons.
    simpl render. rewrite (Hf ds) by (simpl; auto).
    rewrite IH by (intros g Hg; apply Hf; simpl; auto).
    apply matchCitation_Some in Hm as [-> _].
    unfold citeToken. simpl. rewrite append_assoc. reflexivity.
  - rewrite (@scan_lit c t Hm) in *. simpl map. rewrite concat_cons.
    simpl. rewrite IH by (intros g Hg; apply Hf; exact Hg). reflexivity.
Qed.

End ScanFacts.

(** X25. Cleaning leaves a text without invalid citations as it is: a
    text in which the scan finds no citation token is returned unchanged
    for every evidence size, and with at least one entry of evidence a
    text all of whose citation numbers are at most the evidence size is
    returned unchanged. *)
Theorem cleaning_keeps_valid_text (text : string) (maxValidCitation : nat) :
  (citationMatches text = [] ->
   cleanInvalidCitations text maxValidCitation = text) /\
  (maxValidCitation <> 0%nat ->
   Forall (fun group => (parseInt group <= N.of_nat maxValidCitation)%N)
          (citationMatches text) ->
   cleanInvalidCitations text maxValidCitation = text).
Proof.
  unfold cleanInvalidCitations. split.
  - intros Hnone.
    destruct (maxValidCitation =? 0)%nat; apply replace_unchanged;
      rewrite Hnone; intros g [].
  - intros Hpos Hall.
    destruct (maxValidCitation =? 0)%nat eqn:Hz;
      [apply Nat.eqb_eq in Hz; contradiction|].
    apply replace_unchanged. intros g Hg.
    rewrite Forall_forall in Hall. specialize (Hall g Hg).
    destruct (N.of_nat maxValidCitation <? parseInt g)%N eqn:Hgt; [|reflexivity].
    apply N.ltb_lt in Hgt. lia.
Qed.

Lemma cleaning_keeps_valid_text_witness :
  cleanInvalidCitations "Deployments happen on Friday [1]. Rollbacks are automated [2][1]." 2
  = "Deployments happen on Friday [1]. Rollbacks are automated [2][1].".
Proof.
  apply (proj2 (cleaning_keeps_valid_text
                  "Deployments happen on Friday [1]. Rollbacks are automated [2][1]." 2)).
  - discriminate.
  - vm_compute. repeat constructor; discriminate.
Defined.

Section TokenFacts.
Import Tokens.

Lemma allDigits_uint (d : Decimal.uint) :
  allDigits (NilEmpty.string_of_uint d) = true.
Proof. induction d; simpl; auto. Qed.

Lemma parse_uint (d : Decimal.uint) :
  forall acc : nat,
    fold_left (fun a c => (a * 10 + digitValue c)%N)
      (list_ascii_of_string (NilEmpty.string_of_uint d)) (N.of_nat acc)
    = N.of_nat (Nat.of_uint_acc d acc).
Proof.
  induction d; intros acc; simpl; [reflexivity| | | | | | | | | |];
    rewrite <- IHd; f_equal; rewrite Nat.tail_mul_spec;
    unfold digitValue; simpl; lia.
Qed.

Lemma parseInt_ofNat (n : nat) : parseInt (ofNat n) = N.of_nat n.
Proof.
  unfold parseInt, ofNat.
  etransitivity; [exact (parse_uint (Nat.to_uint n) 0)|].
  change (Nat.of_uint_acc (Nat.to_uint n) 0) with (Nat.of_uint (Nat.to_uint n)).
  rewrite Unsigned.of_to. reflexivity.
Qed.

Lemma ofNat_nonempty (n : nat) : n <> 0%nat -> ofNat n <> "".
Proof.
  intros Hn Hempty. apply Hn.
  rewrite <- (Unsigned.of_to n). unfold ofNat in Hempty.
  destruct (Nat.to_uint n); try discriminate Hempty. reflexivity.
Qed.

Lemma spanDigits_digits (ds rest : string) :
  allDigits ds = true ->
  spanDigits (ds ++ String "]" rest) = (ds, String "]" rest).
Proof.
  induction ds as [|c t IH]; intros H; [reflexivity|].
  simpl in H. apply andb_prop in H as [Hc Ht].
  simpl. rewrite Hc, (IH Ht). reflexivity.
Qed.

Lemma matchCitation_token (ds rest : string) :
  allDigits ds = true -> ds <> "" ->
  matchCitation (String "[" (ds ++ String "]" rest)) = Some (ds, rest).
Proof.
  intros Hd Hne. unfold matchCitation.
  rewrite (@spanDigits_digits ds rest Hd).
  destruct ds; [contradiction | reflexivity].
Qed.

(** A match that starts before an opening bracket ends before it. *)
Lemma match_ends_before_bracket (ds : string) :
  allDigits ds = true ->
  forall p s rest,
    p ++ String "[" s = ds ++ String "]" rest ->
    exists p', rest = p' ++ String "[" s /\ (String.length p' < String.length p)%nat.
Proof.
  induction ds as [|d ds' IH]; intros Hd p s rest Heq.
  - destruct p as [|c p']; simpl in Heq; [discriminate|].
    injection Heq as _ Heq. exists p'. split; [auto | simpl; lia].
  - simpl in Hd. apply andb_prop in Hd as [Hdigit Hd].
    destruct p as [|c p']; simpl in Heq.
    + injection Heq as <- _. discriminate Hdigit.
    + injection Heq as _ Heq.
      destruct (IH Hd p' s rest Heq) as [p'' [Hrest Hlen]].
      exists p''. split; [exact Hrest | simpl; lia].
Qed.

(** The scan of a text reaches every opening bracket of it. *)
Lemma scan_reaches_bracket (s : string) :
  forall pre, exists pieces,
    scanCitations (pre ++ String "[" s) =
    (pieces ++ scanCitations (String "[" s))%list.
Proof.
  assert (H : forall n pre, (String.length pre < n)%nat ->
                exists pieces,
                  scanCitations (pre ++ String "[" s) =
                  (pieces ++ scanCitations (String "[" s))%list).
  { induction n as [|n IH]; intros pre Hlen; [lia|].
    destruct pre as [|c p]; [exists []; reflexivity|].
    change (String c p ++ String "[" s) with (String c (p ++ String "[" s)).
    destruct (matchCitation (String c (p ++ String "[" s))) as [[ds rest]|] eqn:Hm.
    - rewrite (@scan_match c _ ds rest Hm).
      apply matchCitation_Some in Hm as [Heq [Hd _]].
      injection Heq as _ Heq.
      destruct (@match_ends_before_bracket ds Hd p s rest Heq) as [p' [-> Hlen']].
      destruct (IH p') as [pieces Hp]; [simpl in Hlen; lia|].
      exists (Cite ds :: pieces). rewrite Hp. reflexivity.
    - rewrite (@scan_lit c _ Hm).
      destruct (IH p) as [pieces Hp]; [simpl in Hlen; lia|].
      exists (Lit c :: pieces). rewrite Hp. reflexivity. }
  intros pre. apply (H (S (String.length pre))). lia.
Qed.

(** A well-formed token in a text is one of the matches of its scan. *)
Lemma scan_finds_token (pre ds post : string) :
  allDigits ds = true -> ds <> "" ->
  exists pieces,
    scanCitations (pre ++ String "[" (ds ++ String "]" post)) =
    (pieces ++ Cite ds :: scanCitations post)%list.
Proof.
  intros Hd Hne.
  destruct (scan_reaches_bracket (ds ++ String "]" post) pre) as [pieces Hp].
  exists pieces. rewrite Hp.
  rewrite (@scan_match "[" _ ds post (@matchCitation_token ds post Hd Hne)).
  reflexivity.
Qed.

Lemma tokenOf_append (n : nat) (post : string) :
  tokenOf n ++ post = String "[" (ofNat n ++ String "]" post).
Proof. unfold tokenOf. simpl. rewrite append_assoc. reflexivity. Qed.

End TokenFacts.

Import Tokens.

(** X26. A valid citation is honoured.  If the generated text holds the
    token [i+1] for an entry at index [i] of the evidence, in the
    decimal writing the prompt uses and wherever it stands, then cleaning
    keeps that token in the text and the citation list holds the
    citation of that entry. *)
Theorem valid_citation_is_honoured (evidence : list SearchResult.t) (i : nat)
    (r : SearchResult.t) (pre post : string) :
  nth_error evidence i = Some r ->
  let rawAnswer := pre ++ tokenOf (i + 1) ++ post in
  let cleanedAnswer := cleanInvalidCitations rawAnswer (List.length evidence) in
  (exists before after, cleanedAnswer = before ++ tokenOf (i + 1) ++ after) /\
  In (toCitation r) (buildCitations cleanedAnswer evidence).
Proof.
  intros Hnth rawAnswer cleanedAnswer.
  assert (Hi : (i < List.length evidence)%nat)
    by (apply nth_error_Some; congruence).
  set (n := List.length evidence) in *.
  set (tok := ofNat (i + 1)).
  assert (Hd : allDigits tok = true) by apply allDigits_uint.
  assert (Hne : tok <> "") by (apply ofNat_nonempty; lia).
  assert (Hparse : parseInt tok = N.of_nat (i + 1)) by apply parseInt_ofNat.
  set (f := fun num : string =>
              if (N.of_nat n <? parseInt num)%N then "" else citeToken num).
  assert (Hclean : cleanedAnswer = replaceCitations f rawAnswer).
  { unfold cleanedAnswer, cleanInvalidCitations. fold n.
    destruct (n =? 0)%nat eqn:Hz; [apply Nat.eqb_eq in Hz; lia | reflexivity]. }
  assert (Hkeep : f tok = tokenOf (i + 1)).
  { unfold f. rewrite Hparse.
    destruct (N.of_nat n <? N.of_nat (i + 1))%N eqn:Hgt; [|reflexivity].
    apply N.ltb_lt in Hgt. lia. }
  assert (Hshape : exists before after,
             cleanedAnswer = before ++ tokenOf (i + 1) ++ after).
  { unfold rawAnswer in Hclean. rewrite tokenOf_append in Hclean.
    destruct (@scan_finds_token pre tok post Hd Hne) as [pieces Hscan].
    fold tok in Hclean. rewrite replaceCitations_render, Hscan in Hclean.
    rewrite map_app, concat_app in Hclean. simpl map in Hclean.
    rewrite concat_cons in Hclean. simpl render in Hclean.
    rewrite Hkeep in Hclean.
    eexists; eexists. exact Hclean. }
  split; [exact Hshape|].
  destruct Hshape as [before [after Hcleaned]].
  assert (Hmatch : In tok (citationMatches cleanedAnswer)).
  { rewrite Hcleaned, tokenOf_append. fold tok.
    destruct (@scan_finds_token before tok after Hd Hne) as [pieces Hscan].
    unfold citationMatches. rewrite Hscan.
    apply in_flat_map. exists (Cite tok).
    split; [apply in_or_app; right; left; reflexivity | left; reflexivity]. }
  destruct (buildCitations_spec cleanedAnswer evidence)
    as [indices [_ [Hin Hmap]]].
  assert (Hidx : In i indices).
  { apply Hin. exists tok. split; [exact Hmatch|].
    unfold cites. fold n. rewrite Hparse. lia. }
  apply (in_map (fun j => option_map toCitation (nth_error evidence j))) in Hidx.
  rewrite <- Hmap, Hnth in Hidx. simpl in Hidx.
  apply in_map_iff in Hidx as [c [[= ->] Hc]]. exact Hc.
Qed.

Lemma valid_citation_is_honoured_witness :
  In (toCitation Fixtures.customerDocs)
     (buildCitations
        (cleanInvalidCitations
           ("See [9] and the docs " ++ tokenOf (1 + 1) ++ ".") 2)
        [Fixtures.supportArticle; Fixtures.customerDocs]).
Proof.
  exact (proj2 (@valid_citation_is_honoured
                  [Fixtures.supportArticle; Fixtures.customerDocs] 1
                  Fixtures.customerDocs "See [9] and the docs " "." eq_refl)).
Defined.
